(** * CipherFileIO: the cipher-block filter of encfs

    A shallow embedding of [encfs/CipherFileIO.cpp] and the properties of
    its header manager, padding codec, block transform, size translator,
    truncate coordination and reverse virtual-header reader.

    The backing [FileIO], the cipher primitive and the [BlockFileIO] base
    class are collaborators of the filter; they appear here as interfaces
    (type classes), and every theorem holds for all their implementations.
    A small scripted implementation is used for the concrete runs. *)

From Stdlib Require Import String ZArith List Bool Lia.
From Stdlib Require Import Strings.Byte.
Import ListNotations.
Local Open Scope Z_scope.

Set Implicit Arguments.

(** ** Machine integers

    The source computes on [off_t]/[ssize_t] (signed 64 bit), [size_t] and
    [uint64_t] (unsigned 64 bit), [int] (signed 32 bit) and [unsigned int].
    Values are integers of [Z]; each conversion and each arithmetic result
    is reduced to its type. *)

Module MachInt.

Definition u64 (z : Z) : Z := z mod 2 ^ 64.
Definition s64 (z : Z) : Z := (z + 2 ^ 63) mod 2 ^ 64 - 2 ^ 63.
Definition u32 (z : Z) : Z := z mod 2 ^ 32.
Definition s32 (z : Z) : Z := (z + 2 ^ 31) mod 2 ^ 32 - 2 ^ 31.

End MachInt.
Import MachInt.

(** ** Constants of the platform headers

    [<cerrno>], [<fcntl.h>] and [<sys/stat.h>] are system headers; the
    values are those of Linux. *)

Definition EPERM : Z := 1.
Definition EISDIR : Z := 21.
Definition EBADMSG : Z := 74.
Definition O_RDWR : Z := 2.
Definition S_IFMT : Z := 61440.   (* 0170000 *)
Definition S_IFREG : Z := 32768.  (* 0100000 *)

(** [const int HEADER_SIZE = 8;  // 64 bit initialization vector..] *)
Definition HEADER_SIZE : Z := 8.

(** ** Bytes and buffers *)

Definition byte_to_Z (b : byte) : Z := Z.of_N (Byte.to_N b).

Definition byte_of_Z (z : Z) : byte :=
  match Byte.of_N (Z.to_N (z mod 256)) with
  | Some b => b
  | None => x00
  end.

(** [buf[i]] on a buffer held as a list. *)
Definition at_index (buf : list byte) (i : Z) : byte :=
  nth (Z.to_nat i) buf x00.

(** The first [n] bytes of a buffer, and the rest. *)
Definition take (n : Z) (buf : list byte) : list byte := firstn (Z.to_nat n) buf.
Definition drop (n : Z) (buf : list byte) : list byte := skipn (Z.to_nat n) buf.

(** [struct IORequest { off_t offset; size_t dataLen; unsigned char *data; }]
    The buffer behind [data] is carried by value. *)
Record IORequest : Type := mkIORequest {
  offset : Z;
  dataLen : Z;
  data : list byte
}.

(** The fields of [struct stat] the filter reads or writes. *)
Record stat : Type := mkStat {
  st_mode : Z;
  st_size : Z;
  st_ino : Z
}.

Definition S_ISREG (mode : Z) : bool := Z.land mode S_IFMT =? S_IFREG.

(** ** Outcomes

    A call either returns, or leaves through a failed [rAssert], or (in the
    model only) exhausts the fuel given to the random-IV loop. *)

Inductive outcome (A : Type) : Type :=
| Ret (a : A)
| AssertFailed (cond : string)
| OutOfFuel.

Arguments Ret {A} a.
Arguments AssertFailed {A} cond.
Arguments OutOfFuel {A}.

(** ** Interfaces of the collaborators *)

(** The backing file ([std::shared_ptr<FileIO> base]).  [W] is the state of
    everything outside the filter: the backing file and the random source.
    [getSize], [getAttr] and [isWritable] only observe it. *)
Class FileIO (W : Type) : Type := {
  base_open : Z -> W -> Z * W;
  base_getAttr : W -> Z * stat;
  base_getSize : W -> Z;
  base_read : IORequest -> W -> (Z * list byte) * W;
  base_write : IORequest -> W -> Z * W;
  base_truncate : Z -> W -> Z * W;
  base_isWritable : W -> bool;
  base_setIV : Z -> W -> bool * W
}.

(** The cipher primitive with its key fixed.  The transforms work in place
    on the first [size] bytes of a buffer: they are given those bytes and
    return whether they succeeded together with the new bytes. *)
Class Cipher (W : Type) : Type := {
  cipherBlockSize : Z;
  streamEncode : list byte -> Z -> bool * list byte;
  streamDecode : list byte -> Z -> bool * list byte;
  blockEncode : list byte -> Z -> bool * list byte;
  blockDecode : list byte -> Z -> bool * list byte;
  randomize : Z -> W -> (bool * list byte) * W;
  SHA1 : list byte -> list byte
}.

(** ** The filter *)

(** The members of [CipherFileIO], with those of its base class
    [BlockFileIO] ([_blockSize], [_allowHoles]) and the one field of
    [fsConfig] it consults ([reverseEncryption]). *)
Record CipherFileIO (W : Type) : Type := mkCipherFileIO {
  base : W;
  haveHeader : bool;
  haveCBCPadding : bool;
  reverseEncryption : bool;
  blockSize : Z;
  allowHoles : bool;
  externalIV : Z;
  fileIV : Z;
  lastFlags : Z
}.

Section Setters.
Context {W : Type}.

Definition set_base (w : W) (s : CipherFileIO W) : CipherFileIO W :=
  mkCipherFileIO w (haveHeader s) (haveCBCPadding s) (reverseEncryption s)
    (blockSize s) (allowHoles s) (externalIV s) (fileIV s) (lastFlags s).

Definition set_externalIV (iv : Z) (s : CipherFileIO W) : CipherFileIO W :=
  mkCipherFileIO (base s) (haveHeader s) (haveCBCPadding s) (reverseEncryption s)
    (blockSize s) (allowHoles s) iv (fileIV s) (lastFlags s).

Definition set_fileIV (iv : Z) (s : CipherFileIO W) : CipherFileIO W :=
  mkCipherFileIO (base s) (haveHeader s) (haveCBCPadding s) (reverseEncryption s)
    (blockSize s) (allowHoles s) (externalIV s) iv (lastFlags s).

Definition set_lastFlags (fl : Z) (s : CipherFileIO W) : CipherFileIO W :=
  mkCipherFileIO (base s) (haveHeader s) (haveCBCPadding s) (reverseEncryption s)
    (blockSize s) (allowHoles s) (externalIV s) (fileIV s) fl.

End Setters.

(** ** The monad of the member functions: state and outcome *)

Definition M (W A : Type) : Type := CipherFileIO W -> outcome A * CipherFileIO W.

Definition ret {W A : Type} (a : A) : M W A := fun s => (Ret a, s).

Definition bind {W A B : Type} (m : M W A) (k : A -> M W B) : M W B :=
  fun s =>
    match m s with
    | (Ret a, s') => k a s'
    | (AssertFailed c, s') => (AssertFailed c, s')
    | (OutOfFuel, s') => (OutOfFuel, s')
    end.

Definition get {W : Type} : M W (CipherFileIO W) := fun s => (Ret s, s).

Definition modify {W : Type} (f : CipherFileIO W -> CipherFileIO W) : M W unit :=
  fun s => (Ret tt, f s).

(** A call on [base] that may change the world. *)
Definition on_base {W A : Type} (f : W -> A * W) : M W A :=
  fun s => let (a, w) := f (base s) in (Ret a, set_base w s).

(** Modelled from the spec: [rAssert] of [Error.h], which is not among the
    sources.  The spec calls these defensive assertions that "fail the
    operation" and "fail loudly, not silently", an error kind of its own
    next to [BadMessage] and [PermissionDenied]: a false condition ends the
    call with [AssertFailed]; what was stored before stays stored. *)
Definition rAssert {W : Type} (cond : bool) (text : string) : M W unit :=
  fun s => if cond then (Ret tt, s) else (AssertFailed text, s).

Declare Scope cfio_scope.
Delimit Scope cfio_scope with cfio.
Notation "x <- m ;; k" := (bind m (fun x => k))
  (at level 100, m at next level, right associativity) : cfio_scope.
Notation "m ;;; k" := (bind m (fun _ => k))
  (at level 100, right associativity) : cfio_scope.
Local Open Scope cfio_scope.

(** ** Construction *)

(** The fields of [FSConfig] and of its [config] the constructor reads. *)
Record FSConfig : Type := mkFSConfig {
  cfg_blockSize : Z;
  cipherIface_current : Z;
  cipherIface_revision : Z;
  cfg_reverseEncryption : bool;
  cfg_uniqueIV : bool;
  cfg_allowHoles : bool
}.

Definition checkCBCPadding (cfg : FSConfig) : Z :=
  if ((cipherIface_current cfg =? 3) && (cipherIface_revision cfg >=? 1))
     || (cipherIface_current cfg >? 3)
  then if cfg_reverseEncryption cfg then 2 else 1
  else 0.

(** [CipherFileIO::CipherFileIO]; the [CHECK_EQ] on the block sizes is the
    side condition [block_sizes_ok]. *)
Definition new_CipherFileIO {W : Type} (_base : W) (cfg : FSConfig) : CipherFileIO W :=
  mkCipherFileIO _base
    (cfg_uniqueIV cfg)
    (checkCBCPadding cfg >? 0)
    (cfg_reverseEncryption cfg)
    (u32 (cfg_blockSize cfg - Z.rem (checkCBCPadding cfg) 2))
    (cfg_allowHoles cfg)
    0 0 0.

Definition block_sizes_ok {W : Type} {C : Cipher W} (cfg : FSConfig) : Prop :=
  Z.rem (cfg_blockSize cfg) (@cipherBlockSize W C) = 0.

(** The two member functions of the base class [BlockFileIO] the filter
    calls.  [BlockFileIO.cpp] is the block chunker: it calls back into
    [readOneBlock] and [writeOneBlock], so both run on the state of the
    filter.  The flag of [truncateBase] tells whether [base.get()] was
    passed ([true]) or [nullptr] ([false]). *)
Class BlockFileIO (W : Type) : Type := {
  truncateBase : Z -> bool -> M W Z;
  BlockFileIO_read : IORequest -> M W (Z * list byte)
}.

Section Filter.
Context {W : Type} {F : FileIO W} {C : Cipher W} {B : BlockFileIO W}.

Abbreviation cbs := (@cipherBlockSize W C).

(** [int CipherFileIO::open(int flags)] *)
Definition open (flags : Z) : M W Z :=
  res <- on_base (base_open flags) ;;
  if res >=? 0 then (modify (set_lastFlags flags) ;;; ret res) else ret res.

(** ** Size and attribute translation *)

(** [off_t CipherFileIO::getSize() const] *)
Definition getSize : M W Z :=
  s <- get ;;
  let size := base_getSize (base s) in
  if negb (reverseEncryption s) then
    size1 <- (if haveHeader s && (size >? 0) then
                rAssert (size >=? HEADER_SIZE) "size >= HEADER_SIZE" ;;;
                ret (s64 (size - HEADER_SIZE))
              else ret size) ;;
    if haveCBCPadding s && (size1 >? 0) then
      rAssert (size1 >=? cbs) "size >= fsConfig->cipher->cipherBlockSize()" ;;;
      let size2 := s64 (size1 - cbs) in
      ret (s64 (size2 - Z.quot size2 (u32 (blockSize s + 1))))
    else ret size1
  else if size >? 0 then
    let size1 :=
      if haveCBCPadding s then
        let grown := s64 (size + Z.quot (s64 (size - 1)) (u32 (blockSize s - 1))) in
        s64 (grown + cbs)
      else size in
    ret (if haveHeader s then s64 (size1 + HEADER_SIZE) else size1)
  else ret size.

Definition set_st_size (sz : Z) (sb : stat) : stat :=
  mkStat (st_mode sb) sz (st_ino sb).

(** [int CipherFileIO::getAttr(struct stat *stbuf) const]; the result is
    the return value with the contents of [*stbuf]. *)
Definition getAttr : M W (Z * stat) :=
  s <- get ;;
  let (res, stbuf) := base_getAttr (base s) in
  if (res =? 0) && S_ISREG (st_mode stbuf) then
    let size := st_size stbuf in
    if negb (reverseEncryption s) then
      size1 <- (if haveHeader s && (size >? 0) then
                  rAssert (size >=? HEADER_SIZE) "stbuf->st_size >= HEADER_SIZE" ;;;
                  ret (s64 (size - HEADER_SIZE))
                else ret size) ;;
      if haveCBCPadding s && (size1 >? 0) then
        rAssert (size1 >=? cbs)
          "stbuf->st_size >= fsConfig->cipher->cipherBlockSize()" ;;;
        let size2 := s64 (size1 - cbs) in
        ret (res, set_st_size (s64 (size2 - Z.quot size2 (u32 (blockSize s + 1)))) stbuf)
      else ret (res, set_st_size size1 stbuf)
    else if size >? 0 then
      let size1 :=
        if haveCBCPadding s then
          let grown := s64 (size + Z.quot (s64 (size - 1)) (u32 (blockSize s - 1))) in
          s64 (grown + cbs)
        else size in
      ret (res, set_st_size (if haveHeader s then s64 (size1 + HEADER_SIZE) else size1) stbuf)
    else ret (res, stbuf)
  else ret (res, stbuf).

(** ** Header manager *)

(** The loop [fileIV = 0; for (i = 0; i < 8; ++i) fileIV = (fileIV << 8) |
    (uint64_t)buf[i];] over the eight bytes of [buf], as a function of the
    buffer: the value it leaves in [fileIV]. *)
Definition decodeIV (buf : list byte) : Z :=
  fold_left (fun iv b => Z.lor (u64 (Z.shiftl iv 8)) (byte_to_Z b)) (firstn 8 buf) 0.

(** A cipher transform applied in place to the first [size] bytes. *)
Definition in_place (f : list byte -> Z -> bool * list byte)
    (buf : list byte) (size iv : Z) : bool * list byte :=
  let (ok, out) := f (take size buf) iv in (ok, out ++ drop size buf).

(** Fuel for the [do ... while (fileIV == 0)] loop of [initHeader]. *)
Variable fuel : nat.

(** The loop that draws a random file IV.  It ends with [inl] of the
    error code when [randomize] fails and with [inr] of the bytes drawn
    once they decode to a non-zero IV. *)
Fixpoint randomIV_loop (n : nat) : M W (Z + list byte) :=
  match n with
  | O => fun s => (OutOfFuel, s)
  | S n' =>
      r <- on_base (randomize 8) ;;
      if negb (fst r) then ret (inl (- EBADMSG))
      else
        modify (set_fileIV (decodeIV (snd r))) ;;;
        if decodeIV (snd r) =? 0 then randomIV_loop n' else ret (inr (snd r))
  end.

(** [int CipherFileIO::initHeader()] *)
Definition initHeader : M W Z :=
  s <- get ;;
  let rawSize := base_getSize (base s) in
  if rawSize >=? HEADER_SIZE then
    r <- on_base (base_read (mkIORequest 0 8 (repeat x00 8))) ;;
    let readSize := fst r in
    if readSize <? 0 then ret (s32 readSize)
    else
      let dec := in_place streamDecode (take 8 (snd r)) 8 (externalIV s) in
      if negb (fst dec) then ret (- EBADMSG)
      else
        modify (set_fileIV (decodeIV (snd dec))) ;;;
        rAssert (negb (decodeIV (snd dec) =? 0)) "fileIV != 0" ;;;
        ret 0
  else
    r <- randomIV_loop fuel ;;
    match r with
    | inl err => ret err
    | inr buf =>
        s1 <- get ;;
        if base_isWritable (base s1) then
          let enc := in_place streamEncode (take 8 buf) 8 (externalIV s1) in
          if negb (fst enc) then ret (- EBADMSG)
          else
            writeSize <- on_base (base_write (mkIORequest 0 8 (snd enc))) ;;
            if writeSize <? 0 then ret (s32 writeSize) else ret 0
        else ret 0
    end.

(** [buf[i] = b] on a buffer held as a list. *)
Fixpoint set_index (buf : list byte) (i : nat) (b : byte) : list byte :=
  match buf, i with
  | [], _ => []
  | _ :: t, O => b :: t
  | h :: t, S i' => h :: set_index t i' b
  end.

(** One round of the loop of [writeHeader]:
    [buf[sizeof(buf) - 1 - i] = (unsigned char)(fileIV & 0xff); fileIV >>= 8;]
    on the pair of the buffer and the member [fileIV]. *)
Definition writeHeader_round (acc : list byte * Z) (i : nat) : list byte * Z :=
  (set_index (fst acc) (8 - 1 - i) (byte_of_Z (Z.land (snd acc) 255)),
   Z.shiftr (snd acc) 8).

(** [bool CipherFileIO::writeHeader()] *)
Definition writeHeader : M W bool :=
  s <- get ;;
  let acc := fold_left writeHeader_round (seq 0 8) (repeat x00 8, fileIV s) in
  modify (set_fileIV (snd acc)) ;;;
  let enc := in_place streamEncode (fst acc) 8 (externalIV s) in
  if negb (fst enc) then ret false
  else
    res <- on_base (base_write (mkIORequest 0 8 (snd enc))) ;;
    ret (res >=? 0).

(** [bool CipherFileIO::setIV(uint64_t iv)] *)
Definition setIV (iv : Z) : M W bool :=
  s <- get ;;
  if externalIV s =? 0 then
    modify (set_externalIV iv) ;;;
    on_base (base_setIV iv)
  else if haveHeader s then
    let newFlags := Z.lor (lastFlags s) O_RDWR in
    res <- on_base (base_open newFlags) ;;
    if res <? 0 then
      if res =? - EISDIR then
        modify (set_externalIV iv) ;;;
        on_base (base_setIV iv)
      else ret false
    else
      r <- (if fileIV s =? 0 then initHeader else ret 0) ;;
      if r <? 0 then ret false
      else
        s1 <- get ;;
        let oldIV := externalIV s1 in
        modify (set_externalIV iv) ;;;
        ok <- writeHeader ;;
        if negb ok then
          modify (set_externalIV oldIV) ;;;
          ret false
        else on_base (base_setIV iv)
  else on_base (base_setIV iv).

(** The serialisation loop of [generateReverseHeader]:
    [inoBuf[i] = (unsigned char)(ino & 0xff); ino >>= 8;] for the
    [sizeof(ino_t) = 8] bytes of an inode number. *)
Definition serialize_ino (ino : Z) : list byte :=
  map (fun i => byte_of_Z (Z.land (Z.shiftr ino (8 * Z.of_nat i)) 255)) (seq 0 8).

(** [int CipherFileIO::generateReverseHeader(unsigned char *headerBuf)];
    the result is the return value with the contents of [headerBuf]. *)
Definition generateReverseHeader : M W (Z * list byte) :=
  a <- getAttr ;;
  rAssert (fst a =? 0) "res == 0" ;;;
  let ino := st_ino (snd a) in
  rAssert (negb (ino =? 0)) "ino != 0" ;;;
  let md := SHA1 (serialize_ino ino) in
  let headerBuf := take HEADER_SIZE md in
  modify (set_fileIV (decodeIV headerBuf)) ;;;
  s <- get ;;
  let enc := in_place streamEncode headerBuf HEADER_SIZE (externalIV s) in
  if negb (fst enc) then ret (- EBADMSG, snd enc)
  else ret (0, snd enc).

(** ** Block transform *)

Definition is_zero (b : byte) : bool := byte_to_Z b =? 0.

(** [bool CipherFileIO::blockWrite(unsigned char *buf, int size, uint64_t _iv64) const] *)
Definition blockWrite (s : CipherFileIO W) (buf : list byte) (size iv : Z)
    : bool * list byte :=
  if negb (reverseEncryption s) then in_place blockEncode buf size iv
  else in_place blockDecode buf size iv.

(** [bool CipherFileIO::streamWrite(...) const] *)
Definition streamWrite (s : CipherFileIO W) (buf : list byte) (size iv : Z)
    : bool * list byte :=
  if negb (reverseEncryption s) then in_place streamEncode buf size iv
  else in_place streamDecode buf size iv.

(** [bool CipherFileIO::blockRead(...) const]; with [_allowHoles] a buffer
    whose first [size] bytes are all zero is left alone. *)
Definition blockRead (s : CipherFileIO W) (buf : list byte) (size iv : Z)
    : bool * list byte :=
  if reverseEncryption s then in_place blockEncode buf size iv
  else if allowHoles s then
    if forallb is_zero (take size buf) then (true, buf)
    else in_place blockDecode buf size iv
  else in_place blockDecode buf size iv.

(** [bool CipherFileIO::streamRead(...) const] *)
Definition streamRead (s : CipherFileIO W) (buf : list byte) (size iv : Z)
    : bool * list byte :=
  if reverseEncryption s then in_place streamEncode buf size iv
  else in_place streamDecode buf size iv.

(** The request [readOneBlock] sends to [base]: the offset moved by the
    padding bytes of the blocks before and by the header.  The quotient
    [offset / dataLen] is taken on [size_t]; for [dataLen = 0] it is
    undefined in the source and 0 here. *)
Definition backingRequest (s : CipherFileIO W) (req : IORequest) : IORequest :=
  let tmpReq :=
    if haveCBCPadding s && negb (reverseEncryption s) then
      mkIORequest (s64 (offset req + u64 (offset req) / dataLen req))
                  (u64 (dataLen req + 1)) (data req)
    else req in
  if haveHeader s && negb (reverseEncryption s) then
    mkIORequest (s64 (offset tmpReq + HEADER_SIZE)) (dataLen tmpReq) (data tmpReq)
  else tmpReq.

(** First part of [readOneBlock] (up to [bool ok = true;]): read the raw
    block and establish the header.  [inl] is the early return on a failed
    [initHeader], [inr] the read size; both with the buffer. *)
Definition fetchBlock (req : IORequest) : M W (Z * list byte + Z * list byte) :=
  s <- get ;;
  r <- on_base (base_read (backingRequest s req)) ;;
  let readSize := fst r in
  if haveHeader s && (fileIV s =? 0) && (readSize >? 0) then
    res <- initHeader ;;
    if res <? 0 then ret (inl (res, snd r)) else ret (inr r)
  else ret (inr r).

(** The loop [while ((padBytes < readSize) && (data[readSize - padBytes - 1]
    == 0x00)) padBytes++;] of at most [n] rounds. *)
Fixpoint scanPadding (n : nat) (buf : list byte) (readSize padBytes : Z) : Z :=
  match n with
  | O => padBytes
  | S n' =>
      if (padBytes <? readSize) && is_zero (at_index buf (readSize - padBytes - 1))
      then scanPadding n' buf readSize (s32 (padBytes + 1))
      else padBytes
  end.

(** Second part of [readOneBlock] (from [bool ok = true;]): decode what was
    read.  The function is [const] and calls nothing that changes state. *)
Definition decodeBlock (s : CipherFileIO W) (req : IORequest)
    (readSize : Z) (buf : list byte) : Z * list byte :=
  let bs := s32 (blockSize s) in
  let blockNum := s64 (Z.quot (offset req) bs) in
  let iv := Z.lxor (u64 blockNum) (fileIV s) in
  let '(ok, readSize', buf') :=
    if haveCBCPadding s && (readSize >=? 0) then
      if negb (reverseEncryption s) then
        let padBytes := s32 (Z.rem readSize cbs) in
        let readSize1 := s64 (readSize - padBytes) in
        if readSize1 >? 0 then
          let dec := blockRead s buf (s32 readSize1) iv in
          if fst dec then
            let padBytes := scanPadding (Z.to_nat readSize1) (snd dec) readSize1 0 in
            if allowHoles s && (padBytes =? readSize1) && (readSize1 =? s32 (bs + 1)) then
              (true, s64 (readSize1 - 1), snd dec)
            else if (s64 (readSize1 - padBytes) >? 1)
                    && (byte_to_Z (at_index (snd dec) (readSize1 - padBytes - 1)) =? 128) then
              (true, s64 (readSize1 - s32 (padBytes + 1)), snd dec)
            else (true, - EBADMSG, snd dec)
          else (false, readSize1, snd dec)
        else (true, readSize1, buf)
      else (true, readSize, buf)
    else if readSize >? 0 then
      if negb (readSize =? bs) then
        let dec := streamRead s buf (s32 readSize) iv in (fst dec, readSize, snd dec)
      else
        let dec := blockRead s buf (s32 readSize) iv in (fst dec, readSize, snd dec)
    else (true, readSize, buf) in
  if negb ok then (- EBADMSG, buf') else (readSize', buf').

(** [ssize_t CipherFileIO::readOneBlock(const IORequest &req) const]; the
    result is the return value with the contents of [req.data]. *)
Definition readOneBlock (req : IORequest) : M W (Z * list byte) :=
  f <- fetchBlock req ;;
  match f with
  | inl early => ret early
  | inr r => s <- get ;; ret (decodeBlock s req (fst r) (snd r))
  end.

(** [ssize_t CipherFileIO::writeOneBlock(const IORequest &req)]; the result
    is the return value with the contents of [req.data]. *)
Definition writeOneBlock (req : IORequest) : M W (Z * list byte) :=
  s <- get ;;
  if haveHeader s && reverseEncryption s then ret (- EPERM, data req)
  else
    let bs := u32 (blockSize s) in
    let blockNum := s64 (Z.quot (offset req) bs) in
    r <- (if haveHeader s && (fileIV s =? 0) then initHeader else ret 0) ;;
    if r <? 0 then ret (r, data req)
    else
      s1 <- get ;;
      let iv := Z.lxor (u64 blockNum) (fileIV s1) in
      let enc :=
        if negb (dataLen req =? bs) then streamWrite s1 (data req) (s32 (dataLen req)) iv
        else blockWrite s1 (data req) (s32 (dataLen req)) iv in
      if fst enc then
        if haveHeader s1 then
          res <- on_base (base_write
                   (mkIORequest (s64 (offset req + HEADER_SIZE)) (dataLen req) (snd enc))) ;;
          ret (res, snd enc)
        else
          res <- on_base (base_write (mkIORequest (offset req) (dataLen req) (snd enc))) ;;
          ret (res, snd enc)
      else ret (- EBADMSG, snd enc).

(** ** Truncate coordination *)

(** [int CipherFileIO::truncate(off_t size)] *)
Definition truncate (size : Z) : M W Z :=
  s <- get ;;
  let body (reopen : bool) : M W Z :=
    res <- (if negb (haveHeader s) then truncateBase size true
            else
              res0 <- (if 0 =? fileIV s then initHeader else ret 0) ;;
              res1 <- (if res0 =? 0 then truncateBase size false else ret res0) ;;
              if res1 =? 0 then on_base (base_truncate (s64 (size + HEADER_SIZE)))
              else ret res1) ;;
    if reopen then
      s1 <- get ;;
      reopened <- on_base (base_open (lastFlags s1)) ;;
      if res <? 0 then ret reopened else ret res
    else ret res in
  if negb (base_isWritable (base s)) then
    let newFlags := Z.lor (lastFlags s) O_RDWR in
    res <- on_base (base_open newFlags) ;;
    if res <? 0 then
      on_base (base_open (lastFlags s)) ;;;
      ret res
    else body true
  else body false.

(** ** Reverse virtual-header reader *)

(** [ssize_t CipherFileIO::read(const IORequest &origReq) const]; the
    result is the return value with the contents of [origReq.data]. *)
Definition read (origReq : IORequest) : M W (Z * list byte) :=
  s <- get ;;
  if negb (reverseEncryption s && haveHeader s) then BlockFileIO_read origReq
  else
    h <- generateReverseHeader ;;
    let headerBuf := snd h in
    if fst h <? 0 then ret (fst h, data origReq)
    else
      let off := s64 (offset origReq - HEADER_SIZE) in
      if off <? 0 then
        let headerBytes0 := s32 (s64 (- off)) in
        let headerBytes :=
          if dataLen origReq <? u64 headerBytes0 then s32 (dataLen origReq)
          else headerBytes0 in
        let headerOffset := s32 (HEADER_SIZE - headerBytes) in
        let copied := take headerBytes (drop headerOffset headerBuf) in
        let data1 := copied ++ drop headerBytes (data origReq) in
        if u64 headerBytes =? dataLen origReq then ret (headerBytes, data1)
        else
          let off1 := s64 (off + headerBytes) in
          rAssert (off1 =? 0) "req.offset == 0" ;;;
          r <- BlockFileIO_read
                 (mkIORequest off1 (u64 (dataLen origReq - headerBytes))
                              (drop headerBytes data1)) ;;
          let readBytes := fst r in
          if readBytes <? 0 then ret (readBytes, take headerBytes data1 ++ snd r)
          else ret (s64 (headerBytes + readBytes), take headerBytes data1 ++ snd r)
      else
        r <- BlockFileIO_read (mkIORequest off (dataLen origReq) (data origReq)) ;;
        let readBytes := fst r in
        if readBytes <? 0 then ret (readBytes, snd r)
        else ret (s64 (0 + readBytes), snd r).

(** [bool CipherFileIO::isWritable() const] *)
Definition isWritable (s : CipherFileIO W) : bool := base_isWritable (base s).

End Filter.

(** ** A scripted implementation of the collaborators

    The backing file answers from scripts (one list of results per
    operation, consumed in order) and keeps a log of the calls it
    received.  The cipher is a toy: the stream transforms add the IV to
    every byte, the block transforms add the IV plus one and refuse
    lengths that are no multiple of 16; IV 13 makes the stream decoder
    report an integrity mismatch.  [SHA1] is replaced by a padding of its
    input to 20 bytes. *)

Module Mock.

Inductive event : Type :=
| EvOpen (flags : Z)
| EvRead (off len : Z)
| EvWrite (off len : Z) (bytes : list byte)
| EvTruncate (size : Z)
| EvSetIV (iv : Z)
| EvRandomize (len : Z)
| EvTruncateBase (size : Z) (withBase : bool)
| EvBlockRead (off len : Z).

Record world : Type := mkWorld {
  rawSize : Z;
  writable : bool;
  attr : Z * stat;
  opens : list Z;
  reads : list (Z * list byte);
  writes : list Z;
  truncates : list Z;
  setIVs : list bool;
  randoms : list (bool * list byte);
  truncateBases : list Z;
  blockReads : list (Z * list byte);
  log : list event
}.

Definition pop {A : Type} (dflt : A) (l : list A) : A * list A :=
  match l with
  | [] => (dflt, [])
  | x :: t => (x, t)
  end.

Definition logged (e : event) (w : world) : list event := log w ++ [e].

Definition m_open (flags : Z) (w : world) : Z * world :=
  let (r, rest) := pop 0 (opens w) in
  (r, mkWorld (rawSize w) (writable w) (attr w) rest (reads w) (writes w)
        (truncates w) (setIVs w) (randoms w) (truncateBases w) (blockReads w)
        (logged (EvOpen flags) w)).

Definition m_read (req : IORequest) (w : world) : (Z * list byte) * world :=
  let (r, rest) := pop (0, data req) (reads w) in
  (r, mkWorld (rawSize w) (writable w) (attr w) (opens w) rest (writes w)
        (truncates w) (setIVs w) (randoms w) (truncateBases w) (blockReads w)
        (logged (EvRead (offset req) (dataLen req)) w)).

Definition m_write (req : IORequest) (w : world) : Z * world :=
  let (r, rest) := pop (dataLen req) (writes w) in
  (r, mkWorld (rawSize w) (writable w) (attr w) (opens w) (reads w) rest
        (truncates w) (setIVs w) (randoms w) (truncateBases w) (blockReads w)
        (logged (EvWrite (offset req) (dataLen req) (data req)) w)).

Definition m_truncate (size : Z) (w : world) : Z * world :=
  let (r, rest) := pop 0 (truncates w) in
  (r, mkWorld (rawSize w) (writable w) (attr w) (opens w) (reads w) (writes w)
        rest (setIVs w) (randoms w) (truncateBases w) (blockReads w)
        (logged (EvTruncate size) w)).

Definition m_setIV (iv : Z) (w : world) : bool * world :=
  let (r, rest) := pop true (setIVs w) in
  (r, mkWorld (rawSize w) (writable w) (attr w) (opens w) (reads w) (writes w)
        (truncates w) rest (randoms w) (truncateBases w) (blockReads w)
        (logged (EvSetIV iv) w)).

Definition m_randomize (len : Z) (w : world) : (bool * list byte) * world :=
  let (r, rest) := pop (false, []) (randoms w) in
  (r, mkWorld (rawSize w) (writable w) (attr w) (opens w) (reads w) (writes w)
        (truncates w) (setIVs w) rest (truncateBases w) (blockReads w)
        (logged (EvRandomize len) w)).

Definition m_truncateBase (size : Z) (withBase : bool) (w : world) : Z * world :=
  let (r, rest) := pop 0 (truncateBases w) in
  (r, mkWorld (rawSize w) (writable w) (attr w) (opens w) (reads w) (writes w)
        (truncates w) (setIVs w) (randoms w) rest (blockReads w)
        (logged (EvTruncateBase size withBase) w)).

Definition m_blockRead (req : IORequest) (w : world) : (Z * list byte) * world :=
  let (r, rest) := pop (0, data req) (blockReads w) in
  (r, mkWorld (rawSize w) (writable w) (attr w) (opens w) (reads w) (writes w)
        (truncates w) (setIVs w) (randoms w) (truncateBases w) rest
        (logged (EvBlockRead (offset req) (dataLen req)) w)).

Definition shift_bytes (k : Z) (buf : list byte) : list byte :=
  map (fun b => byte_of_Z (byte_to_Z b + k)) buf.

Definition whole_blocks (buf : list byte) : bool :=
  Z.of_nat (length buf) mod 16 =? 0.

#[global] Instance fileIO : FileIO world := {
  base_open := m_open;
  base_getAttr := attr;
  base_getSize := rawSize;
  base_read := m_read;
  base_write := m_write;
  base_truncate := m_truncate;
  base_isWritable := writable;
  base_setIV := m_setIV
}.

#[global] Instance cipher : Cipher world := {
  cipherBlockSize := 16;
  streamEncode := fun buf iv => (true, shift_bytes iv buf);
  streamDecode := fun buf iv => (negb (iv =? 13), shift_bytes (- iv) buf);
  blockEncode := fun buf iv => (whole_blocks buf, shift_bytes (iv + 1) buf);
  blockDecode := fun buf iv => (whole_blocks buf, shift_bytes (- (iv + 1)) buf);
  randomize := m_randomize;
  SHA1 := fun buf => firstn 20 (buf ++ repeat x00 20)
}.

#[global] Instance blockFileIO : BlockFileIO world := {
  truncateBase := fun size withBase => on_base (m_truncateBase size withBase);
  BlockFileIO_read := fun req => on_base (m_blockRead req)
}.

(** A regular file of the given size, and a filter over it. *)
Definition regular (size : Z) (canWrite : bool) : world :=
  mkWorld size canWrite (0, mkStat S_IFREG size 42) [] [] [] [] [] [] [] [] [].

Definition filter (w : world) (header padding reverse holes : bool)
    (bs extIV fIV : Z) : CipherFileIO world :=
  mkCipherFileIO w header padding reverse bs holes extIV fIV 0.

End Mock.

(** * Vocabulary of the properties

    The size formulas and the big-endian file IV in the words of the
    specification, and the notions the statements below are phrased
    with. *)

(** The size formulas in the words of the specification, on unbounded
    integers: [E] is the block size the formula is given, [c] the native
    block size of the cipher. *)
Definition spec_plaintextToCiphertextSize (E c size : Z) : Z :=
  let size := size + (size - 1) / (E - 1) in
  size + c.

Definition spec_ciphertextToPlaintextSize (E c size : Z) : Z :=
  let size := size - c in
  size - size / (E + 1).

(** The translation of a raw size as the specification words it: the
    header first and then the padding shrinkage without reverse, the
    padding growth first and then the header in reverse. *)
Definition spec_translate_size (reverse header padding : bool) (E c raw : Z) : Z :=
  if reverse then
    if raw >? 0 then
      let grown := if padding then spec_plaintextToCiphertextSize E c raw else raw in
      if header then grown + HEADER_SIZE else grown
    else raw
  else
    let payload := if header && (raw >? 0) then raw - HEADER_SIZE else raw in
    if padding && (payload >? 0) then spec_ciphertextToPlaintextSize E c payload
    else payload.

(** The raw sizes the assertions of [getSize] and [getAttr] reject: a
    non-empty file shorter than its header, or a non-empty payload shorter
    than one cipher block. *)
Definition below_minimum (reverse header padding : bool) (c raw : Z) : bool :=
  let payload := if header && (raw >? 0) then raw - HEADER_SIZE else raw in
  negb reverse
  && ((header && (raw >? 0) && (raw <? HEADER_SIZE))
      || (padding && (payload >? 0) && (payload <? c))).

Definition with_reverse (r : bool) (cfg : FSConfig) : FSConfig :=
  mkFSConfig (cfg_blockSize cfg) (cipherIface_current cfg) (cipherIface_revision cfg)
    r (cfg_uniqueIV cfg) (cfg_allowHoles cfg).

(** The file IV in the words of the specification: the bytes read as one
    big-endian number. *)
Definition spec_be64 (bytes : list byte) : Z :=
  fold_left (fun acc b => 256 * acc + byte_to_Z b) bytes 0.

(** The header bytes the loop of [writeHeader] leaves in [buf] for the
    file IV [v]. *)
Definition serialized_fileIV (v : Z) : list byte :=
  fst (fold_left writeHeader_round (seq 0 8) (repeat x00 8, v)).

(** Bytes read as one little-endian number. *)
Definition spec_le64 (bytes : list byte) : Z :=
  fold_right (fun b acc => byte_to_Z b + 256 * acc) 0 bytes.

(** A cipher whose transforms all refuse, beside the toy cipher of
    [Mock]: for the paths on which the cipher fails. *)
Definition refusing_cipher : Cipher Mock.world := {|
  cipherBlockSize := 16;
  streamEncode := fun buf _ => (false, buf);
  streamDecode := fun buf _ => (false, buf);
  blockEncode := fun buf _ => (false, buf);
  blockDecode := fun buf _ => (false, buf);
  randomize := Mock.m_randomize;
  SHA1 := fun buf => firstn 20 (buf ++ repeat x00 20)
|}.

Section Vocabulary.
Context {W : Type} {F : FileIO W} {C : Cipher W}.

(** The adjustment of a raw size that [getSize] and [getAttr] both spell
    out, as one function of the raw size. *)
Definition adjusted_size (t1 t2 : string) (s : CipherFileIO W) (size : Z) : M W Z :=
  if negb (reverseEncryption s) then
    size1 <- (if haveHeader s && (size >? 0) then
                rAssert (size >=? HEADER_SIZE) t1 ;;;
                ret (s64 (size - HEADER_SIZE))
              else ret size) ;;
    if haveCBCPadding s && (size1 >? 0) then
      rAssert (size1 >=? (@cipherBlockSize W C)) t2 ;;;
      let size2 := s64 (size1 - (@cipherBlockSize W C)) in
      ret (s64 (size2 - Z.quot size2 (u32 (blockSize s + 1))))
    else ret size1
  else if size >? 0 then
    let size1 :=
      if haveCBCPadding s then
        let grown := s64 (size + Z.quot (s64 (size - 1)) (u32 (blockSize s - 1))) in
        s64 (grown + (@cipherBlockSize W C))
      else size in
    ret (if haveHeader s then s64 (size1 + HEADER_SIZE) else size1)
  else ret size.

(** What a call leaves alone: everything but the backing store and the
    file IV. *)
Definition same_settings (st st' : CipherFileIO W) : Prop :=
  haveHeader st' = haveHeader st
  /\ haveCBCPadding st' = haveCBCPadding st
  /\ reverseEncryption st' = reverseEncryption st
  /\ blockSize st' = blockSize st
  /\ allowHoles st' = allowHoles st
  /\ externalIV st' = externalIV st
  /\ lastFlags st' = lastFlags st.

(** [n] draws in a row that succeed and decode to zero lead from one state
    of the random source to another. *)
Fixpoint zero_draws (n : nat) (w w' : W) : Prop :=
  match n with
  | O => w' = w
  | S k =>
      exists buf w1,
        randomize 8 w = ((true, buf), w1)
        /\ decodeIV buf = 0
        /\ zero_draws k w1 w'
  end.

End Vocabulary.

(** * Properties *)

(** ** Machine integers in range *)

Lemma u64_id z : 0 <= z < 2 ^ 64 -> u64 z = z.
Proof. intros H. unfold u64. apply Z.mod_small. exact H. Qed.

Lemma s64_id z : - 2 ^ 63 <= z < 2 ^ 63 -> s64 z = z.
Proof. intros H. unfold s64. rewrite Z.mod_small; lia. Qed.

Lemma u32_id z : 0 <= z < 2 ^ 32 -> u32 z = z.
Proof. intros H. unfold u32. apply Z.mod_small. exact H. Qed.

Lemma s32_id z : - 2 ^ 31 <= z < 2 ^ 31 -> s32 z = z.
Proof. intros H. unfold s32. rewrite Z.mod_small; lia. Qed.

Lemma u64_range z : 0 <= u64 z < 2 ^ 64.
Proof. unfold u64. apply Z.mod_pos_bound. lia. Qed.

(** ** Stepping through the monad *)

(** Closed comparisons of integers, by computation. *)
Ltac by_run := vm_compute; repeat split; first [reflexivity | discriminate].

(** Closed equations between runs of the model, by computation. *)
Ltac by_eval := vm_compute; reflexivity.

Ltac run_monad :=
  unfold bind, ret, get, modify, on_base, rAssert in *; cbn [fst snd] in *.

Lemma quot_is_div a b : 0 <= a -> 0 < b -> Z.quot a b = a / b.
Proof. intros Ha Hb. apply Z.quot_div_nonneg; assumption. Qed.

Lemma set_st_size_same sb : set_st_size (st_size sb) sb = sb.
Proof. destruct sb; reflexivity. Qed.

(** ** Writes on a reverse mount with per-file IVs *)

Section WriteDenied.
Context {W : Type} {F : FileIO W} {C : Cipher W}.

(** C10.  On an instance in reverse mode with per-file IV headers,
    [writeOneBlock] returns [-EPERM]; the instance, the backing store and
    the random source are exactly as before and the buffer of the request
    is untouched, for every implementation of the backing file and of the
    cipher: nothing was written and nothing was transformed. *)
Theorem writeOneBlock_reverse_header_denied :
  forall (fuel : nat) (req : IORequest) (st : CipherFileIO W),
    haveHeader st = true ->
    reverseEncryption st = true ->
    writeOneBlock fuel req st = (Ret (- EPERM, data req), st).
Proof.
  intros fuel req st Hh Hr.
  unfold writeOneBlock. run_monad.
  rewrite Hh, Hr. reflexivity.
Qed.

End WriteDenied.

(** The same on the scripted backing file, whose call log stays empty. *)
Lemma writeOneBlock_reverse_header_denied_run :
  let st := Mock.filter (Mock.regular 100 true) true false true false 1024 7 5 in
  let req := mkIORequest 0 4 [x01; x02; x03; x04] in
  writeOneBlock 1 req st = (Ret (- EPERM, [x01; x02; x03; x04]), st)
  /\ Mock.log (base (snd (writeOneBlock 1 req st))) = [].
Proof.
  intros st req.
  assert (E : writeOneBlock 1 req st = (Ret (- EPERM, data req), st)).
  { apply (writeOneBlock_reverse_header_denied 1 req st); reflexivity. }
  split.
  - exact E.
  - rewrite E. reflexivity.
Defined.

(** ** The file IV across a header rewrite *)

Section HeaderRewrite.
Context {W : Type} {F : FileIO W} {C : Cipher W}.

Lemma shiftr_8_rounds (v : Z) (buf : list byte) :
  snd (fold_left writeHeader_round (seq 0 8) (buf, v)) = Z.shiftr v 64.
Proof.
  cbn [seq fold_left writeHeader_round fst snd].
  repeat rewrite Z.shiftr_shiftr by lia.
  reflexivity.
Qed.

(** [writeHeader] shifts the member [fileIV] itself while it serialises
    it: whatever it returns, the member is zero afterwards. *)
Lemma writeHeader_clears_fileIV (st : CipherFileIO W) :
  0 <= fileIV st < 2 ^ 64 ->
  fileIV (snd (writeHeader st)) = 0.
Proof.
  intros Hr. unfold writeHeader. run_monad.
  rewrite shiftr_8_rounds.
  assert (Hz : Z.shiftr (fileIV st) 64 = 0).
  { rewrite Z.shiftr_div_pow2 by lia. apply Z.div_small. exact Hr. }
  destruct (in_place streamEncode _ 8 (externalIV st)) as [ok out]; cbn [fst snd].
  destruct ok; cbn [negb].
  - cbn [set_fileIV base].
    destruct (base_write _ _) as [res w]. cbn. exact Hz.
  - cbn. exact Hz.
Qed.

End HeaderRewrite.

(** C1 (the code departs from it).  An instance with the established file
    IV [0x0102030405060708] and external IV 7 is told the new external IV
    9.  [setIV] reopens the file, rewrites the header and succeeds, and the
    member [fileIV] is zero afterwards. *)
Theorem setIV_success_leaves_fileIV_zero :
  let st := Mock.filter (Mock.regular 100 true) true false false false
              1024 7 72623859790382856 in
  fileIV st <> 0
  /\ exists st', setIV 0 9 st = (Ret true, st')
                 /\ externalIV st' = 9
                 /\ fileIV st' = 0.
Proof.
  split.
  - discriminate.
  - eexists. split; [vm_compute; reflexivity | split; reflexivity].
Qed.

(** ** Size translation *)

Lemma checkCBCPadding_with_reverse r cfg :
  0 < checkCBCPadding cfg ->
  checkCBCPadding (with_reverse r cfg) = if r then 2 else 1.
Proof.
  unfold checkCBCPadding, with_reverse. cbn.
  destruct (((cipherIface_current cfg =? 3) && (cipherIface_revision cfg >=? 1))
            || (cipherIface_current cfg >? 3)).
  - reflexivity.
  - lia.
Qed.

Lemma grown_quotient (B s : Z) :
  2 <= B -> 1 <= s ->
  (s + (s - 1) / (B - 1)) / B = (s - 1) / (B - 1).
Proof.
  intros HB Hs.
  pose proof (Z.div_mod (s - 1) (B - 1) ltac:(lia)) as Hdm.
  pose proof (Z.mod_pos_bound (s - 1) (B - 1) ltac:(lia)) as Hm.
  set (q := (s - 1) / (B - 1)) in *.
  set (r := (s - 1) mod (B - 1)) in *.
  symmetry. apply Z.div_unique with (r := r + 1); nia.
Qed.

Lemma quotient_bounds (B s : Z) :
  2 <= B -> 1 <= s -> 0 <= (s - 1) / (B - 1) <= s - 1.
Proof.
  intros HB Hs. split.
  - apply Z.div_pos; lia.
  - apply Z.div_le_upper_bound; nia.
Qed.

Section SizeTranslation.
Context {W : Type} {F : FileIO W} {C : Cipher W}.

Abbreviation cbs := (@cipherBlockSize W C).

(** The growth of [getSize] and [getAttr] with its reductions to [off_t],
    on sizes that fit. *)
Lemma grow_wrapped (bs c raw : Z) :
  2 <= bs < 2 ^ 32 -> 0 < c < 2 ^ 31 -> 1 <= raw < 2 ^ 61 ->
  s64 (s64 (raw + Z.quot (s64 (raw - 1)) (u32 (bs - 1))) + c)
  = spec_plaintextToCiphertextSize bs c raw.
Proof.
  intros Hbs Hc Hraw. unfold spec_plaintextToCiphertextSize.
  pose proof (quotient_bounds (B := bs) (s := raw) ltac:(lia) ltac:(lia)) as Hq.
  rewrite (s64_id (z := raw - 1)) by lia.
  rewrite u32_id by lia.
  rewrite quot_is_div by lia.
  rewrite (s64_id (z := raw + (raw - 1) / (bs - 1))) by lia.
  rewrite s64_id by lia.
  reflexivity.
Qed.

(** The shrinkage, likewise. *)
Lemma shrink_wrapped (bs c p : Z) :
  1 <= bs < 2 ^ 32 - 1 -> 0 < c < 2 ^ 31 -> c <= p < 2 ^ 63 ->
  s64 (s64 (p - c) - Z.quot (s64 (p - c)) (u32 (bs + 1)))
  = spec_ciphertextToPlaintextSize bs c p.
Proof.
  intros Hbs Hc Hp. unfold spec_ciphertextToPlaintextSize.
  assert (Hq : 0 <= (p - c) / (bs + 1) <= p - c).
  { split; [apply Z.div_pos; lia | apply Z.div_le_upper_bound; nia]. }
  rewrite (s64_id (z := p - c)) by lia.
  rewrite u32_id by lia.
  rewrite quot_is_div by lia.
  rewrite s64_id by lia.
  reflexivity.
Qed.

Lemma getSize_adjusted (st : CipherFileIO W) :
  getSize st =
    adjusted_size "size >= HEADER_SIZE" "size >= fsConfig->cipher->cipherBlockSize()"
      st (base_getSize (base st)) st.
Proof. reflexivity. Qed.

(** The adjustment against the wording of the specification, for every
    filter state and raw size. *)
Lemma adjusted_size_spec (t1 t2 : string) (st : CipherFileIO W) (raw : Z) :
  1 <= blockSize st < 2 ^ 31 ->
  (reverseEncryption st = true -> 2 <= blockSize st) ->
  0 < cbs < 2 ^ 31 ->
  0 <= raw < 2 ^ 61 ->
  (below_minimum (reverseEncryption st) (haveHeader st) (haveCBCPadding st) cbs raw = false ->
   adjusted_size t1 t2 st raw st =
     (Ret (spec_translate_size (reverseEncryption st) (haveHeader st) (haveCBCPadding st)
             (blockSize st) cbs raw), st))
  /\ (below_minimum (reverseEncryption st) (haveHeader st) (haveCBCPadding st) cbs raw = true ->
      exists text, adjusted_size t1 t2 st raw st = (AssertFailed text, st)).
Proof.
  intros Hbs Hbs2 Hc Hraw.
  unfold adjusted_size, below_minimum, spec_translate_size, HEADER_SIZE.
  run_monad.
  destruct (reverseEncryption st); cbn [negb andb].
  - (* reverse: growth, then the header *)
    specialize (Hbs2 eq_refl).
    split; [intros _ | discriminate].
    destruct (Z.gtb_spec raw 0) as [Hpos | Hnpos]; [| reflexivity].
    destruct (haveCBCPadding st).
    + rewrite grow_wrapped by lia.
      destruct (haveHeader st); [| reflexivity].
      unfold spec_plaintextToCiphertextSize.
      pose proof (quotient_bounds (B := blockSize st) (s := raw) ltac:(lia) ltac:(lia)).
      rewrite s64_id by lia. reflexivity.
    + destruct (haveHeader st); [| reflexivity].
      rewrite s64_id by lia. reflexivity.
  - (* not reverse: the header, then the shrinkage *)
    destruct (haveHeader st && (raw >? 0)) eqn:Hh; cbn [andb orb].
    + apply andb_prop in Hh. destruct Hh as [_ Hpos].
      apply Z.gtb_lt in Hpos.
      destruct (Z.ltb_spec raw 8) as [Hlt | Hge]; cbn [orb].
      * split; [discriminate | intros _].
        destruct (Z.geb_spec raw 8); [lia |]. eexists. reflexivity.
      * destruct (Z.geb_spec raw 8); [| lia].
        rewrite (s64_id (z := raw - 8)) by lia.
        destruct (haveCBCPadding st); cbn [andb]; [| split; [reflexivity | discriminate]].
        destruct (Z.gtb_spec (raw - 8) 0) as [Hp | Hnp]; cbn [andb];
          [| split; [reflexivity | discriminate]].
        destruct (Z.ltb_spec (raw - 8) cbs) as [Hlt' | Hge'].
        -- split; [discriminate | intros _].
           destruct (Z.geb_spec (raw - 8) cbs); [lia |]. eexists. reflexivity.
        -- split; [intros _ | discriminate].
           destruct (Z.geb_spec (raw - 8) cbs); [| lia].
           rewrite shrink_wrapped by lia. reflexivity.
    + destruct (haveCBCPadding st); cbn [andb]; [| split; [reflexivity | discriminate]].
      destruct (Z.gtb_spec raw 0) as [Hp | Hnp]; cbn [andb];
        [| split; [reflexivity | discriminate]].
      destruct (Z.ltb_spec raw cbs) as [Hlt' | Hge'].
      * split; [discriminate | intros _].
        destruct (Z.geb_spec raw cbs); [lia |]. eexists. reflexivity.
      * split; [intros _ | discriminate].
        destruct (Z.geb_spec raw cbs); [| lia].
        rewrite shrink_wrapped by lia. reflexivity.
Qed.

Lemma getAttr_adjusted (st : CipherFileIO W) :
  getAttr st =
    (if (fst (base_getAttr (base st)) =? 0)
        && S_ISREG (st_mode (snd (base_getAttr (base st))))
     then
       v <- adjusted_size "stbuf->st_size >= HEADER_SIZE"
              "stbuf->st_size >= fsConfig->cipher->cipherBlockSize()"
              st (st_size (snd (base_getAttr (base st)))) ;;
       ret (fst (base_getAttr (base st)),
            set_st_size v (snd (base_getAttr (base st))))
     else ret (base_getAttr (base st))) st.
Proof.
  unfold getAttr, adjusted_size. run_monad.
  destruct (base_getAttr (base st)) as [res sb]. cbn [fst snd].
  destruct ((res =? 0) && S_ISREG (st_mode sb)); [| reflexivity].
  destruct (reverseEncryption st); cbn [negb].
  - destruct (st_size sb >? 0); [reflexivity |].
    rewrite set_st_size_same. reflexivity.
  - destruct (haveHeader st && (st_size sb >? 0)).
    + destruct (st_size sb >=? HEADER_SIZE); [| reflexivity].
      destruct (haveCBCPadding st && (s64 (st_size sb - HEADER_SIZE) >? 0)); [| reflexivity].
      destruct (s64 (st_size sb - HEADER_SIZE) >=? cbs); reflexivity.
    + destruct (haveCBCPadding st && (st_size sb >? 0)); [| reflexivity].
      destruct (st_size sb >=? cbs); reflexivity.
Qed.

(** C7.  [getSize] and [getAttr] translate the raw size of the backing
    store as the specification words it ([spec_translate_size]): without
    reverse, 8 is subtracted first from a non-empty file with a header and
    the padding shrinkage is then applied to what remains if that is
    positive; in reverse, a non-empty size is grown by the padding first
    and 8 is added afterwards for the header.  [getAttr] does so only for
    a successful [stat] of a regular file and hands every other result
    through as it is.  Raw sizes below the minimum of the enabled features
    end in a failed assertion instead. *)
Theorem size_translation (st : CipherFileIO W) :
  1 <= blockSize st < 2 ^ 31 ->
  (reverseEncryption st = true -> 2 <= blockSize st) ->
  0 < cbs < 2 ^ 31 ->
  let translate := spec_translate_size (reverseEncryption st) (haveHeader st)
                     (haveCBCPadding st) (blockSize st) cbs in
  let rejected := below_minimum (reverseEncryption st) (haveHeader st)
                    (haveCBCPadding st) cbs in
  (0 <= base_getSize (base st) < 2 ^ 61 ->
   rejected (base_getSize (base st)) = false ->
   getSize st = (Ret (translate (base_getSize (base st))), st))
  /\ (0 <= base_getSize (base st) < 2 ^ 61 ->
      rejected (base_getSize (base st)) = true ->
      exists text, getSize st = (AssertFailed text, st))
  /\ (forall sb,
        base_getAttr (base st) = (0, sb) ->
        S_ISREG (st_mode sb) = true ->
        0 <= st_size sb < 2 ^ 61 ->
        rejected (st_size sb) = false ->
        getAttr st = (Ret (0, set_st_size (translate (st_size sb)) sb), st))
  /\ (forall sb,
        base_getAttr (base st) = (0, sb) ->
        S_ISREG (st_mode sb) = true ->
        0 <= st_size sb < 2 ^ 61 ->
        rejected (st_size sb) = true ->
        exists text, getAttr st = (AssertFailed text, st))
  /\ (forall res sb,
        base_getAttr (base st) = (res, sb) ->
        res <> 0 \/ S_ISREG (st_mode sb) = false ->
        getAttr st = (Ret (res, sb), st)).
Proof.
  intros Hbs Hbs2 Hc translate rejected.
  split; [| split; [| split; [| split]]].
  - intros Hraw Hmin. rewrite getSize_adjusted.
    apply (adjusted_size_spec _ _ st Hbs Hbs2 Hc Hraw). exact Hmin.
  - intros Hraw Hmin. rewrite getSize_adjusted.
    apply (adjusted_size_spec _ _ st Hbs Hbs2 Hc Hraw). exact Hmin.
  - intros sb Hattr Hreg Hraw Hmin. rewrite getAttr_adjusted, Hattr. cbn [fst snd].
    rewrite Hreg. cbn [Z.eqb andb]. unfold bind.
    rewrite (proj1 (adjusted_size_spec _ _ st Hbs Hbs2 Hc Hraw) Hmin). reflexivity.
  - intros sb Hattr Hreg Hraw Hmin. rewrite getAttr_adjusted, Hattr. cbn [fst snd].
    rewrite Hreg. cbn [Z.eqb andb]. unfold bind.
    destruct (proj2 (adjusted_size_spec "stbuf->st_size >= HEADER_SIZE"
                       "stbuf->st_size >= fsConfig->cipher->cipherBlockSize()"
                       st Hbs Hbs2 Hc Hraw) Hmin) as [text Ht].
    rewrite Ht. exists text. reflexivity.
  - intros res sb Hattr Hother. rewrite getAttr_adjusted, Hattr. cbn [fst snd].
    destruct Hother as [Hres | Hreg].
    + destruct (Z.eqb_spec res 0); [contradiction | reflexivity].
    + rewrite Hreg, andb_false_r. reflexivity.
Qed.

(** The two translations of the specification on one configured block
    size [B]: growth with [B], shrinkage with [B - 1]. *)
Lemma spec_translate_roundtrip (hdr : bool) (B c s : Z) :
  2 <= B -> 0 < c -> 0 <= s ->
  let n := spec_translate_size true hdr true B c s in
  spec_translate_size false hdr true (B - 1) c n = s
  /\ below_minimum false hdr true c n = false
  /\ 0 <= n <= 2 * s + c + 8.
Proof.
  intros HB Hc Hs n. subst n.
  unfold spec_translate_size, below_minimum, spec_plaintextToCiphertextSize,
    spec_ciphertextToPlaintextSize, HEADER_SIZE.
  cbn [negb andb].
  destruct (Z.gtb_spec s 0) as [Hpos | Hzero].
  - pose proof (quotient_bounds (B := B) (s := s) ltac:(lia) ltac:(lia)) as Hq.
    pose proof (grown_quotient (B := B) (s := s) ltac:(lia) ltac:(lia)) as Hg.
    set (q := (s - 1) / (B - 1)) in *.
    destruct hdr; cbn [andb].
    + destruct (Z.gtb_spec (s + q + c + 8) 0); [| lia]. cbn [andb].
      destruct (Z.gtb_spec (s + q + c + 8 - 8) 0); [| lia].
      destruct (Z.ltb_spec (s + q + c + 8) 8); [lia |].
      destruct (Z.ltb_spec (s + q + c + 8 - 8) c); [lia |].
      cbn [orb].
      replace (s + q + c + 8 - 8 - c) with (s + q) by lia.
      replace (B - 1 + 1) with B by lia. rewrite Hg. lia.
    + destruct (Z.gtb_spec (s + q + c) 0); [| lia].
      destruct (Z.ltb_spec (s + q + c) c); [lia |].
      cbn [orb].
      replace (s + q + c - c) with (s + q) by lia.
      replace (B - 1 + 1) with B by lia. rewrite Hg. lia.
  - assert (s = 0) by lia. subst s.
    destruct hdr; cbn; lia.
Qed.

(** C6, as amended.  For one configuration with padding enabled, mounted
    in reverse (where [blockSize()] is the configured block size [B]) and
    mounted normally (where [blockSize()] is [B - 1]), the growth of the
    reverse branch of [getSize] and the shrinkage of its normal branch are
    inverse to each other: every plaintext size [s] grows to a size [n]
    that shrinks back to [s], and growing the shrunk [n] gives [n] again.
    The header, when enabled, is added and removed along the way. *)
Theorem getSize_inverse_for_one_configuration (cfg : FSConfig) (s : Z) :
  0 < checkCBCPadding cfg ->
  2 <= cfg_blockSize cfg < 2 ^ 31 ->
  0 < cbs < 2 ^ 31 ->
  0 <= s < 2 ^ 59 ->
  let reversed (w : W) := new_CipherFileIO w (with_reverse true cfg) in
  let normal (w : W) := new_CipherFileIO w (with_reverse false cfg) in
  exists n,
    (forall wp, base_getSize wp = s -> getSize (reversed wp) = (Ret n, reversed wp))
    /\ (forall wc, base_getSize wc = n -> getSize (normal wc) = (Ret s, normal wc))
    /\ (forall wc wp m,
          base_getSize wc = n ->
          getSize (normal wc) = (Ret m, normal wc) ->
          base_getSize wp = m ->
          getSize (reversed wp) = (Ret n, reversed wp)).
Proof.
  intros Hpad HB Hc Hs reversed normal.
  set (B := cfg_blockSize cfg) in *.
  set (hdr := cfg_uniqueIV cfg).
  assert (Er : forall w, reversed w =
             mkCipherFileIO w hdr true true B (cfg_allowHoles cfg) 0 0 0).
  { intros w. unfold reversed, new_CipherFileIO.
    rewrite (checkCBCPadding_with_reverse true cfg Hpad).
    cbn [with_reverse cfg_blockSize cfg_uniqueIV cfg_reverseEncryption cfg_allowHoles].
    change (Z.rem 2 2) with 0. rewrite Z.sub_0_r. fold B.
    rewrite u32_id by lia. reflexivity. }
  assert (En : forall w, normal w =
             mkCipherFileIO w hdr true false (B - 1) (cfg_allowHoles cfg) 0 0 0).
  { intros w. unfold normal, new_CipherFileIO.
    rewrite (checkCBCPadding_with_reverse false cfg Hpad).
    cbn [with_reverse cfg_blockSize cfg_uniqueIV cfg_reverseEncryption cfg_allowHoles].
    change (Z.rem 1 2) with 1. fold B.
    rewrite u32_id by lia. reflexivity. }
  clearbody reversed normal.
  destruct (spec_translate_roundtrip hdr (B := B) (c := cbs) (s := s)
              ltac:(lia) ltac:(lia) ltac:(lia)) as (Hback & Hmin & Hn).
  set (n := spec_translate_size true hdr true B cbs s) in *.
  assert (Hrev : forall wp, base_getSize wp = s ->
                   getSize (reversed wp) = (Ret n, reversed wp)).
  { intros wp Hwp. rewrite Er, getSize_adjusted. cbn [base]. rewrite Hwp.
    apply (adjusted_size_spec _ _
             (mkCipherFileIO wp hdr true true B (cfg_allowHoles cfg) 0 0 0) (raw := s));
      cbn [blockSize reverseEncryption]; try lia; reflexivity. }
  assert (Hnrm : forall wc, base_getSize wc = n ->
                   getSize (normal wc) = (Ret s, normal wc)).
  { intros wc Hwc. rewrite En, getSize_adjusted. cbn [base]. rewrite Hwc.
    destruct (adjusted_size_spec "size >= HEADER_SIZE"
                "size >= fsConfig->cipher->cipherBlockSize()"
                (mkCipherFileIO wc hdr true false (B - 1) (cfg_allowHoles cfg) 0 0 0)
                (raw := n)) as [A _];
      cbn [blockSize reverseEncryption haveHeader haveCBCPadding];
      try lia; try discriminate.
    cbn [blockSize reverseEncryption haveHeader haveCBCPadding] in A.
    rewrite Hback in A. apply A. exact Hmin. }
  exists n. split; [exact Hrev | split; [exact Hnrm |]].
  intros wc wp m Hwc Hm Hwp.
  rewrite (Hnrm wc Hwc) in Hm. inversion Hm as [Hms].
  apply Hrev. rewrite Hms. exact Hwp.
Qed.

End SizeTranslation.

(** A header-bearing padded file of 2071 raw bytes on a normal mount with
    [blockSize() = 1023]: 2071 - 8 = 2063, then 2063 - 16 = 2047 and
    2047 - 2047 / 1024 = 2046.  A directory of size 4096 keeps its size. *)
Lemma size_translation_run :
  let st := Mock.filter (Mock.regular 2071 true) true true false false 1023 7 5 in
  let dir :=
    Mock.filter (Mock.mkWorld 4096 true (0, mkStat 16384 4096 7) [] [] [] [] [] [] [] [] [])
      true true false false 1023 7 5 in
  getSize st = (Ret 2046, st)
  /\ getAttr st = (Ret (0, mkStat S_IFREG 2046 42), st)
  /\ getAttr dir = (Ret (0, mkStat 16384 4096 7), dir).
Proof.
  intros st dir.
  pose proof (size_translation st ltac:(by_run) ltac:(discriminate) ltac:(by_run)) as T.
  cbv zeta in T. destruct T as (G & _ & A & _ & _).
  pose proof (size_translation dir ltac:(by_run) ltac:(discriminate) ltac:(by_run)) as T.
  cbv zeta in T. destruct T as (_ & _ & _ & _ & D).
  split; [| split].
  - apply G; [by_run | reflexivity].
  - apply (A (mkStat S_IFREG 2071 42)); [reflexivity | reflexivity | by_run | reflexivity].
  - apply (D 0 (mkStat 16384 4096 7)); [reflexivity | right; reflexivity].
Defined.

(** One configuration (block size 1024, padding and headers enabled): the
    plaintext size 2045 is presented as 2070 on the reverse mount, and a
    backing file of 2070 bytes is presented as 2045 on the normal mount. *)
Lemma getSize_inverse_run :
  let cfg := mkFSConfig 1024 3 1 false true false in
  let reversed := new_CipherFileIO (Mock.regular 2045 true) (with_reverse true cfg) in
  let normal := new_CipherFileIO (Mock.regular 2070 true) (with_reverse false cfg) in
  getSize reversed = (Ret 2070, reversed) /\ getSize normal = (Ret 2045, normal).
Proof.
  intros cfg reversed normal.
  pose proof (getSize_inverse_for_one_configuration (W := Mock.world) cfg (s := 2045)
                ltac:(reflexivity) ltac:(cbn; lia) ltac:(cbn; lia) ltac:(lia)) as T.
  cbv zeta in T. destruct T as (n & Hr & Hn & _).
  pose proof (Hr (Mock.regular 2045 true) eq_refl) as E.
  assert (En : n = 2070).
  { assert (E' : fst (getSize reversed) = Ret n) by (unfold reversed; rewrite E; reflexivity).
    vm_compute in E'. inversion E'. reflexivity. }
  subst n. split.
  - exact E.
  - apply Hn. reflexivity.
Defined.

(** C6, as stated, fails: with one and the same effective block size
    (1023, cipher blocks of 16) in both formulas, neither composition is
    the identity on the achievable sizes.  The plaintext size 2045 (what
    2062 shrinks to) grows to 2063, and 2063 shrinks to 2046; the
    ciphertext size 2063 (what 2045 grows to) shrinks to 2046, and 2046
    grows to 2064.  The two branches of [getSize] compute exactly these
    formulas when [blockSize()] is 1023 in both. *)
Lemma size_formulas_not_inverse_on_one_block_size :
  let grow := spec_plaintextToCiphertextSize 1023 16 in
  let shrink := spec_ciphertextToPlaintextSize 1023 16 in
  let reversed (size : Z) :=
    Mock.filter (Mock.regular size true) false true true false 1023 0 0 in
  let normal (size : Z) :=
    Mock.filter (Mock.regular size true) false true false false 1023 0 0 in
  (shrink 2062 = 2045 /\ shrink (grow 2045) = 2046)
  /\ (grow 2045 = 2063 /\ grow (shrink 2063) = 2064)
  /\ fst (getSize (reversed 2045)) = Ret (grow 2045)
  /\ fst (getSize (normal 2063)) = Ret (shrink 2063)
  /\ fst (getSize (normal 2063)) <> Ret 2045.
Proof.
  intros grow shrink reversed normal.
  repeat split; try by_eval.
  vm_compute. discriminate.
Qed.

(** ** Buffers and the big-endian file IV *)

Lemma byte_to_Z_range (b : byte) : 0 <= byte_to_Z b < 256.
Proof.
  unfold byte_to_Z. pose proof (Byte.to_N_bounded b). lia.
Qed.

Lemma take_take (n : Z) (buf : list byte) : take n (take n buf) = take n buf.
Proof. unfold take. rewrite firstn_firstn, Nat.min_id. reflexivity. Qed.

Lemma drop_take (n : Z) (buf : list byte) : drop n (take n buf) = [].
Proof.
  unfold drop, take. generalize (Z.to_nat n) as k. intros k. revert buf.
  induction k as [| k IH]; intros [| b buf]; cbn; auto.
Qed.

(** A transform in place on a buffer that holds exactly the bytes it is
    given is the transform itself. *)
Lemma in_place_take (f : list byte -> Z -> bool * list byte) (n iv : Z) (buf : list byte) :
  in_place f (take n buf) n iv = (fst (f (take n buf) iv), snd (f (take n buf) iv)).
Proof.
  unfold in_place. rewrite take_take, drop_take.
  destruct (f (take n buf) iv) as [ok out]. cbn. rewrite app_nil_r. reflexivity.
Qed.

Lemma lor_shift_byte (acc : Z) (b : byte) :
  0 <= acc < 2 ^ 56 ->
  Z.lor (u64 (Z.shiftl acc 8)) (byte_to_Z b) = 256 * acc + byte_to_Z b.
Proof.
  intros Hacc. pose proof (byte_to_Z_range b) as Hb.
  rewrite Z.shiftl_mul_pow2 by lia.
  rewrite u64_id by lia.
  assert (Hdisj : Z.land (acc * 2 ^ 8) (byte_to_Z b) = 0).
  { apply Z.bits_inj'. intros n Hn.
    rewrite Z.land_spec, Z.bits_0.
    destruct (Z.ltb_spec n 8) as [Hlow | Hhigh].
    - rewrite Z.mul_pow2_bits_low by lia. reflexivity.
    - rewrite (Z.bits_above_log2 (byte_to_Z b) n); [apply andb_false_r | lia |].
      destruct (Z.eq_dec (byte_to_Z b) 0) as [E | E]; [rewrite E; cbn; lia |].
      apply Z.log2_lt_pow2; [lia |].
      apply Z.lt_le_trans with (2 ^ 8); [lia | apply Z.pow_le_mono_r; lia]. }
  rewrite <- Z.lxor_lor by exact Hdisj.
  rewrite <- Z.add_nocarry_lxor by exact Hdisj.
  lia.
Qed.

(** The shift-and-or loop of the source reads eight bytes big-endian. *)
Lemma decodeIV_be64 (buf : list byte) :
  length buf = 8%nat -> decodeIV buf = spec_be64 buf.
Proof.
  intros Hlen.
  destruct buf as [| b0 [| b1 [| b2 [| b3 [| b4 [| b5 [| b6 [| b7 [| ? ?]]]]]]]]];
    try discriminate Hlen.
  unfold decodeIV, spec_be64.
  cbn [firstn fold_left].
  pose proof (byte_to_Z_range b0). pose proof (byte_to_Z_range b1).
  pose proof (byte_to_Z_range b2). pose proof (byte_to_Z_range b3).
  pose proof (byte_to_Z_range b4). pose proof (byte_to_Z_range b5).
  pose proof (byte_to_Z_range b6). pose proof (byte_to_Z_range b7).
  repeat match goal with
         | |- context [ Z.lor (u64 (Z.shiftl ?a 8)) (byte_to_Z ?b) ] =>
             rewrite (lor_shift_byte (acc := a) b) by lia
         end.
  reflexivity.
Qed.

(** ** Header manager *)

Section HeaderManager.
Context {W : Type} {F : FileIO W} {C : Cipher W}.

Lemma same_settings_refl (st : CipherFileIO W) : same_settings st st.
Proof. repeat split. Qed.

Lemma same_settings_trans (st1 st2 st3 : CipherFileIO W) :
  same_settings st1 st2 -> same_settings st2 st3 -> same_settings st1 st3.
Proof.
  unfold same_settings. intros H12 H23.
  destruct H12 as (a1 & a2 & a3 & a4 & a5 & a6 & a7).
  destruct H23 as (b1 & b2 & b3 & b4 & b5 & b6 & b7).
  repeat split; congruence.
Qed.

Lemma same_settings_base (w : W) (st : CipherFileIO W) :
  same_settings st (set_base w st).
Proof. repeat split. Qed.

Lemma same_settings_fileIV (v : Z) (st : CipherFileIO W) :
  same_settings st (set_fileIV v st).
Proof. repeat split. Qed.

Lemma randomIV_loop_settings (n : nat) :
  forall st, same_settings st (snd (randomIV_loop n st)).
Proof.
  induction n as [| n IH]; intros st.
  - apply same_settings_refl.
  - cbn [randomIV_loop]. run_monad.
    destruct (randomize 8 (base st)) as [[ok buf] w1]. cbn [fst snd].
    destruct ok; cbn [negb].
    + destruct (decodeIV buf =? 0).
      * eapply same_settings_trans; [| apply IH]. repeat split.
      * repeat split.
    + repeat split.
Qed.

(** The loop ends at the first draw that is not zero, if the fuel reaches
    that far. *)
Lemma randomIV_loop_draws (k : nat) :
  forall (w w' : W),
    zero_draws k w w' ->
    forall (n : nat) (st : CipherFileIO W) (rnd : list byte) (w2 : W),
      base st = w ->
      randomize 8 w' = ((true, rnd), w2) ->
      decodeIV rnd <> 0 ->
      (k < n)%nat ->
      randomIV_loop n st =
        (Ret (inr rnd), set_fileIV (decodeIV rnd) (set_base w2 st)).
Proof.
  induction k as [| k IH]; intros w w' Hzero n st rnd w2 Hbase Hlast Hnz Hfuel.
  - cbn [zero_draws] in Hzero. subst w'.
    destruct n as [| n]; [lia |].
    cbn [randomIV_loop]. run_monad. rewrite Hbase, Hlast. cbn [fst snd negb].
    destruct (Z.eqb_spec (decodeIV rnd) 0) as [E | _]; [contradiction | reflexivity].
  - cbn [zero_draws] in Hzero. destruct Hzero as (buf & w1 & Hdraw & Hnull & Hrest).
    destruct n as [| n]; [lia |].
    cbn [randomIV_loop]. run_monad. rewrite Hbase, Hdraw. cbn [fst snd negb].
    rewrite Hnull. cbn [Z.eqb].
    rewrite (IH w1 w' Hrest n (set_fileIV 0 (set_base w1 st)) rnd w2
               eq_refl Hlast Hnz ltac:(lia)).
    reflexivity.
Qed.

Lemma initHeader_settings (fuel : nat) (st : CipherFileIO W) :
  same_settings st (snd (initHeader fuel st)).
Proof.
  unfold initHeader. run_monad.
  destruct (base_getSize (base st) >=? HEADER_SIZE).
  - destruct (base_read _ (base st)) as [[n buf] w1]. cbn [fst snd].
    destruct (n <? 0); [repeat split |].
    destruct (in_place streamDecode (take 8 buf) 8 (externalIV st)) as [ok plain].
    cbn [fst snd]. destruct ok; cbn [negb]; [| repeat split].
    destruct (decodeIV plain =? 0); repeat split.
  - pose proof (randomIV_loop_settings fuel st) as Hloop.
    destruct (randomIV_loop fuel st) as [[[err | rnd] | text |] st1]; cbn [snd] in *;
      try exact Hloop.
    destruct (base_isWritable (base st1)); [| exact Hloop].
    destruct (in_place streamEncode (take 8 rnd) 8 (externalIV st1)) as [ok enc].
    cbn [fst snd]. destruct ok; cbn [negb]; [| exact Hloop].
    destruct (base_write _ (base st1)) as [wr w3]. cbn [fst snd].
    eapply same_settings_trans; [exact Hloop |].
    destruct (wr <? 0); repeat split.
Qed.


End HeaderManager.

Section InitHeader.
Context {W : Type} {F : FileIO W} {C : Cipher W}.

(** C9, as amended.  [initHeader] on a backing file of at least 8 raw
    bytes reads 8 bytes at offset 0, stream-decrypts them under
    [externalIV] and takes them as a big-endian 64-bit file IV; it returns
    [-EBADMSG] when the decryption fails, and when the decoded value is 0
    it fails its assertion [fileIV != 0] (it does not return [-EBADMSG]).
    On a shorter backing file it draws 8 random bytes again and again
    until they decode to a non-zero value, and writes them, encrypted
    under [externalIV], at offset 0 if the backing file is writable; if it
    is not, nothing is written.  Every successful case leaves [fileIV]
    set to the non-zero value. *)
Theorem initHeader_behaviour (fuel : nat) (st : CipherFileIO W) :
  (HEADER_SIZE <= base_getSize (base st) ->
   forall n buf w1,
     base_read (mkIORequest 0 8 (repeat x00 8)) (base st) = ((n, buf), w1) ->
     0 <= n ->
     forall ok plain,
       streamDecode (take 8 buf) (externalIV st) = (ok, plain) ->
       (ok = false ->
        initHeader fuel st = (Ret (- EBADMSG), set_base w1 st))
       /\ (ok = true -> length plain = 8%nat -> spec_be64 plain <> 0 ->
           initHeader fuel st =
             (Ret 0, set_fileIV (spec_be64 plain) (set_base w1 st)))
       /\ (ok = true -> length plain = 8%nat -> spec_be64 plain = 0 ->
           initHeader fuel st =
             (AssertFailed "fileIV != 0", set_fileIV 0 (set_base w1 st))))
  /\ (base_getSize (base st) < HEADER_SIZE ->
      forall k w' rnd w2,
        zero_draws k (base st) w' ->
        randomize 8 w' = ((true, rnd), w2) ->
        decodeIV rnd <> 0 ->
        (k < fuel)%nat ->
        let st2 := set_fileIV (decodeIV rnd) (set_base w2 st) in
        fileIV st2 <> 0
        /\ (base_isWritable w2 = false -> initHeader fuel st = (Ret 0, st2))
        /\ (base_isWritable w2 = true ->
            forall enc wr w3,
              streamEncode (take 8 rnd) (externalIV st) = (true, enc) ->
              base_write (mkIORequest 0 8 enc) w2 = (wr, w3) ->
              0 <= wr ->
              initHeader fuel st = (Ret 0, set_base w3 st2))).
Proof.
  split.
  - intros Hsize n buf w1 Hread Hn ok plain Hdec.
    unfold initHeader. run_monad.
    destruct (Z.geb_spec (base_getSize (base st)) HEADER_SIZE) as [_ | Hlt]; [| lia].
    rewrite Hread. cbn [fst snd].
    destruct (Z.ltb_spec n 0) as [Hneg | _]; [lia |].
    rewrite in_place_take, Hdec. cbn [fst snd].
    split; [| split].
    + intros ->. reflexivity.
    + intros -> Hlen Hv. cbn [negb]. rewrite (decodeIV_be64 plain Hlen).
      destruct (Z.eqb_spec (spec_be64 plain) 0) as [E | _]; [contradiction |].
      reflexivity.
    + intros -> Hlen Hv. cbn [negb]. rewrite (decodeIV_be64 plain Hlen), Hv.
      reflexivity.
  - intros Hsize k w' rnd w2 Hzero Hdraw Hnz Hfuel st2.
    split; [exact Hnz |].
    unfold initHeader. run_monad.
    destruct (Z.geb_spec (base_getSize (base st)) HEADER_SIZE) as [Hge | _]; [lia |].
    rewrite (randomIV_loop_draws w' Hzero st eq_refl Hdraw Hnz Hfuel).
    cbn [base set_fileIV set_base externalIV].
    split.
    + intros Hro. rewrite Hro. reflexivity.
    + intros Hrw enc wr w3 Henc Hwrite Hwr. rewrite Hrw.
      rewrite in_place_take, Henc. cbn [fst snd negb base set_fileIV set_base].
      rewrite Hwrite.
      destruct (Z.ltb_spec wr 0) as [Hneg | _]; [lia |].
      reflexivity.
Qed.

End InitHeader.

(** An existing header under external IV 7 that decrypts to the bytes
    [00 00 00 00 00 00 01 02] gives the file IV 258; on an empty writable
    file whose random source first yields eight zero bytes and then
    [00 00 00 00 00 00 01 02], the second draw is taken and written. *)
Lemma initHeader_behaviour_run :
  let existing :=
    Mock.mkWorld 8 true (0, mkStat S_IFREG 8 42) []
      [(8, [x07; x07; x07; x07; x07; x07; x08; x09])] [] [] [] [] [] [] [] in
  let fresh :=
    Mock.mkWorld 0 true (0, mkStat S_IFREG 0 42) [] [] [] [] []
      [(true, repeat x00 8); (true, [x00; x00; x00; x00; x00; x00; x01; x02])]
      [] [] [] in
  (exists st', initHeader 0 (Mock.filter existing true false false false 1024 7 0)
               = (Ret 0, st') /\ fileIV st' = 258)
  /\ (exists st', initHeader 5 (Mock.filter fresh true false false false 1024 7 0)
                  = (Ret 0, st')
                  /\ fileIV st' = 258
                  /\ Mock.log (base st')
                     = [Mock.EvRandomize 8; Mock.EvRandomize 8;
                        Mock.EvWrite 0 8 [x07; x07; x07; x07; x07; x07; x08; x09]]).
Proof.
  intros existing fresh. split.
  - pose (st := Mock.filter existing true false false false 1024 7 0).
    pose (stored := [x07; x07; x07; x07; x07; x07; x08; x09]).
    pose (plain := [x00; x00; x00; x00; x00; x00; x01; x02]).
    pose (w1 := snd (Mock.m_read (mkIORequest 0 8 (repeat x00 8)) existing)).
    assert (Hsize : HEADER_SIZE <= base_getSize (base st)) by by_run.
    assert (Hread : base_read (mkIORequest 0 8 (repeat x00 8)) (base st)
                    = ((8, stored), w1)) by by_eval.
    assert (Hdec : streamDecode (take 8 stored) (externalIV st) = (true, plain)) by by_eval.
    destruct (initHeader_behaviour 0 st) as [Hexisting _].
    destruct (Hexisting Hsize 8 stored w1 Hread ltac:(lia) true plain Hdec)
      as (_ & Hgood & _).
    exists (set_fileIV (spec_be64 plain) (set_base w1 st)). split.
    + apply Hgood; [reflexivity | reflexivity | by_run].
    + reflexivity.
  - pose (st := Mock.filter fresh true false false false 1024 7 0).
    pose (rnd := [x00; x00; x00; x00; x00; x00; x01; x02]).
    pose (enc := [x07; x07; x07; x07; x07; x07; x08; x09]).
    pose (w1 := snd (Mock.m_randomize 8 fresh)).
    pose (w2 := snd (Mock.m_randomize 8 w1)).
    pose (w3 := snd (Mock.m_write (mkIORequest 0 8 enc) w2)).
    assert (Hsize : base_getSize (base st) < HEADER_SIZE) by by_run.
    assert (Hz : zero_draws 1 (base st) w1).
    { exists (repeat x00 8), w1. repeat split. }
    assert (Hdraw : randomize 8 w1 = ((true, rnd), w2)) by by_eval.
    assert (Hnz : decodeIV rnd <> 0) by by_run.
    assert (Henc : streamEncode (take 8 rnd) (externalIV st) = (true, enc)) by by_eval.
    assert (Hwrite : base_write (mkIORequest 0 8 enc) w2 = (8, w3)) by by_eval.
    destruct (initHeader_behaviour 5 st) as [_ Hnew].
    destruct (Hnew Hsize 1%nat w1 rnd w2 Hz Hdraw Hnz ltac:(lia)) as (_ & _ & Hrw).
    exists (set_base w3 (set_fileIV (decodeIV rnd) (set_base w2 st))). split; [| split].
    + apply (Hrw ltac:(reflexivity) enc 8 w3 Henc Hwrite ltac:(lia)).
    + reflexivity.
    + reflexivity.
Defined.

(** C9, as stated, fails where the stored header decrypts to zero: under
    external IV 7 the eight bytes [07 .. 07] decrypt (successfully) to
    eight zero bytes, and [initHeader] ends in the failed assertion
    [fileIV != 0]; it does not return [-EBADMSG]. *)
Lemma initHeader_zero_header_is_assertion :
  let w := Mock.mkWorld 8 true (0, mkStat S_IFREG 8 42) [] [(8, repeat x07 8)]
             [] [] [] [] [] [] [] in
  let st := Mock.filter w true false false false 1024 7 0 in
  streamDecode (repeat x07 8) 7 = (true, repeat x00 8)
  /\ spec_be64 (repeat x00 8) = 0
  /\ fst (initHeader 0 st) = AssertFailed "fileIV != 0"
  /\ fst (initHeader 0 st) <> Ret (- EBADMSG).
Proof.
  repeat split; try reflexivity.
  vm_compute. discriminate.
Qed.

(** ** IV reassignment *)

Section SetIV.
Context {W : Type} {F : FileIO W} {C : Cipher W}.


End SetIV.



(** ** Truncate coordination *)

Section Truncate.
Context {W : Type} {F : FileIO W} {C : Cipher W} {B : BlockFileIO W}.

(** After a temporary read-write reopen, a failure of the logical
    truncate is not what [truncate] returns: the closing
    [if (res < 0) res = reopen;] replaces it by the result of reopening
    with the original flags. *)
Lemma truncate_error_after_reopen (fuel : nat) (size : Z) (st : CipherFileIO W) :
  forall r0 w1 e st2 r1 w3,
    base_isWritable (base st) = false ->
    base_open (Z.lor (lastFlags st) O_RDWR) (base st) = (r0, w1) ->
    0 <= r0 ->
    haveHeader st = true ->
    fileIV st <> 0 ->
    truncateBase size false (set_base w1 st) = (Ret e, st2) ->
    e < 0 ->
    base_open (lastFlags st2) (base st2) = (r1, w3) ->
    truncate fuel size st = (Ret r1, set_base w3 st2).
Proof.
  intros r0 w1 e st2 r1 w3 Hro Hopen Hr0 Hhdr Hiv Htb He Hre.
  unfold truncate. run_monad.
  rewrite Hro. cbn [negb]. rewrite Hopen.
  destruct (Z.ltb_spec r0 0) as [Hlt | _]; [lia |].
  rewrite Hhdr. cbn [negb].
  destruct (Z.eqb_spec 0 (fileIV st)) as [E | _]; [congruence |].
  cbn [Z.eqb]. rewrite Htb.
  destruct (Z.eqb_spec e 0) as [E | _]; [lia |].
  rewrite Hre.
  destruct (Z.ltb_spec e 0) as [_ | Hge]; [reflexivity | lia].
Qed.

End Truncate.

(** C3 (the code departs from it).  A header-bearing file with an
    established file IV is open read-only.  [truncate 50] reopens it
    read-write, the logical truncate of the chunker fails with -5
    ([-EIO]), the backing file is not truncated, the original flags are
    reopened (result 0), and [truncate] returns that 0 instead of the -5. *)
Theorem truncate_returns_reopen_result_for_error :
  let w := Mock.mkWorld 100 false (0, mkStat S_IFREG 100 42) [0; 0]
             [] [] [] [] [] [-5] [] [] in
  let st := Mock.filter w true false false false 1024 7 5 in
  exists st',
    truncate 0 50 st = (Ret 0, st')
    /\ Mock.log (base st')
       = [Mock.EvOpen 2; Mock.EvTruncateBase 50 false; Mock.EvOpen 0].
Proof.
  eexists. split; [vm_compute; reflexivity | reflexivity].
Qed.

(** ** Padding codec *)

Lemma byte_to_Z_inj (a b : byte) : byte_to_Z a = byte_to_Z b -> a = b.
Proof.
  unfold byte_to_Z. intros H. apply N2Z.inj in H.
  pose proof (Byte.of_to_N a) as Ha. pose proof (Byte.of_to_N b) as Hb.
  rewrite H in Ha. congruence.
Qed.

Lemma is_zero_true (b : byte) : is_zero b = true <-> b = x00.
Proof.
  unfold is_zero. rewrite Z.eqb_eq. split.
  - intros H. apply byte_to_Z_inj. exact H.
  - intros ->. reflexivity.
Qed.

Lemma is_zero_false (b : byte) : is_zero b = false <-> b <> x00.
Proof.
  rewrite <- is_zero_true. destruct (is_zero b); split; congruence.
Qed.

(** The three regions of a buffer [pre ++ [b] ++ zeros ++ rest]. *)
Lemma at_index_marker (pre rest : list byte) (b : byte) (k : nat) :
  at_index (pre ++ [b] ++ repeat x00 k ++ rest) (Z.of_nat (length pre)) = b.
Proof.
  unfold at_index. rewrite Nat2Z.id, app_nth2 by lia.
  rewrite Nat.sub_diag. reflexivity.
Qed.

Lemma at_index_filler (pre rest : list byte) (b : byte) (k : nat) (i : Z) :
  Z.of_nat (length pre) < i <= Z.of_nat (length pre) + Z.of_nat k ->
  at_index (pre ++ [b] ++ repeat x00 k ++ rest) i = x00.
Proof.
  intros Hi. unfold at_index.
  rewrite app_nth2 by lia.
  assert (E : (Z.to_nat i - length pre = S (Z.to_nat i - length pre - 1))%nat) by lia.
  rewrite E. cbn [app nth].
  rewrite app_nth1 by (rewrite repeat_length; lia).
  apply nth_repeat.
Qed.

Lemma at_index_zeros (rest : list byte) (m : nat) (i : Z) :
  0 <= i < Z.of_nat m ->
  at_index (repeat x00 m ++ rest) i = x00.
Proof.
  intros Hi. unfold at_index.
  rewrite app_nth1 by (rewrite repeat_length; lia).
  apply nth_repeat.
Qed.

(** The backward scan stops at the last byte that is not zero. *)
Lemma scanPadding_stops (buf : list byte) (rs k : Z) :
  0 <= k < rs -> rs < 2 ^ 31 ->
  (forall i, rs - k <= i < rs -> at_index buf i = x00) ->
  at_index buf (rs - k - 1) <> x00 ->
  forall (n : nat) (p : Z),
    0 <= p <= k ->
    (Z.to_nat (k - p) < n)%nat ->
    scanPadding n buf rs p = k.
Proof.
  intros Hk Hrs Hzeros Hlast n.
  induction n as [| n IH]; intros p Hp Hfuel; [lia |].
  cbn [scanPadding].
  destruct (Z.ltb_spec p rs) as [_ | Hge]; [| lia]. cbn [andb].
  destruct (Z.eq_dec p k) as [-> | Hne].
  - apply is_zero_false in Hlast. rewrite Hlast. reflexivity.
  - rewrite (proj2 (is_zero_true _) (Hzeros (rs - p - 1) ltac:(lia))).
    rewrite s32_id by lia.
    apply IH; lia.
Qed.

(** On a buffer of zeros the scan runs to the front. *)
Lemma scanPadding_all_zero (buf : list byte) (rs : Z) :
  0 <= rs < 2 ^ 31 ->
  (forall i, 0 <= i < rs -> at_index buf i = x00) ->
  forall (n : nat) (p : Z),
    0 <= p <= rs ->
    (Z.to_nat (rs - p) <= n)%nat ->
    scanPadding n buf rs p = rs.
Proof.
  intros Hrs Hzeros n.
  induction n as [| n IH]; intros p Hp Hfuel.
  - cbn [scanPadding]. lia.
  - cbn [scanPadding].
    destruct (Z.ltb_spec p rs) as [Hlt | Hge]; cbn [andb]; [| lia].
    rewrite (proj2 (is_zero_true _) (Hzeros (rs - p - 1) ltac:(lia))).
    rewrite s32_id by lia.
    apply IH; lia.
Qed.

Section BlockDecode.
Context {W : Type} {F : FileIO W} {C : Cipher W}.

Abbreviation cbs := (@cipherBlockSize W C).

(** [readOneBlock] is the decoding of what was fetched. *)
Lemma readOneBlock_fetched (fuel : nat) (req : IORequest) (st st2 : CipherFileIO W)
    (n : Z) (buf : list byte) :
  fetchBlock fuel req st = (Ret (inr (n, buf)), st2) ->
  readOneBlock fuel req st = (Ret (decodeBlock st2 req n buf), st2).
Proof.
  intros Hf. unfold readOneBlock. run_monad. rewrite Hf. reflexivity.
Qed.

(** The block number as the source computes it, on offsets and block
    sizes that fit their types. *)
Lemma blockNum_plain (off bs : Z) :
  0 <= off < 2 ^ 63 -> 0 < bs < 2 ^ 31 ->
  u64 (s64 (Z.quot off (s32 bs))) = off / bs.
Proof.
  intros Hoff Hbs.
  rewrite s32_id by lia. rewrite quot_is_div by lia.
  assert (Hq : 0 <= off / bs <= off).
  { split; [apply Z.div_pos; lia | apply Z.div_le_upper_bound; nia]. }
  rewrite s64_id by lia. apply u64_id. lia.
Qed.

(** What is left of [n] bytes after the strip to whole cipher blocks. *)
Lemma stripped_size (n c : Z) :
  0 <= n < 2 ^ 31 -> 0 < c ->
  s64 (n - s32 (Z.rem n c)) = c * (n / c)
  /\ 0 <= c * (n / c) <= n.
Proof.
  intros Hn Hc.
  rewrite Z.rem_mod_nonneg by lia.
  pose proof (Z.mod_pos_bound n c Hc) as Hm.
  pose proof (Z.div_mod n c ltac:(lia)) as Hd.
  pose proof (Z.mod_le n c ltac:(lia) Hc) as Hle.
  rewrite s32_id by lia. rewrite s64_id by lia. lia.
Qed.

(** The padded branch of [decodeBlock] once the cipher has decoded the
    stripped bytes. *)
Lemma decodeBlock_padded (st : CipherFileIO W) (req : IORequest) (n : Z)
    (buf decoded : list byte) :
  haveCBCPadding st = true ->
  reverseEncryption st = false ->
  0 < cbs ->
  0 <= offset req < 2 ^ 63 ->
  0 < blockSize st < 2 ^ 31 - 1 ->
  0 <= n < 2 ^ 31 ->
  let stripped := cbs * (n / cbs) in
  let iv := Z.lxor (offset req / blockSize st) (fileIV st) in
  0 < stripped ->
  blockRead st buf stripped iv = (true, decoded) ->
  decodeBlock st req n buf =
    let padBytes := scanPadding (Z.to_nat stripped) decoded stripped 0 in
    if allowHoles st && (padBytes =? stripped) && (stripped =? blockSize st + 1)
    then (stripped - 1, decoded)
    else if (s64 (stripped - padBytes) >? 1)
            && (byte_to_Z (at_index decoded (stripped - padBytes - 1)) =? 128)
    then (s64 (stripped - s32 (padBytes + 1)), decoded)
    else (- EBADMSG, decoded).
Proof.
  intros Hpad Hrev Hc Hoff Hbs Hn stripped iv Hpos Hdec.
  destruct (stripped_size (n := n) (c := cbs) Hn Hc) as [Hstrip Hle].
  fold stripped in Hstrip, Hle.
  unfold decodeBlock.
  rewrite Hpad, Hrev. cbn [negb andb].
  destruct (Z.geb_spec n 0) as [_ | Hneg]; [| lia].
  rewrite Hstrip.
  destruct (Z.gtb_spec stripped 0) as [_ | Hnp]; [| lia].
  rewrite blockNum_plain by lia. fold iv.
  rewrite (s32_id (z := stripped)) by lia.
  rewrite Hdec. cbn [fst snd].
  rewrite (s32_id (z := blockSize st)) by lia.
  rewrite (s32_id (z := blockSize st + 1)) by lia.
  cbv zeta.
  destruct (allowHoles st && (scanPadding (Z.to_nat stripped) decoded stripped 0 =? stripped)
            && (stripped =? blockSize st + 1)).
  - cbn [negb]. rewrite s64_id by lia. reflexivity.
  - destruct ((s64 (stripped - scanPadding (Z.to_nat stripped) decoded stripped 0) >? 1)
              && (byte_to_Z
                    (at_index decoded
                       (stripped - scanPadding (Z.to_nat stripped) decoded stripped 0 - 1))
                  =? 128)); reflexivity.
Qed.

(** C4, as amended.  A padded per-block decode without reverse: of the
    [n] bytes read, the first [cbs * (n / cbs)] (the nearest multiple of
    the cipher block size below) are decoded, in block mode under
    [blockIndex XOR fileIV].  If the decoded bytes are a payload of at
    least one byte, one [0x80] and zeros to the end, the result is the
    length of the payload, the bytes in front of the marker.  If they are
    all zero, of the full extended block length [blockSize() + 1], and
    holes are allowed, the result is [blockSize()], one byte short of the
    nominal block size.  If the last byte that is not zero is no [0x80],
    or is the first byte of the buffer (a marker without data), or the
    bytes are all zero outside the hole case, the result is [-EBADMSG]. *)
Theorem padded_block_decode (fuel : nat) (req : IORequest)
    (st st2 : CipherFileIO W) (n : Z) (buf : list byte) :
  haveCBCPadding st2 = true ->
  reverseEncryption st2 = false ->
  0 < cbs ->
  0 <= offset req < 2 ^ 63 ->
  0 < blockSize st2 < 2 ^ 31 - 1 ->
  fetchBlock fuel req st = (Ret (inr (n, buf)), st2) ->
  0 <= n < 2 ^ 31 ->
  let stripped := cbs * (n / cbs) in
  let iv := Z.lxor (offset req / blockSize st2) (fileIV st2) in
  0 < stripped ->
  forall decoded,
    blockRead st2 buf stripped iv = (true, decoded) ->
    (forall payload k rest,
       decoded = payload ++ [x80] ++ repeat x00 k ++ rest ->
       Z.of_nat (length payload) + 1 + Z.of_nat k = stripped ->
       payload <> [] ->
       readOneBlock fuel req st = (Ret (Z.of_nat (length payload), decoded), st2))
    /\ (forall rest,
          decoded = repeat x00 (Z.to_nat stripped) ++ rest ->
          allowHoles st2 = true ->
          stripped = blockSize st2 + 1 ->
          readOneBlock fuel req st = (Ret (blockSize st2, decoded), st2))
    /\ (forall pre b k rest,
          decoded = pre ++ [b] ++ repeat x00 k ++ rest ->
          Z.of_nat (length pre) + 1 + Z.of_nat k = stripped ->
          b <> x00 ->
          b <> x80 \/ pre = [] ->
          readOneBlock fuel req st = (Ret (- EBADMSG, decoded), st2))
    /\ (forall rest,
          decoded = repeat x00 (Z.to_nat stripped) ++ rest ->
          allowHoles st2 = false \/ stripped <> blockSize st2 + 1 ->
          readOneBlock fuel req st = (Ret (- EBADMSG, decoded), st2)).
Proof.
  intros Hpad Hrev Hc Hoff Hbs Hfetch Hn stripped iv Hpos decoded Hdec.
  rewrite (readOneBlock_fetched fuel req st Hfetch).
  rewrite (decodeBlock_padded st2 req buf Hpad Hrev Hc Hoff Hbs Hn Hpos Hdec).
  fold stripped. cbv zeta.
  destruct (stripped_size (n := n) (c := cbs) Hn Hc) as [_ Hle]. fold stripped in Hle.
  split; [| split; [| split]].
  - intros payload k rest -> Hlen Hne.
    assert (Hplen : 0 < Z.of_nat (length payload)).
    { destruct payload; [contradiction | cbn [length]; lia]. }
    rewrite (scanPadding_stops (payload ++ [x80] ++ repeat x00 k ++ rest)
               (rs := stripped) (k := Z.of_nat k)); try lia.
    + destruct (Z.eqb_spec (Z.of_nat k) stripped) as [E | _]; [lia |].
      rewrite andb_false_r. cbn [andb].
      replace (stripped - Z.of_nat k - 1) with (Z.of_nat (length payload)) by lia.
      rewrite at_index_marker.
      rewrite (s64_id (z := stripped - Z.of_nat k)) by lia.
      destruct (Z.gtb_spec (stripped - Z.of_nat k) 1) as [_ | Hsmall]; [| lia].
      change (byte_to_Z x80 =? 128) with true. cbn [andb].
      rewrite s32_id by lia. rewrite s64_id by lia.
      repeat f_equal. lia.
    + intros i Hi. apply at_index_filler. lia.
    + replace (stripped - Z.of_nat k - 1) with (Z.of_nat (length payload)) by lia.
      rewrite at_index_marker. discriminate.
  - intros rest -> Hholes Hfull.
    rewrite (scanPadding_all_zero (repeat x00 (Z.to_nat stripped) ++ rest)
               (rs := stripped)); try lia.
    + rewrite Hholes, Z.eqb_refl. cbn [andb].
      destruct (Z.eqb_spec stripped (blockSize st2 + 1)) as [_ | Hne]; [| contradiction].
      repeat f_equal. lia.
    + intros i Hi. apply at_index_zeros. lia.
  - intros pre b k rest -> Hlen Hb0 Hshape.
    rewrite (scanPadding_stops (pre ++ [b] ++ repeat x00 k ++ rest)
               (rs := stripped) (k := Z.of_nat k)); try lia.
    + destruct (Z.eqb_spec (Z.of_nat k) stripped) as [E | _]; [lia |].
      rewrite andb_false_r. cbn [andb].
      replace (stripped - Z.of_nat k - 1) with (Z.of_nat (length pre)) by lia.
      rewrite at_index_marker.
      destruct Hshape as [Hb80 | ->].
      * destruct (Z.eqb_spec (byte_to_Z b) 128) as [E | _].
        -- exfalso. apply Hb80. apply byte_to_Z_inj. exact E.
        -- rewrite andb_false_r. reflexivity.
      * cbn [length] in Hlen.
        rewrite (s64_id (z := stripped - Z.of_nat k)) by lia.
        destruct (Z.gtb_spec (stripped - Z.of_nat k) 1) as [Hbig | _]; [lia |].
        reflexivity.
    + intros i Hi. apply at_index_filler. lia.
    + replace (stripped - Z.of_nat k - 1) with (Z.of_nat (length pre)) by lia.
      rewrite at_index_marker. exact Hb0.
  - intros rest -> Hnohole.
    rewrite (scanPadding_all_zero (repeat x00 (Z.to_nat stripped) ++ rest)
               (rs := stripped)); try lia.
    + assert (Hguard : allowHoles st2 && (stripped =? stripped)
                       && (stripped =? blockSize st2 + 1) = false).
      { destruct Hnohole as [-> | Hne]; [reflexivity |].
        destruct (Z.eqb_spec stripped (blockSize st2 + 1)) as [E | _]; [contradiction |].
        apply andb_false_r. }
      rewrite Hguard.
      replace (stripped - stripped) with 0 by lia.
      rewrite s64_id by lia. reflexivity.
    + intros i Hi. apply at_index_zeros. lia.
Qed.

End BlockDecode.

(** Three blocks of a padded file with [blockSize() = 31], cipher blocks
    of 16 and file IV 5, block number 0.  Thirty-five bytes are read: the
    last three are stripped, the 32 others decode to 15 payload bytes, the
    marker and 16 zeros, and the result is 15.  Thirty-two zero bytes with
    holes allowed give 31.  With [0x81] where the marker should be the
    result is [-EBADMSG]. *)
Lemma padded_block_decode_run :
  let payload := [x01; x02; x03; x04; x05; x06; x07; x08; x09; x0a; x0b; x0c; x0d; x0e; x0f] in
  let junk := [xaa; xbb; xcc] in
  let stored (marker : byte) :=
    snd (blockEncode (payload ++ [marker] ++ repeat x00 16) 5) ++ junk in
  let file (n : Z) (bytes : list byte) :=
    Mock.filter (Mock.mkWorld 100 true (0, mkStat S_IFREG 100 42) []
                   [(n, bytes)] [] [] [] [] [] [] []) false true false true 31 0 5 in
  let req := mkIORequest 0 31 (repeat x00 35) in
  fst (readOneBlock 0 req (file 35 (stored x80)))
    = Ret (15, payload ++ [x80] ++ repeat x00 16 ++ junk)
  /\ fst (readOneBlock 0 req (file 32 (repeat x00 32))) = Ret (31, repeat x00 32)
  /\ fst (readOneBlock 0 req (file 35 (stored x81)))
     = Ret (- EBADMSG, payload ++ [x81] ++ repeat x00 16 ++ junk).
Proof.
  intros payload junk stored file req.
  split; [| split].
  - pose (st := file 35 (stored x80)).
    pose (st2 := snd (fetchBlock 0 req st)).
    pose (decoded := payload ++ [x80] ++ repeat x00 16 ++ junk).
    assert (Hfetch : fetchBlock 0 req st = (Ret (inr (35, stored x80)), st2)) by by_eval.
    assert (Hpad : haveCBCPadding st2 = true) by by_eval.
    assert (Hrev : reverseEncryption st2 = false) by by_eval.
    assert (Hbs : 0 < blockSize st2 < 2 ^ 31 - 1) by by_run.
    assert (Hoff : 0 <= offset req < 2 ^ 63) by by_run.
    assert (Hc : 0 < @cipherBlockSize Mock.world Mock.cipher) by by_run.
    assert (Hpos : 0 < @cipherBlockSize Mock.world Mock.cipher
                       * (35 / @cipherBlockSize Mock.world Mock.cipher)) by by_run.
    assert (Hdec : blockRead st2 (stored x80)
                     (@cipherBlockSize Mock.world Mock.cipher
                      * (35 / @cipherBlockSize Mock.world Mock.cipher))
                     (Z.lxor (offset req / blockSize st2) (fileIV st2))
                   = (true, decoded)) by by_eval.
    destruct (padded_block_decode 0 req st Hpad Hrev Hc Hoff Hbs Hfetch
                ltac:(lia) Hpos Hdec) as (Hmark & _).
    pose proof (Hmark payload 16%nat junk (eq_refl decoded) ltac:(by_eval) ltac:(discriminate)) as E.
    unfold st in E. rewrite E. reflexivity.
  - pose (st := file 32 (repeat x00 32)).
    pose (st2 := snd (fetchBlock 0 req st)).
    pose (decoded := repeat x00 32).
    assert (Hfetch : fetchBlock 0 req st = (Ret (inr (32, repeat x00 32)), st2)) by by_eval.
    assert (Hpad : haveCBCPadding st2 = true) by by_eval.
    assert (Hrev : reverseEncryption st2 = false) by by_eval.
    assert (Hbs : 0 < blockSize st2 < 2 ^ 31 - 1) by by_run.
    assert (Hoff : 0 <= offset req < 2 ^ 63) by by_run.
    assert (Hc : 0 < @cipherBlockSize Mock.world Mock.cipher) by by_run.
    assert (Hpos : 0 < @cipherBlockSize Mock.world Mock.cipher
                       * (32 / @cipherBlockSize Mock.world Mock.cipher)) by by_run.
    assert (Hdec : blockRead st2 (repeat x00 32)
                     (@cipherBlockSize Mock.world Mock.cipher
                      * (32 / @cipherBlockSize Mock.world Mock.cipher))
                     (Z.lxor (offset req / blockSize st2) (fileIV st2))
                   = (true, decoded)) by by_eval.
    destruct (padded_block_decode 0 req st Hpad Hrev Hc Hoff Hbs Hfetch
                ltac:(lia) Hpos Hdec) as (_ & Hhole & _).
    pose proof (Hhole [] ltac:(by_eval) ltac:(by_eval) ltac:(by_eval)) as E.
    unfold st in E. rewrite E. reflexivity.
  - pose (st := file 35 (stored x81)).
    pose (st2 := snd (fetchBlock 0 req st)).
    pose (decoded := payload ++ [x81] ++ repeat x00 16 ++ junk).
    assert (Hfetch : fetchBlock 0 req st = (Ret (inr (35, stored x81)), st2)) by by_eval.
    assert (Hpad : haveCBCPadding st2 = true) by by_eval.
    assert (Hrev : reverseEncryption st2 = false) by by_eval.
    assert (Hbs : 0 < blockSize st2 < 2 ^ 31 - 1) by by_run.
    assert (Hoff : 0 <= offset req < 2 ^ 63) by by_run.
    assert (Hc : 0 < @cipherBlockSize Mock.world Mock.cipher) by by_run.
    assert (Hpos : 0 < @cipherBlockSize Mock.world Mock.cipher
                       * (35 / @cipherBlockSize Mock.world Mock.cipher)) by by_run.
    assert (Hdec : blockRead st2 (stored x81)
                     (@cipherBlockSize Mock.world Mock.cipher
                      * (35 / @cipherBlockSize Mock.world Mock.cipher))
                     (Z.lxor (offset req / blockSize st2) (fileIV st2))
                   = (true, decoded)) by by_eval.
    destruct (padded_block_decode 0 req st Hpad Hrev Hc Hoff Hbs Hfetch
                ltac:(lia) Hpos Hdec) as (_ & _ & Hbad & _).
    assert (Hlen : Z.of_nat (length payload) + 1 + Z.of_nat 16
                   = @cipherBlockSize Mock.world Mock.cipher
                     * (35 / @cipherBlockSize Mock.world Mock.cipher)) by by_eval.
    assert (Hnz : x81 <> x00) by discriminate.
    assert (Hne : x81 <> x80) by discriminate.
    pose proof (Hbad payload x81 16%nat junk (eq_refl decoded) Hlen Hnz
                  (or_introl Hne)) as E.
    unfold st in E. rewrite E. reflexivity.
Defined.

(** C4, as stated, fails for a marker without data: sixteen bytes that
    decode to one [0x80] and fifteen zeros carry the marker where it is
    expected, and the result is [-EBADMSG], not the length 0 up to the
    marker. *)
Lemma marker_without_data_is_rejected :
  let plain := [x80] ++ repeat x00 15 in
  let stored := snd (blockEncode plain 5) in
  let st :=
    Mock.filter (Mock.mkWorld 100 true (0, mkStat S_IFREG 100 42) []
                   [(16, stored)] [] [] [] [] [] [] []) false true false true 31 0 5 in
  let req := mkIORequest 0 31 (repeat x00 16) in
  blockRead st stored 16 5 = (true, plain)
  /\ fst (readOneBlock 0 req st) = Ret (- EBADMSG, plain)
  /\ fst (readOneBlock 0 req st) <> Ret (0, plain).
Proof.
  intros plain stored st req.
  split; [by_eval | split].
  - by_eval.
  - vm_compute. discriminate.
Qed.

(** ** Block transform: IV and cipher mode *)

Section BlockModes.
Context {W : Type} {F : FileIO W} {C : Cipher W}.

Abbreviation cbs := (@cipherBlockSize W C).

Lemma blockNum_plain_unsigned (off bs : Z) :
  0 <= off < 2 ^ 63 -> 0 < bs < 2 ^ 31 ->
  u64 (s64 (Z.quot off (u32 bs))) = off / bs.
Proof.
  intros Hoff Hbs.
  rewrite u32_id by lia. rewrite quot_is_div by lia.
  assert (Hq : 0 <= off / bs <= off).
  { split; [apply Z.div_pos; lia | apply Z.div_le_upper_bound; nia]. }
  rewrite s64_id by lia. apply u64_id. lia.
Qed.

(** C8, as amended.  Every per-block transform that reaches the cipher is
    given the IV [blockIndex XOR fileIV], with the file IV as it is after
    the header has been established.  [writeOneBlock], and [readOneBlock]
    when CBC padding is off, choose the mode by length: block mode for a
    buffer of exactly [blockSize()] bytes, stream mode for any other.
    [readOneBlock] with CBC padding on (without reverse) decodes the
    stripped bytes in block mode whatever their length. *)
Theorem block_transform_iv_and_mode (fuel : nat) :
  (forall (req : IORequest) (st st1 : CipherFileIO W) (r : Z),
     haveHeader st && reverseEncryption st = false ->
     (if haveHeader st && (fileIV st =? 0) then initHeader fuel else ret 0) st
       = (Ret r, st1) ->
     0 <= r ->
     0 <= offset req < 2 ^ 63 ->
     0 < blockSize st < 2 ^ 31 ->
     0 <= dataLen req < 2 ^ 31 ->
     let iv := Z.lxor (offset req / blockSize st) (fileIV st1) in
     let enc := if dataLen req =? blockSize st
                then blockWrite st1 (data req) (dataLen req) iv
                else streamWrite st1 (data req) (dataLen req) iv in
     exists res st2,
       writeOneBlock fuel req st = (Ret (res, snd enc), st2)
       /\ (fst enc = false -> res = - EBADMSG /\ st2 = st1))
  /\ (forall (req : IORequest) (st st2 : CipherFileIO W) (n : Z) (buf : list byte),
        haveCBCPadding st2 = false ->
        fetchBlock fuel req st = (Ret (inr (n, buf)), st2) ->
        0 < n < 2 ^ 31 ->
        0 <= offset req < 2 ^ 63 ->
        0 < blockSize st2 < 2 ^ 31 ->
        let iv := Z.lxor (offset req / blockSize st2) (fileIV st2) in
        let dec := if n =? blockSize st2
                   then blockRead st2 buf n iv
                   else streamRead st2 buf n iv in
        readOneBlock fuel req st
          = (Ret (if fst dec then n else - EBADMSG, snd dec), st2))
  /\ (forall (req : IORequest) (st st2 : CipherFileIO W) (n : Z) (buf : list byte),
        haveCBCPadding st2 = true ->
        reverseEncryption st2 = false ->
        fetchBlock fuel req st = (Ret (inr (n, buf)), st2) ->
        0 < cbs ->
        0 <= n < 2 ^ 31 ->
        0 <= offset req < 2 ^ 63 ->
        0 < blockSize st2 < 2 ^ 31 - 1 ->
        let stripped := cbs * (n / cbs) in
        let iv := Z.lxor (offset req / blockSize st2) (fileIV st2) in
        let dec := blockRead st2 buf stripped iv in
        0 < stripped ->
        exists res,
          readOneBlock fuel req st = (Ret (res, snd dec), st2)
          /\ (fst dec = false -> res = - EBADMSG)).
Proof.
  split; [| split].
  - intros req st st1 r Hguard Hinit Hr Hoff Hbs Hlen iv enc.
    unfold writeOneBlock. run_monad. rewrite Hguard.
    rewrite Hinit.
    destruct (Z.ltb_spec r 0) as [Hneg | _]; [lia |].
    rewrite blockNum_plain_unsigned by lia.
    rewrite (u32_id (z := blockSize st)) by lia.
    rewrite (s32_id (z := dataLen req)) by lia.
    fold iv.
    assert (Henc : (if negb (dataLen req =? blockSize st)
                    then streamWrite st1 (data req) (dataLen req) iv
                    else blockWrite st1 (data req) (dataLen req) iv) = enc).
    { subst enc. destruct (dataLen req =? blockSize st); reflexivity. }
    rewrite Henc. clear Henc.
    destruct (fst enc) eqn:Hok.
    + destruct (haveHeader st1).
      * destruct (base_write _ (base st1)) as [res w2].
        eexists _, _. split; [reflexivity | discriminate].
      * destruct (base_write _ (base st1)) as [res w2].
        eexists _, _. split; [reflexivity | discriminate].
    + eexists _, _. split; [reflexivity | intros _; split; reflexivity].
  - intros req st st2 n buf Hpad Hfetch Hn Hoff Hbs iv dec.
    rewrite (readOneBlock_fetched fuel req st Hfetch).
    unfold decodeBlock. rewrite Hpad. cbn [andb].
    destruct (Z.gtb_spec n 0) as [_ | Hnp]; [| lia].
    rewrite blockNum_plain by lia. fold iv.
    rewrite (s32_id (z := blockSize st2)) by lia.
    rewrite (s32_id (z := n)) by lia.
    subst dec.
    destruct (n =? blockSize st2); cbn [negb].
    + destruct (blockRead st2 buf n iv) as [ok out]. destruct ok; reflexivity.
    + destruct (streamRead st2 buf n iv) as [ok out]. destruct ok; reflexivity.
  - intros req st st2 n buf Hpad Hrev Hfetch Hc Hn Hoff Hbs stripped iv dec Hpos.
    rewrite (readOneBlock_fetched fuel req st Hfetch).
    destruct (stripped_size (n := n) (c := cbs) Hn Hc) as [Hstrip Hle].
    fold stripped in Hstrip, Hle.
    destruct (fst dec) eqn:Hok.
    + assert (Hdec : blockRead st2 buf stripped iv = (true, snd dec)).
      { subst dec. destruct (blockRead st2 buf stripped iv) as [ok out].
        cbn [fst snd] in *. subst ok. reflexivity. }
      rewrite (decodeBlock_padded st2 req buf Hpad Hrev Hc Hoff Hbs Hn Hpos Hdec).
      fold stripped. cbv zeta.
      destruct (allowHoles st2 && _ && _).
      * eexists. split; [reflexivity | discriminate].
      * destruct (_ && _); eexists; (split; [reflexivity | discriminate]).
    + exists (- EBADMSG). split; [| reflexivity].
      unfold decodeBlock. rewrite Hpad, Hrev. cbn [negb andb].
      destruct (Z.geb_spec n 0) as [_ | Hneg]; [| lia].
      rewrite Hstrip.
      destruct (Z.gtb_spec stripped 0) as [_ | Hnp]; [| lia].
      rewrite blockNum_plain by lia. fold iv.
      rewrite (s32_id (z := stripped)) by lia.
      fold dec. rewrite Hok. reflexivity.
Qed.

End BlockModes.

(** Blocks of an unpadded file with [blockSize() = 32] and file IV 5: block
    2 (offset 64) is transformed under IV [2 XOR 5 = 7], a full block in
    block mode and a partial one in stream mode, on write and on read.
    On a padded file with [blockSize() = 31] the 32 stripped bytes are
    decoded in block mode. *)
Lemma block_transform_iv_and_mode_run :
  let plainFile :=
    Mock.filter (Mock.regular 100 true) false false false false 32 0 5 in
  let readFile (padding : bool) (bs n : Z) (bytes : list byte) :=
    Mock.filter (Mock.mkWorld 100 true (0, mkStat S_IFREG 100 42) []
                   [(n, bytes)] [] [] [] [] [] [] []) false padding false false bs 0 5 in
  let full := repeat x01 32 in
  let part := repeat x01 10 in
  (exists res st2,
     writeOneBlock 0 (mkIORequest 64 32 full) plainFile
       = (Ret (res, snd (blockEncode full 7)), st2))
  /\ (exists res st2,
        writeOneBlock 0 (mkIORequest 64 10 part) plainFile
          = (Ret (res, snd (streamEncode part 7)), st2))
  /\ fst (readOneBlock 0 (mkIORequest 64 32 full) (readFile false 32 32 full))
     = Ret (32, snd (blockDecode full 7))
  /\ fst (readOneBlock 0 (mkIORequest 64 32 full) (readFile false 32 10 part))
     = Ret (10, snd (streamDecode part 7))
  /\ (exists res,
        fst (readOneBlock 0 (mkIORequest 62 31 full) (readFile true 31 32 full))
          = Ret (res, snd (blockDecode full 7))).
Proof.
  intros plainFile readFile full part.
  destruct (block_transform_iv_and_mode (W := Mock.world) 0) as (Hw & Hr & Hp).
  split; [| split; [| split; [| split]]].
  - pose (req := mkIORequest 64 32 full).
    assert (Hguard : haveHeader plainFile && reverseEncryption plainFile = false) by by_eval.
    assert (Hinit : (if haveHeader plainFile && (fileIV plainFile =? 0)
                     then initHeader 0 else ret 0) plainFile = (Ret 0, plainFile))
      by by_eval.
    assert (Hoff : 0 <= offset req < 2 ^ 63) by by_run.
    assert (Hbs : 0 < blockSize plainFile < 2 ^ 31) by by_run.
    assert (Hlen : 0 <= dataLen req < 2 ^ 31) by by_run.
    destruct (Hw req plainFile plainFile 0 Hguard Hinit ltac:(lia) Hoff Hbs Hlen)
      as (res & st2 & Hrun & _).
    exists res, st2. unfold req in Hrun. rewrite Hrun. by_eval.
  - pose (req := mkIORequest 64 10 part).
    assert (Hguard : haveHeader plainFile && reverseEncryption plainFile = false) by by_eval.
    assert (Hinit : (if haveHeader plainFile && (fileIV plainFile =? 0)
                     then initHeader 0 else ret 0) plainFile = (Ret 0, plainFile))
      by by_eval.
    assert (Hoff : 0 <= offset req < 2 ^ 63) by by_run.
    assert (Hbs : 0 < blockSize plainFile < 2 ^ 31) by by_run.
    assert (Hlen : 0 <= dataLen req < 2 ^ 31) by by_run.
    destruct (Hw req plainFile plainFile 0 Hguard Hinit ltac:(lia) Hoff Hbs Hlen)
      as (res & st2 & Hrun & _).
    exists res, st2. unfold req in Hrun. rewrite Hrun. by_eval.
  - pose (req := mkIORequest 64 32 full).
    pose (st := readFile false 32 32 full).
    pose (st2 := snd (fetchBlock 0 req st)).
    assert (Hpad : haveCBCPadding st2 = false) by by_eval.
    assert (Hfetch : fetchBlock 0 req st = (Ret (inr (32, full)), st2)) by by_eval.
    assert (Hoff : 0 <= offset req < 2 ^ 63) by by_run.
    assert (Hbs : 0 < blockSize st2 < 2 ^ 31) by by_run.
    pose proof (Hr req st st2 32 full Hpad Hfetch ltac:(lia) Hoff Hbs) as Hrun.
    unfold req, st in Hrun. rewrite Hrun. by_eval.
  - pose (req := mkIORequest 64 32 full).
    pose (st := readFile false 32 10 part).
    pose (st2 := snd (fetchBlock 0 req st)).
    assert (Hpad : haveCBCPadding st2 = false) by by_eval.
    assert (Hfetch : fetchBlock 0 req st = (Ret (inr (10, part)), st2)) by by_eval.
    assert (Hoff : 0 <= offset req < 2 ^ 63) by by_run.
    assert (Hbs : 0 < blockSize st2 < 2 ^ 31) by by_run.
    pose proof (Hr req st st2 10 part Hpad Hfetch ltac:(lia) Hoff Hbs) as Hrun.
    unfold req, st in Hrun. rewrite Hrun. by_eval.
  - pose (req := mkIORequest 62 31 full).
    pose (st := readFile true 31 32 full).
    pose (st2 := snd (fetchBlock 0 req st)).
    assert (Hpad : haveCBCPadding st2 = true) by by_eval.
    assert (Hrev : reverseEncryption st2 = false) by by_eval.
    assert (Hfetch : fetchBlock 0 req st = (Ret (inr (32, full)), st2)) by by_eval.
    assert (Hc : 0 < @cipherBlockSize Mock.world Mock.cipher) by by_run.
    assert (Hoff : 0 <= offset req < 2 ^ 63) by by_run.
    assert (Hbs : 0 < blockSize st2 < 2 ^ 31 - 1) by by_run.
    assert (Hpos : 0 < @cipherBlockSize Mock.world Mock.cipher
                       * (32 / @cipherBlockSize Mock.world Mock.cipher)) by by_run.
    destruct (Hp req st st2 32 full Hpad Hrev Hfetch Hc ltac:(lia) Hoff Hbs Hpos)
      as (res & Hrun & _).
    exists res. unfold req, st in Hrun. rewrite Hrun. by_eval.
Defined.

(** C8, as stated, fails for reads of a padded file: with
    [blockSize() = 1023] a read of 35 bytes is stripped to 32 bytes, a
    length that is not the effective block size, and these are decoded in
    block mode, not in stream mode (the toy cipher's two modes give
    different bytes). *)
Lemma padded_read_is_block_mode_at_any_length :
  let payload := [x01; x02; x03; x04; x05; x06; x07; x08; x09; x0a; x0b; x0c; x0d; x0e; x0f] in
  let stored :=
    snd (blockEncode (payload ++ [x80] ++ repeat x00 16) 5) ++ [xaa; xbb; xcc] in
  let st :=
    Mock.filter (Mock.mkWorld 100 true (0, mkStat S_IFREG 100 42) []
                   [(35, stored)] [] [] [] [] [] [] []) false true false false 1023 0 5 in
  let req := mkIORequest 0 1023 (repeat x00 35) in
  32 <> blockSize st
  /\ fst (readOneBlock 0 req st) = Ret (15, snd (in_place blockDecode stored 32 5))
  /\ snd (in_place blockDecode stored 32 5) <> snd (in_place streamDecode stored 32 5).
Proof.
  intros payload stored st req.
  split; [discriminate | split].
  - by_eval.
  - vm_compute. discriminate.
Qed.

(** ** Reverse virtual-header reader *)

Section ReverseRead.
Context {W : Type} {F : FileIO W} {C : Cipher W} {B : BlockFileIO W}.

Lemma take_length_le (n : Z) (l : list byte) :
  0 <= n <= Z.of_nat (length l) -> Z.of_nat (length (take n l)) = n.
Proof.
  intros Hn. unfold take. rewrite length_firstn. lia.
Qed.

Lemma take_app_exact (n : Z) (l rest : list byte) :
  Z.of_nat (length l) = n -> take n (l ++ rest) = l.
Proof.
  intros Hn. unfold take.
  replace (Z.to_nat n) with (length l + 0)%nat by lia.
  rewrite firstn_app_2. cbn [firstn]. apply app_nil_r.
Qed.

(** The header bytes a request is served: which ones and how many. *)
Lemma served_length (k : Z) (hdr : list byte) :
  length hdr = 8%nat -> 0 <= k <= 8 ->
  Z.of_nat (length (take k (drop (HEADER_SIZE - k) hdr))) = k.
Proof.
  intros Hlen Hk. apply take_length_le.
  unfold drop, HEADER_SIZE. rewrite length_skipn. lia.
Qed.

(** What [read] does on a reverse mount with headers, for every state and
    request.  The requested offset [X] is mapped to the backing offset
    [X - 8].  If that is negative, [min(-(X - 8), requestedLength)] bytes
    of the header just synthesized go to the front of the output buffer,
    and the call returns that count if it is the whole request; the bytes
    are the header's from index [8 - count] on, its last ones.  Otherwise
    the rest of the request is read through the chunker from backing
    offset 0 into the buffer behind the header bytes; a negative result of
    that read is returned as it is, any other is returned with the count
    of header bytes added.  A request at or behind the header is the
    chunker's read at [X - 8]. *)
Theorem reverse_header_read (origReq : IORequest) (st st1 : CipherFileIO W)
    (hdr : list byte) :
  reverseEncryption st = true ->
  haveHeader st = true ->
  generateReverseHeader st = (Ret (0, hdr), st1) ->
  length hdr = 8%nat ->
  0 <= offset origReq < 2 ^ 62 ->
  0 <= dataLen origReq < 2 ^ 63 ->
  let mapped := offset origReq - HEADER_SIZE in
  let headerBytes := Z.min (- mapped) (dataLen origReq) in
  let served := take headerBytes (drop (HEADER_SIZE - headerBytes) hdr) in
  (mapped < 0 ->
   Z.of_nat (length served) = headerBytes
   /\ (headerBytes = dataLen origReq ->
       read origReq st
         = (Ret (headerBytes, served ++ drop headerBytes (data origReq)), st1))
   /\ (headerBytes < dataLen origReq ->
       forall n payload st2,
         BlockFileIO_read
           (mkIORequest 0 (dataLen origReq - headerBytes)
              (drop headerBytes (served ++ drop headerBytes (data origReq)))) st1
           = (Ret (n, payload), st2) ->
         - 2 ^ 63 <= n < 2 ^ 62 ->
         read origReq st
           = (Ret (if n <? 0 then n else headerBytes + n, served ++ payload), st2)))
  /\ (0 <= mapped ->
      forall n payload st2,
        BlockFileIO_read (mkIORequest mapped (dataLen origReq) (data origReq)) st1
          = (Ret (n, payload), st2) ->
        - 2 ^ 63 <= n < 2 ^ 62 ->
        read origReq st = (Ret (n, payload), st2)).
Proof.
  intros Hrev Hhdr Hgen Hlen Hoff Hdl mapped headerBytes served.
  assert (Hstart : read origReq st =
    (let off := s64 (offset origReq - HEADER_SIZE) in
     if off <? 0 then
       let headerBytes0 := s32 (s64 (- off)) in
       let headerBytes :=
         if dataLen origReq <? u64 headerBytes0 then s32 (dataLen origReq)
         else headerBytes0 in
       let headerOffset := s32 (HEADER_SIZE - headerBytes) in
       let copied := take headerBytes (drop headerOffset hdr) in
       let data1 := copied ++ drop headerBytes (data origReq) in
       if u64 headerBytes =? dataLen origReq then ret (headerBytes, data1)
       else
         let off1 := s64 (off + headerBytes) in
         rAssert (off1 =? 0) "req.offset == 0" ;;;
         r <- BlockFileIO_read
                (mkIORequest off1 (u64 (dataLen origReq - headerBytes))
                             (drop headerBytes data1)) ;;
         let readBytes := fst r in
         if readBytes <? 0 then ret (readBytes, take headerBytes data1 ++ snd r)
         else ret (s64 (headerBytes + readBytes), take headerBytes data1 ++ snd r)
     else
       r <- BlockFileIO_read (mkIORequest off (dataLen origReq) (data origReq)) ;;
       let readBytes := fst r in
       if readBytes <? 0 then ret (readBytes, snd r)
       else ret (s64 (0 + readBytes), snd r)) st1).
  { unfold read. unfold bind at 1. unfold get at 1.
    rewrite Hrev, Hhdr. cbn [andb negb].
    unfold bind at 1. rewrite Hgen. cbn [fst snd]. reflexivity. }
  rewrite Hstart. clear Hstart. cbv zeta.
  unfold HEADER_SIZE in *.
  rewrite (s64_id (z := offset origReq - 8)) by lia.
  fold mapped.
  split.
  - intros Hneg.
    destruct (Z.ltb_spec mapped 0) as [_ | Hge]; [| lia].
    rewrite (s64_id (z := - mapped)) by lia.
    rewrite (s32_id (z := - mapped)) by lia.
    rewrite (u64_id (z := - mapped)) by lia.
    assert (Hhb : (if dataLen origReq <? - mapped then s32 (dataLen origReq) else - mapped)
                  = headerBytes).
    { subst headerBytes. destruct (Z.ltb_spec (dataLen origReq) (- mapped)).
      - rewrite s32_id by lia. lia.
      - lia. }
    rewrite Hhb.
    assert (Hrange : 0 <= headerBytes <= 8) by (subst headerBytes mapped; lia).
    rewrite (s32_id (z := 8 - headerBytes)) by lia.
    rewrite (u64_id (z := headerBytes)) by lia.
    fold served.
    pose proof (served_length (k := headerBytes) hdr Hlen Hrange) as Hserved.
    fold served in Hserved.
    split; [exact Hserved | split].
    + intros Hall. rewrite Hall, Z.eqb_refl. rewrite <- Hall. reflexivity.
    + intros Hmore n payload st2 Hread Hn.
      destruct (Z.eqb_spec headerBytes (dataLen origReq)) as [E | _]; [lia |].
      assert (Hexact : headerBytes = - mapped) by (subst headerBytes; lia).
      replace (mapped + headerBytes) with 0 by lia.
      rewrite (s64_id (z := 0)) by lia.
      rewrite (u64_id (z := dataLen origReq - headerBytes)) by lia.
      run_monad. cbn [Z.eqb]. rewrite Hread. cbn [fst snd].
      rewrite (take_app_exact _ _ Hserved).
      destruct (Z.ltb_spec n 0) as [Hn0 | Hn0]; [reflexivity |].
      rewrite s64_id by lia. reflexivity.
  - intros Hge n payload st2 Hread Hn.
    destruct (Z.ltb_spec mapped 0) as [Hlt | _]; [lia |].
    run_monad. rewrite Hread. cbn [fst snd].
    destruct (Z.ltb_spec n 0) as [Hn0 | Hn0]; [reflexivity |].
    rewrite s64_id by lia. reflexivity.
Qed.

End ReverseRead.

(** Reads on a reverse mount with headers, external IV 7 and inode 42 (the
    toy header is [31 07 07 07 07 07 07 07]): four bytes at offset 0 are
    served from the header alone; twenty bytes at offset 3 are five header
    bytes and fifteen bytes of the chunker's read at offset 0; a failing
    chunker read is returned as it is; a read at offset 16 is the
    chunker's read at offset 8. *)
Lemma reverse_header_read_run :
  let file (script : list (Z * list byte)) :=
    Mock.filter (Mock.mkWorld 100 false (0, mkStat S_IFREG 100 42) []
                   [] [] [] [] [] [] script []) true false true false 1024 7 0 in
  let hdr := [x31; x07; x07; x07; x07; x07; x07; x07] in
  fst (read (mkIORequest 0 4 (repeat x00 4)) (file []))
    = Ret (4, [x07; x07; x07; x07])
  /\ fst (read (mkIORequest 3 20 (repeat x00 20)) (file [(15, repeat x55 15)]))
     = Ret (20, [x07; x07; x07; x07; x07] ++ repeat x55 15)
  /\ fst (read (mkIORequest 3 20 (repeat x00 20)) (file [(-5, repeat x00 15)]))
     = Ret (-5, [x07; x07; x07; x07; x07] ++ repeat x00 15)
  /\ fst (read (mkIORequest 16 20 (repeat x00 20)) (file [(20, repeat x55 20)]))
     = Ret (20, repeat x55 20).
Proof.
  intros file hdr.
  split; [| split; [| split]].
  - pose (req := mkIORequest 0 4 (repeat x00 4)).
    pose (st := file []).
    pose (st1 := snd (generateReverseHeader st)).
    assert (Hrev : reverseEncryption st = true) by by_eval.
    assert (Hhdr : haveHeader st = true) by by_eval.
    assert (Hgen : generateReverseHeader st = (Ret (0, hdr), st1)) by by_eval.
    assert (Hoff : 0 <= offset req < 2 ^ 62) by by_run.
    assert (Hdl : 0 <= dataLen req < 2 ^ 63) by by_run.
    pose proof (reverse_header_read req st Hrev Hhdr Hgen ltac:(reflexivity) Hoff Hdl) as T.
    cbv zeta in T. destruct T as (Hhead & Hbehind).
    destruct (Hhead ltac:(by_run)) as (_ & Hall & _).
    pose proof (Hall ltac:(by_eval)) as E.
    unfold req, st in E. rewrite E. by_eval.
  - pose (req := mkIORequest 3 20 (repeat x00 20)).
    pose (st := file [(15, repeat x55 15)]).
    pose (st1 := snd (generateReverseHeader st)).
    assert (Hrev : reverseEncryption st = true) by by_eval.
    assert (Hhdr : haveHeader st = true) by by_eval.
    assert (Hgen : generateReverseHeader st = (Ret (0, hdr), st1)) by by_eval.
    assert (Hoff : 0 <= offset req < 2 ^ 62) by by_run.
    assert (Hdl : 0 <= dataLen req < 2 ^ 63) by by_run.
    pose proof (reverse_header_read req st Hrev Hhdr Hgen ltac:(reflexivity) Hoff Hdl) as T.
    cbv zeta in T. destruct T as (Hhead & Hbehind).
    destruct (Hhead ltac:(by_run)) as (_ & _ & Hmore).
    pose (rest := mkIORequest 0 15 (repeat x00 15)).
    pose (st2 := snd (BlockFileIO_read rest st1)).
    assert (Hread : BlockFileIO_read rest st1 = (Ret (15, repeat x55 15), st2)) by by_eval.
    pose proof (Hmore ltac:(by_run) (15) (repeat x55 15) st2 Hread ltac:(lia)) as E.
    unfold req, st in E. rewrite E. by_eval.
  - pose (req := mkIORequest 3 20 (repeat x00 20)).
    pose (st := file [(-5, repeat x00 15)]).
    pose (st1 := snd (generateReverseHeader st)).
    assert (Hrev : reverseEncryption st = true) by by_eval.
    assert (Hhdr : haveHeader st = true) by by_eval.
    assert (Hgen : generateReverseHeader st = (Ret (0, hdr), st1)) by by_eval.
    assert (Hoff : 0 <= offset req < 2 ^ 62) by by_run.
    assert (Hdl : 0 <= dataLen req < 2 ^ 63) by by_run.
    pose proof (reverse_header_read req st Hrev Hhdr Hgen ltac:(reflexivity) Hoff Hdl) as T.
    cbv zeta in T. destruct T as (Hhead & Hbehind).
    destruct (Hhead ltac:(by_run)) as (_ & _ & Hmore).
    pose (rest := mkIORequest 0 15 (repeat x00 15)).
    pose (st2 := snd (BlockFileIO_read rest st1)).
    assert (Hread : BlockFileIO_read rest st1 = (Ret (-5, repeat x00 15), st2)) by by_eval.
    pose proof (Hmore ltac:(by_run) (-5) (repeat x00 15) st2 Hread ltac:(lia)) as E.
    unfold req, st in E. rewrite E. by_eval.
  - pose (req := mkIORequest 16 20 (repeat x00 20)).
    pose (st := file [(20, repeat x55 20)]).
    pose (st1 := snd (generateReverseHeader st)).
    assert (Hrev : reverseEncryption st = true) by by_eval.
    assert (Hhdr : haveHeader st = true) by by_eval.
    assert (Hgen : generateReverseHeader st = (Ret (0, hdr), st1)) by by_eval.
    assert (Hoff : 0 <= offset req < 2 ^ 62) by by_run.
    assert (Hdl : 0 <= dataLen req < 2 ^ 63) by by_run.
    pose proof (reverse_header_read req st Hrev Hhdr Hgen ltac:(reflexivity) Hoff Hdl) as T.
    cbv zeta in T. destruct T as (Hhead & Hbehind).
    pose (rest := mkIORequest 8 20 (repeat x00 20)).
    pose (st2 := snd (BlockFileIO_read rest st1)).
    assert (Hread : BlockFileIO_read rest st1 = (Ret (20, repeat x55 20), st2)) by by_eval.
    pose proof (Hbehind ltac:(by_run) 20 (repeat x55 20) st2 Hread ltac:(lia)) as E.
    unfold req, st in E. rewrite E. by_eval.
Defined.

(** C5 (the code departs from it).  A reverse mount with headers and the
    external IV 7 over a file with the inode number
    [0x0807060504030201], whose synthesized header is
    [08 09 0a 0b 0c 0d 0e 0f].  A read of four bytes at offset 0 returns
    the count 4 with the header's bytes 4..7, not its bytes 0..3; a read
    of three bytes at offset 2 returns the count 3 with the header's
    bytes 5..7, not its bytes 2..4.  Only a request that reaches the end
    of the header is served the bytes at its offset: six bytes at offset
    5 are the header's bytes 5..7 and three bytes of the chunker's read
    at offset 0. *)
Theorem reverse_read_serves_the_end_of_the_header :
  let file (script : list (Z * list byte)) :=
    Mock.filter (Mock.mkWorld 100 false (0, mkStat S_IFREG 100 578437695752307201) []
                   [] [] [] [] [] [] script []) true false true false 1024 7 0 in
  let hdr := [x08; x09; x0a; x0b; x0c; x0d; x0e; x0f] in
  fst (generateReverseHeader (file [])) = Ret (0, hdr)
  /\ (fst (read (mkIORequest 0 4 (repeat x00 4)) (file []))
      = Ret (4, take 4 (drop 4 hdr))
      /\ take 4 (drop 4 hdr) <> take 4 (drop 0 hdr))
  /\ (fst (read (mkIORequest 2 3 (repeat x00 3)) (file []))
      = Ret (3, take 3 (drop 5 hdr))
      /\ take 3 (drop 5 hdr) <> take 3 (drop 2 hdr))
  /\ fst (read (mkIORequest 5 6 (repeat x00 6)) (file [(3, repeat x55 3)]))
     = Ret (6, take 3 (drop 5 hdr) ++ repeat x55 3).
Proof.
  intros file hdr.
  split; [by_eval | split; [| split]].
  - split; [by_eval | vm_compute; discriminate].
  - split; [by_eval | vm_compute; discriminate].
  - by_eval.
Qed.

(** * Further properties of the filter *)

(** ** Serialisation of the file IV and of the inode number *)

Lemma byte_of_to_Z (z : Z) : byte_to_Z (byte_of_Z z) = z mod 256.
Proof.
  pose proof (Z.mod_pos_bound z 256 ltac:(lia)) as Hm.
  unfold byte_of_Z, byte_to_Z.
  destruct (Byte.of_N (Z.to_N (z mod 256))) as [b |] eqn:E.
  - apply Byte.to_of_N in E. rewrite E. apply Z2N.id. lia.
  - pose proof (Byte.to_of_N_option_map (Z.to_N (z mod 256))) as Hopt.
    rewrite E in Hopt. cbn [option_map] in Hopt.
    destruct (N.leb_spec (Z.to_N (z mod 256)) 255) as [Hle | Hgt]; [discriminate |].
    lia.
Qed.

Lemma land_255 (x : Z) : Z.land x 255 = x mod 256.
Proof. change 255 with (Z.ones 8). rewrite Z.land_ones by lia. reflexivity. Qed.

(** Eight base-256 digits make up a 64-bit number. *)
Lemma base256_digits (v : Z) :
  0 <= v < 2 ^ 64 ->
  let q1 := v / 256 in let q2 := q1 / 256 in let q3 := q2 / 256 in
  let q4 := q3 / 256 in let q5 := q4 / 256 in let q6 := q5 / 256 in
  let q7 := q6 / 256 in
  v = v mod 256 + 256 * (q1 mod 256 + 256 * (q2 mod 256 + 256 * (q3 mod 256
      + 256 * (q4 mod 256 + 256 * (q5 mod 256 + 256 * (q6 mod 256
      + 256 * (q7 mod 256))))))).
Proof.
  intros Hv q1 q2 q3 q4 q5 q6 q7.
  pose proof (Z.div_mod v 256 ltac:(lia)) as E0.
  pose proof (Z.div_mod q1 256 ltac:(lia)) as E1.
  pose proof (Z.div_mod q2 256 ltac:(lia)) as E2.
  pose proof (Z.div_mod q3 256 ltac:(lia)) as E3.
  pose proof (Z.div_mod q4 256 ltac:(lia)) as E4.
  pose proof (Z.div_mod q5 256 ltac:(lia)) as E5.
  pose proof (Z.div_mod q6 256 ltac:(lia)) as E6.
  pose proof (Z.div_mod q7 256 ltac:(lia)) as E7.
  pose proof (Z.mod_pos_bound v 256 ltac:(lia)) as B0.
  pose proof (Z.mod_pos_bound q1 256 ltac:(lia)) as B1.
  pose proof (Z.mod_pos_bound q2 256 ltac:(lia)) as B2.
  pose proof (Z.mod_pos_bound q3 256 ltac:(lia)) as B3.
  pose proof (Z.mod_pos_bound q4 256 ltac:(lia)) as B4.
  pose proof (Z.mod_pos_bound q5 256 ltac:(lia)) as B5.
  pose proof (Z.mod_pos_bound q6 256 ltac:(lia)) as B6.
  pose proof (Z.mod_pos_bound q7 256 ltac:(lia)) as B7.
  fold q1 in E0. fold q2 in E1. fold q3 in E2. fold q4 in E3.
  fold q5 in E4. fold q6 in E5. fold q7 in E6.
  assert (Hq8 : q7 / 256 = 0).
  { apply Z.div_small. clearbody q1 q2 q3 q4 q5 q6 q7. lia. }
  rewrite Hq8 in E7.
  clearbody q1 q2 q3 q4 q5 q6 q7. lia.
Qed.

Lemma serialized_fileIV_length (v : Z) : length (serialized_fileIV v) = 8%nat.
Proof. reflexivity. Qed.

Lemma serialized_fileIV_decodes (v : Z) :
  0 <= v < 2 ^ 64 -> decodeIV (serialized_fileIV v) = v.
Proof.
  intros Hv.
  rewrite (decodeIV_be64 (serialized_fileIV v) (serialized_fileIV_length v)).
  unfold serialized_fileIV, spec_be64.
  cbn [seq fold_left writeHeader_round fst snd repeat set_index Nat.sub].
  rewrite !byte_of_to_Z, !land_255, !Z.mod_mod by lia.
  rewrite !Z.shiftr_div_pow2 by lia. change (2 ^ 8) with 256.
  pose proof (base256_digits Hv) as D. cbv zeta in D.
  lia.
Qed.

Lemma serialize_ino_length (ino : Z) : length (serialize_ino ino) = 8%nat.
Proof. reflexivity. Qed.

Lemma serialize_ino_decodes (ino : Z) :
  0 <= ino < 2 ^ 64 -> spec_le64 (serialize_ino ino) = ino.
Proof.
  intros Hv.
  unfold serialize_ino, spec_le64.
  cbn [seq map fold_right].
  rewrite !byte_of_to_Z, !land_255, !Z.mod_mod by lia.
  change (8 * Z.of_nat 0) with 0. change (8 * Z.of_nat 1) with 8.
  change (8 * Z.of_nat 2) with (8 + 8). change (8 * Z.of_nat 3) with (8 + 8 + 8).
  change (8 * Z.of_nat 4) with (8 + 8 + 8 + 8).
  change (8 * Z.of_nat 5) with (8 + 8 + 8 + 8 + 8).
  change (8 * Z.of_nat 6) with (8 + 8 + 8 + 8 + 8 + 8).
  change (8 * Z.of_nat 7) with (8 + 8 + 8 + 8 + 8 + 8 + 8).
  rewrite Z.shiftr_0_r.
  rewrite <- !Z.shiftr_shiftr by lia.
  rewrite !Z.shiftr_div_pow2 by lia. change (2 ^ 8) with 256.
  pose proof (base256_digits Hv) as D. cbv zeta in D.
  lia.
Qed.

(** ** The header on disk *)

Section HeaderOnDisk.
Context {W : Type} {F : FileIO W} {C : Cipher W}.

(** [writeHeader] without its loop: the member is zero, and the bytes of
    the old value go through the stream cipher and to offset 0. *)
Lemma writeHeader_unfolded (st : CipherFileIO W) :
  0 <= fileIV st < 2 ^ 64 ->
  writeHeader st =
    (let enc := streamEncode (serialized_fileIV (fileIV st)) (externalIV st) in
     if negb (fst enc) then ret false
     else res <- on_base (base_write (mkIORequest 0 8 (snd enc))) ;; ret (res >=? 0))
      (set_fileIV 0 st).
Proof.
  intros Hr.
  assert (Hz : Z.shiftr (fileIV st) 64 = 0).
  { rewrite Z.shiftr_div_pow2 by lia. apply Z.div_small. exact Hr. }
  unfold writeHeader.
  unfold bind at 1. unfold get at 1.
  unfold bind at 1. unfold modify at 1.
  rewrite shiftr_8_rounds, Hz.
  fold (serialized_fileIV (fileIV st)).
  unfold in_place.
  change (take 8 (serialized_fileIV (fileIV st))) with (serialized_fileIV (fileIV st)).
  change (drop 8 (serialized_fileIV (fileIV st))) with (@nil byte).
  cbv zeta.
  destruct (streamEncode (serialized_fileIV (fileIV st)) (externalIV st)) as [ok out].
  rewrite app_nil_r. reflexivity.
Qed.

(** X1.  The eight bytes the loop of [writeHeader] produces for a 64-bit
    file IV are its big-endian digits, and the loop of [initHeader] reads
    them back as the same IV. *)
Theorem fileIV_serialisation_round_trip (v : Z) :
  0 <= v < 2 ^ 64 ->
  length (serialized_fileIV v) = 8%nat
  /\ decodeIV (serialized_fileIV v) = v
  /\ spec_be64 (serialized_fileIV v) = v.
Proof.
  intros Hv.
  pose proof (serialized_fileIV_decodes Hv) as Hd.
  split; [apply serialized_fileIV_length | split; [exact Hd |]].
  rewrite <- (decodeIV_be64 (serialized_fileIV v) (serialized_fileIV_length v)).
  exact Hd.
Qed.

(** X2.  [writeHeader] sends the serialised file IV through the stream
    cipher under the external IV and writes the eight bytes at offset 0;
    it reports whether that write returned a non-negative value.  When the
    cipher fails nothing is written.  In every case the member [fileIV]
    is zero afterwards. *)
Theorem writeHeader_effect (st : CipherFileIO W) :
  0 <= fileIV st < 2 ^ 64 ->
  forall ok enc,
    streamEncode (serialized_fileIV (fileIV st)) (externalIV st) = (ok, enc) ->
    (ok = false -> writeHeader st = (Ret false, set_fileIV 0 st))
    /\ (ok = true ->
        forall res w1,
          base_write (mkIORequest 0 8 enc) (base st) = (res, w1) ->
          writeHeader st = (Ret (res >=? 0), set_base w1 (set_fileIV 0 st))).
Proof.
  intros Hr ok enc Henc.
  rewrite (writeHeader_unfolded st Hr). cbv zeta. rewrite Henc. cbn [fst snd].
  split.
  - intros ->. reflexivity.
  - intros -> res w1 Hwrite. cbn [negb].
    run_monad. cbn [base set_fileIV]. rewrite Hwrite. reflexivity.
Qed.

(** X3.  A header written by [writeHeader] is read back by [initHeader]
    as the file IV it was written for: if the cipher decodes what it
    encoded and the backing file returns the eight bytes it was given,
    the file IV that [writeHeader] cleared is re-established. *)
Theorem header_write_then_read (fuel : nat) (st : CipherFileIO W) :
  0 < fileIV st < 2 ^ 64 ->
  forall enc res w1,
    streamEncode (serialized_fileIV (fileIV st)) (externalIV st) = (true, enc) ->
    base_write (mkIORequest 0 8 enc) (base st) = (res, w1) ->
    0 <= res ->
    streamDecode (take 8 enc) (externalIV st) = (true, serialized_fileIV (fileIV st)) ->
    HEADER_SIZE <= base_getSize w1 ->
    forall n w2,
      base_read (mkIORequest 0 8 (repeat x00 8)) w1 = ((n, enc), w2) ->
      0 <= n ->
      exists st1,
        writeHeader st = (Ret true, st1)
        /\ fileIV st1 = 0
        /\ initHeader fuel st1 = (Ret 0, set_base w2 st).
Proof.
  intros Hv enc res w1 Henc Hwrite Hres Hdec Hsize n w2 Hread Hn.
  assert (Hr : 0 <= fileIV st < 2 ^ 64) by lia.
  assert (Hok : writeHeader st = (Ret (res >=? 0), set_base w1 (set_fileIV 0 st))).
  { rewrite (writeHeader_unfolded st Hr). cbv zeta. rewrite Henc. cbn [fst snd negb].
    run_monad. cbn [base set_fileIV]. rewrite Hwrite. reflexivity. }
  exists (set_base w1 (set_fileIV 0 st)).
  split; [| split].
  - rewrite Hok. destruct (Z.geb_spec res 0); [reflexivity | lia].
  - reflexivity.
  - set (st1 := set_base w1 (set_fileIV 0 st)).
    assert (Hb : base st1 = w1) by reflexivity.
    assert (He : externalIV st1 = externalIV st) by reflexivity.
    unfold initHeader. run_monad. rewrite Hb, He.
    destruct (Z.geb_spec (base_getSize w1) HEADER_SIZE) as [_ | Hlt]; [| lia].
    rewrite Hb, Hread. cbn [fst snd].
    destruct (Z.ltb_spec n 0) as [Hneg | _]; [lia |].
    rewrite in_place_take, Hdec. cbn [fst snd negb].
    rewrite (serialized_fileIV_decodes Hr).
    destruct (Z.eqb_spec (fileIV st) 0) as [E | _]; [lia |].
    cbn [negb]. subst st1. destruct st; reflexivity.
Qed.

End HeaderOnDisk.

(** The file IV 258 serialises to [00 00 00 00 00 00 01 02]. *)
Lemma fileIV_serialisation_round_trip_run :
  serialized_fileIV 258 = [x00; x00; x00; x00; x00; x00; x01; x02]
  /\ decodeIV (serialized_fileIV 258) = 258.
Proof.
  assert (Hv : 0 <= 258 < 2 ^ 64) by lia.
  destruct (fileIV_serialisation_round_trip Hv) as (_ & Hd & _).
  split; [by_eval | exact Hd].
Defined.

(** The file IV 258 under the external IV 7: the toy cipher writes
    [07 07 07 07 07 07 08 09]; a failing write is reported as [false]. *)
Lemma writeHeader_effect_run :
  let st := Mock.filter (Mock.regular 100 true) true false false false 1024 7 258 in
  let failing :=
    Mock.filter (Mock.mkWorld 100 true (0, mkStat S_IFREG 100 42) []
                   [] [-5] [] [] [] [] [] []) true false false false 1024 7 258 in
  (fst (writeHeader st) = Ret true
   /\ Mock.log (base (snd (writeHeader st)))
      = [Mock.EvWrite 0 8 [x07; x07; x07; x07; x07; x07; x08; x09]]
   /\ fileIV (snd (writeHeader st)) = 0)
  /\ fst (writeHeader failing) = Ret false.
Proof.
  intros st failing.
  pose (enc := [x07; x07; x07; x07; x07; x07; x08; x09]).
  split.
  - assert (Hr : 0 <= fileIV st < 2 ^ 64) by by_run.
    assert (Henc : streamEncode (serialized_fileIV (fileIV st)) (externalIV st) = (true, enc))
      by by_eval.
    pose (w1 := snd (base_write (mkIORequest 0 8 enc) (base st))).
    assert (Hwrite : base_write (mkIORequest 0 8 enc) (base st) = (8, w1)) by by_eval.
    destruct (writeHeader_effect st Hr Henc) as [_ Hok].
    pose proof (Hok eq_refl 8 w1 Hwrite) as E.
    rewrite E. by_run.
  - assert (Hr : 0 <= fileIV failing < 2 ^ 64) by by_run.
    assert (Henc : streamEncode (serialized_fileIV (fileIV failing)) (externalIV failing)
                   = (true, enc)) by by_eval.
    pose (w1 := snd (base_write (mkIORequest 0 8 enc) (base failing))).
    assert (Hwrite : base_write (mkIORequest 0 8 enc) (base failing) = (-5, w1)) by by_eval.
    destruct (writeHeader_effect failing Hr Henc) as [_ Hok].
    pose proof (Hok eq_refl (-5) w1 Hwrite) as E.
    rewrite E. by_eval.
Defined.

(** The header of the file IV 258 is written and read back on a backing
    file that returns the bytes written. *)
Lemma header_write_then_read_run :
  let enc := [x07; x07; x07; x07; x07; x07; x08; x09] in
  let st :=
    Mock.filter (Mock.mkWorld 8 true (0, mkStat S_IFREG 8 42) []
                   [(8, enc)] [] [] [] [] [] [] []) true false false false 1024 7 258 in
  exists st1,
    writeHeader st = (Ret true, st1)
    /\ fileIV st1 = 0
    /\ fileIV (snd (initHeader 0 st1)) = 258.
Proof.
  intros enc st.
  assert (Hv : 0 < fileIV st < 2 ^ 64) by by_run.
  assert (Henc : streamEncode (serialized_fileIV (fileIV st)) (externalIV st) = (true, enc))
    by by_eval.
  pose (w1 := snd (base_write (mkIORequest 0 8 enc) (base st))).
  assert (Hwrite : base_write (mkIORequest 0 8 enc) (base st) = (8, w1)) by by_eval.
  assert (Hdec : streamDecode (take 8 enc) (externalIV st)
                 = (true, serialized_fileIV (fileIV st))) by by_eval.
  assert (Hsize : HEADER_SIZE <= base_getSize w1) by by_run.
  pose (w2 := snd (base_read (mkIORequest 0 8 (repeat x00 8)) w1)).
  assert (Hread : base_read (mkIORequest 0 8 (repeat x00 8)) w1 = ((8, enc), w2)) by by_eval.
  destruct (header_write_then_read 0 st Hv Henc Hwrite ltac:(lia) Hdec Hsize Hread ltac:(lia))
    as (st1 & Hw & Hz & Hi).
  exists st1. split; [exact Hw | split; [exact Hz |]].
  rewrite Hi. reflexivity.
Defined.

(** ** What [initHeader] returns *)

Section InitHeaderResults.
Context {W : Type} {F : FileIO W} {C : Cipher W}.

(** The random-IV loop ends with [-EBADMSG] or with bytes whose non-zero
    value it has stored. *)
Lemma randomIV_loop_result (n : nat) :
  forall (st st1 : CipherFileIO W) (r : Z + list byte),
    randomIV_loop n st = (Ret r, st1) ->
    match r with
    | inl e => e = - EBADMSG
    | inr buf => fileIV st1 = decodeIV buf /\ decodeIV buf <> 0
    end.
Proof.
  induction n as [| n IH]; intros st st1 r H.
  - cbn [randomIV_loop] in H. discriminate.
  - cbn [randomIV_loop] in H. run_monad.
    destruct (randomize 8 (base st)) as [[ok buf] w1]. cbn [fst snd] in H.
    destruct ok; cbn [negb] in H.
    + destruct (Z.eqb_spec (decodeIV buf) 0) as [E | E].
      * apply IH in H. exact H.
      * inversion H; subst. split; [reflexivity | exact E].
    + inversion H; subst. reflexivity.
Qed.

(** A failing draw after [k] zero draws ends the loop with [-EBADMSG]. *)
Lemma randomIV_loop_fails (k : nat) :
  forall (w w' : W),
    zero_draws k w w' ->
    forall (n : nat) (st : CipherFileIO W) (rnd : list byte) (w2 : W),
      base st = w ->
      randomize 8 w' = ((false, rnd), w2) ->
      (k < n)%nat ->
      exists st1,
        randomIV_loop n st = (Ret (inl (- EBADMSG)), st1)
        /\ base st1 = w2
        /\ fileIV st1 = (match k with O => fileIV st | S _ => 0 end).
Proof.
  induction k as [| k IH]; intros w w' Hzero n st rnd w2 Hbase Hlast Hfuel.
  - cbn [zero_draws] in Hzero. subst w'.
    destruct n as [| n]; [lia |].
    cbn [randomIV_loop]. run_monad. rewrite Hbase, Hlast. cbn [fst snd negb].
    eexists. split; [reflexivity | split; reflexivity].
  - cbn [zero_draws] in Hzero. destruct Hzero as (buf & w1 & Hdraw & Hnull & Hrest).
    destruct n as [| n]; [lia |].
    cbn [randomIV_loop]. run_monad. rewrite Hbase, Hdraw. cbn [fst snd negb].
    rewrite Hnull. cbn [Z.eqb].
    destruct (IH w1 w' Hrest n (set_fileIV 0 (set_base w1 st)) rnd w2
                eq_refl Hlast ltac:(lia)) as (st1 & Hrun & Hb & Hf).
    exists st1. split; [exact Hrun | split; [exact Hb |]].
    rewrite Hf. destruct k; reflexivity.
Qed.

(** X4.  Whenever [initHeader] returns, its value is 0 with a non-zero
    file IV established; or [-EBADMSG]; or the negative result of its
    header read, converted to [int], with the filter as it was but for
    the backing file; or the negative result of its header write,
    converted to [int], with the freshly drawn non-zero file IV in
    place.  A non-negative return value therefore comes with a non-zero
    file IV, unless the header read itself returned a value below
    [-2^31] that the conversion to [int] made non-negative. *)
Theorem initHeader_return_values (fuel : nat) (st st' : CipherFileIO W) (r : Z) :
  initHeader fuel st = (Ret r, st') ->
  ((r = 0 /\ fileIV st' <> 0)
   \/ r = - EBADMSG
   \/ (HEADER_SIZE <= base_getSize (base st)
       /\ exists n buf w1,
            base_read (mkIORequest 0 8 (repeat x00 8)) (base st) = ((n, buf), w1)
            /\ n < 0 /\ r = s32 n /\ st' = set_base w1 st)
   \/ (base_getSize (base st) < HEADER_SIZE
       /\ exists rnd st1 enc n w3,
            randomIV_loop fuel st = (Ret (inr rnd), st1)
            /\ streamEncode (take 8 rnd) (externalIV st1) = (true, enc)
            /\ base_write (mkIORequest 0 8 enc) (base st1) = (n, w3)
            /\ n < 0 /\ r = s32 n /\ st' = set_base w3 st1 /\ fileIV st' <> 0))
  /\ (0 <= r ->
      fileIV st' <> 0
      \/ exists n buf w1,
           base_read (mkIORequest 0 8 (repeat x00 8)) (base st) = ((n, buf), w1)
           /\ n < - 2 ^ 31 /\ r = s32 n /\ st' = set_base w1 st).
Proof.
  intros H.
  assert (Hcases :
    (r = 0 /\ fileIV st' <> 0)
    \/ r = - EBADMSG
    \/ (HEADER_SIZE <= base_getSize (base st)
        /\ exists n buf w1,
             base_read (mkIORequest 0 8 (repeat x00 8)) (base st) = ((n, buf), w1)
             /\ n < 0 /\ r = s32 n /\ st' = set_base w1 st)
    \/ (base_getSize (base st) < HEADER_SIZE
        /\ exists rnd st1 enc n w3,
             randomIV_loop fuel st = (Ret (inr rnd), st1)
             /\ streamEncode (take 8 rnd) (externalIV st1) = (true, enc)
             /\ base_write (mkIORequest 0 8 enc) (base st1) = (n, w3)
             /\ n < 0 /\ r = s32 n /\ st' = set_base w3 st1 /\ fileIV st' <> 0)).
  { unfold initHeader in H. unfold bind at 1 in H. unfold get at 1 in H.
    destruct (Z.geb_spec (base_getSize (base st)) HEADER_SIZE) as [Hge | Hlt].
    - unfold bind at 1 in H. unfold on_base at 1 in H.
      destruct (base_read (mkIORequest 0 8 (repeat x00 8)) (base st))
        as [[n buf] w1] eqn:Hread.
      cbn [fst snd] in H.
      destruct (Z.ltb_spec n 0) as [Hneg | _].
      + unfold ret in H. inversion H; subst.
        right; right; left. split; [exact Hge |].
        exists n, buf, w1. repeat split; [exact Hneg].
      + run_monad.
        destruct (in_place streamDecode (take 8 buf) 8 (externalIV st)) as [ok plain].
        cbn [fst snd] in H. destruct ok; cbn [negb] in H.
        * destruct (Z.eqb_spec (decodeIV plain) 0) as [E | E]; cbn [negb] in H.
          -- discriminate.
          -- inversion H; subst. left. split; [reflexivity | exact E].
        * inversion H; subst. right; left. reflexivity.
    - unfold bind at 1 in H.
      destruct (randomIV_loop fuel st) as [[[err | rnd] | text |] st1] eqn:Hloop;
        try discriminate.
      + apply randomIV_loop_result in Hloop. unfold ret in H. inversion H; subst.
        right; left. reflexivity.
      + pose proof (randomIV_loop_result _ _ Hloop) as [Hset Hnz].
        unfold bind at 1 in H. unfold get at 1 in H.
        destruct (base_isWritable (base st1)).
        * rewrite in_place_take in H. cbn [fst snd] in H.
          destruct (streamEncode (take 8 rnd) (externalIV st1)) as [ok enc] eqn:Henc.
          cbn [fst snd] in H. destruct ok; cbn [negb] in H.
          -- unfold bind at 1 in H. unfold on_base at 1 in H.
             destruct (base_write (mkIORequest 0 8 enc) (base st1)) as [wr w3] eqn:Hwrite.
             destruct (Z.ltb_spec wr 0) as [Hneg | _]; unfold ret in H; inversion H; subst.
             ++ right; right; right. split; [exact Hlt |].
                exists rnd, st1, enc, wr, w3.
                repeat split; try assumption.
                cbn [fileIV set_base]. rewrite Hset. exact Hnz.
             ++ left. split; [reflexivity |].
                cbn [fileIV set_base]. rewrite Hset. exact Hnz.
          -- unfold ret in H. inversion H; subst. right; left. reflexivity.
        * unfold ret in H. inversion H; subst. left. split; [reflexivity |].
          rewrite Hset. exact Hnz. }
  split; [exact Hcases |].
  intros Hr.
  destruct Hcases as [[_ Hnz] | [E | [(_ & n & buf & w1 & Hread & Hn & E & Est)
                                   | (_ & rnd & st1 & enc & n & w3 & _ & _ & _ & _ & _ & _ & Hnz)]]].
  - left. exact Hnz.
  - unfold EBADMSG in E. lia.
  - destruct (Z.lt_ge_cases n (- 2 ^ 31)) as [Hlow | Hin].
    + right. exists n, buf, w1. repeat split; assumption.
    + rewrite s32_id in E by lia. lia.
  - left. exact Hnz.
Qed.

(** X5.  How [initHeader] fails.  An error of the header read is returned
    (as an [int]) before the cipher is consulted, and the file IV is left
    as it was.  When a new header is to be created: a failing random
    source gives [-EBADMSG]; a failing encryption gives [-EBADMSG] and
    nothing is written; a failing write gives its (negative) result.  In
    the last two cases the member [fileIV] keeps the freshly drawn,
    non-zero IV although no header reached the backing file. *)
Theorem initHeader_failures (fuel : nat) (st : CipherFileIO W) :
  (HEADER_SIZE <= base_getSize (base st) ->
   forall n buf w1,
     base_read (mkIORequest 0 8 (repeat x00 8)) (base st) = ((n, buf), w1) ->
     n < 0 ->
     initHeader fuel st = (Ret (s32 n), set_base w1 st))
  /\ (base_getSize (base st) < HEADER_SIZE ->
      forall k w',
        zero_draws k (base st) w' ->
        (k < fuel)%nat ->
        forall ok rnd w2,
          randomize 8 w' = ((ok, rnd), w2) ->
          (ok = false ->
           exists st1,
             initHeader fuel st = (Ret (- EBADMSG), st1) /\ base st1 = w2)
          /\ (ok = true -> decodeIV rnd <> 0 -> base_isWritable w2 = true ->
              let st2 := set_fileIV (decodeIV rnd) (set_base w2 st) in
              forall encOk enc,
                streamEncode (take 8 rnd) (externalIV st) = (encOk, enc) ->
                (encOk = false -> initHeader fuel st = (Ret (- EBADMSG), st2))
                /\ (encOk = true ->
                    forall wr w3,
                      base_write (mkIORequest 0 8 enc) w2 = (wr, w3) ->
                      wr < 0 ->
                      initHeader fuel st = (Ret (s32 wr), set_base w3 st2)
                      /\ fileIV (set_base w3 st2) <> 0))).
Proof.
  split.
  - intros Hsize n buf w1 Hread Hn.
    unfold initHeader. run_monad.
    destruct (Z.geb_spec (base_getSize (base st)) HEADER_SIZE) as [_ | Hlt]; [| lia].
    rewrite Hread. cbn [fst snd].
    destruct (Z.ltb_spec n 0) as [_ | Hge]; [reflexivity | lia].
  - intros Hsize k w' Hzero Hfuel ok rnd w2 Hdraw.
    split.
    + intros ->.
      destruct (randomIV_loop_fails w' Hzero st eq_refl Hdraw Hfuel)
        as (st1 & Hrun & Hb & _).
      exists st1. split; [| exact Hb].
      unfold initHeader. run_monad.
      destruct (Z.geb_spec (base_getSize (base st)) HEADER_SIZE) as [Hge | _]; [lia |].
      rewrite Hrun. reflexivity.
    + intros -> Hnz Hrw st2 encOk enc Henc.
      assert (Hstart : initHeader fuel st =
        (let e := in_place streamEncode (take 8 rnd) 8 (externalIV st) in
         if negb (fst e) then ret (- EBADMSG)
         else
           writeSize <- on_base (base_write (mkIORequest 0 8 (snd e))) ;;
           if writeSize <? 0 then ret (s32 writeSize) else ret 0) st2).
      { unfold initHeader. unfold bind at 1. unfold get at 1.
        destruct (Z.geb_spec (base_getSize (base st)) HEADER_SIZE) as [Hge | _]; [lia |].
        unfold bind at 1.
        rewrite (randomIV_loop_draws w' Hzero st eq_refl Hdraw Hnz Hfuel).
        fold st2. unfold bind at 1. unfold get at 1.
        change (base st2) with w2. rewrite Hrw.
        reflexivity. }
      rewrite Hstart. cbv zeta. rewrite in_place_take, Henc. cbn [fst snd].
      split.
      * intros ->. reflexivity.
      * intros -> wr w3 Hwrite Hwr. cbn [negb]. run_monad.
        change (base st2) with w2. rewrite Hwrite.
        destruct (Z.ltb_spec wr 0) as [_ | Hge]; [| lia].
        split; [reflexivity | exact Hnz].
Qed.

End InitHeaderResults.

(** On an existing header that decodes to 258 the call returns 0 and the
    file IV is not zero.  A header read that returns [-2^32] is returned
    as the [int] 0 with the file IV still zero. *)
Lemma initHeader_return_values_run :
  let w := Mock.mkWorld 8 true (0, mkStat S_IFREG 8 42) []
             [(8, [x07; x07; x07; x07; x07; x07; x08; x09])] [] [] [] [] [] [] [] in
  let st := Mock.filter w true false false false 1024 7 0 in
  let cut :=
    Mock.filter (Mock.mkWorld 8 true (0, mkStat S_IFREG 8 42) []
                   [(- 2 ^ 32, repeat x00 8)] [] [] [] [] [] [] [])
      true false false false 1024 7 0 in
  (fst (initHeader 0 st) = Ret 0 /\ fileIV (snd (initHeader 0 st)) <> 0)
  /\ (fst (initHeader 0 cut) = Ret 0 /\ fileIV (snd (initHeader 0 cut)) = 0).
Proof.
  intros w st cut.
  split.
  - pose (st' := snd (initHeader 0 st)).
    assert (E : initHeader 0 st = (Ret 0, st')) by by_eval.
    split; [rewrite E; reflexivity |].
    destruct (initHeader_return_values 0 st E) as [_ H].
    destruct (H ltac:(lia)) as [Hnz | (n & buf & w1 & Hread & Hn & _)].
    + exact Hnz.
    + exfalso.
      assert (Hactual : base_read (mkIORequest 0 8 (repeat x00 8)) (base st)
                        = ((8, [x07; x07; x07; x07; x07; x07; x08; x09]),
                           snd (base_read (mkIORequest 0 8 (repeat x00 8)) (base st))))
        by by_eval.
      rewrite Hactual in Hread. inversion Hread; subst n. lia.
  - pose (st' := snd (initHeader 0 cut)).
    assert (E : initHeader 0 cut = (Ret 0, st')) by by_eval.
    destruct (initHeader_return_values 0 cut E) as [_ H].
    destruct (H ltac:(lia)) as [Hnz | (n & buf & w1 & Hread & Hn & Hr & Hst)].
    + exfalso. apply Hnz. by_eval.
    + split; [rewrite E; reflexivity | by_eval].
Defined.

(** A header read that fails with [-5]; a random source that fails on the
    second draw; a header write that fails with [-28] after the IV 258
    was drawn. *)
Lemma initHeader_failures_run :
  let unreadable :=
    Mock.filter (Mock.mkWorld 8 true (0, mkStat S_IFREG 8 42) []
                   [(-5, repeat x00 8)] [] [] [] [] [] [] []) true false false false 1024 7 0 in
  let noEntropy :=
    Mock.filter (Mock.mkWorld 0 true (0, mkStat S_IFREG 0 42) [] [] [] [] []
                   [(true, repeat x00 8); (false, repeat x00 8)] [] [] [])
      true false false false 1024 7 0 in
  let diskFull :=
    Mock.filter (Mock.mkWorld 0 true (0, mkStat S_IFREG 0 42) [] [] [-28] [] []
                   [(true, [x00; x00; x00; x00; x00; x00; x01; x02])] [] [] [])
      true false false false 1024 7 0 in
  (fst (initHeader 5 unreadable) = Ret (-5)
   /\ fileIV (snd (initHeader 5 unreadable)) = 0)
  /\ fst (initHeader 5 noEntropy) = Ret (- EBADMSG)
  /\ (fst (initHeader 5 diskFull) = Ret (-28)
      /\ fileIV (snd (initHeader 5 diskFull)) = 258).
Proof.
  intros unreadable noEntropy diskFull.
  split; [| split].
  - destruct (initHeader_failures 5 unreadable) as [Hread _].
    pose (w1 := snd (base_read (mkIORequest 0 8 (repeat x00 8)) (base unreadable))).
    assert (Hr : base_read (mkIORequest 0 8 (repeat x00 8)) (base unreadable)
                 = ((-5, repeat x00 8), w1)) by by_eval.
    pose proof (Hread ltac:(by_run) (-5) (repeat x00 8) w1 Hr ltac:(lia)) as E.
    rewrite E. split; by_eval.
  - destruct (initHeader_failures 5 noEntropy) as [_ Hnew].
    pose (w' := snd (randomize 8 (base noEntropy))).
    assert (Hzero : zero_draws 1 (base noEntropy) w').
    { exists (repeat x00 8), w'. split; [by_eval | split; [by_eval | reflexivity]]. }
    pose (w2 := snd (randomize 8 w')).
    assert (Hdraw : randomize 8 w' = ((false, repeat x00 8), w2)) by by_eval.
    destruct (Hnew ltac:(by_run) 1%nat w' Hzero ltac:(lia) false (repeat x00 8) w2 Hdraw)
      as [Hfail _].
    destruct (Hfail eq_refl) as (st1 & E & _).
    rewrite E. reflexivity.
  - destruct (initHeader_failures 5 diskFull) as [_ Hnew].
    pose (rnd := [x00; x00; x00; x00; x00; x00; x01; x02]).
    pose (w2 := snd (randomize 8 (base diskFull))).
    assert (Hdraw : randomize 8 (base diskFull) = ((true, rnd), w2)) by by_eval.
    destruct (Hnew ltac:(by_run) 0%nat (base diskFull) eq_refl ltac:(lia) true rnd w2 Hdraw)
      as [_ Hgood].
    assert (Hnz : decodeIV rnd <> 0) by by_run.
    assert (Hrw : base_isWritable w2 = true) by by_eval.
    pose (enc := [x07; x07; x07; x07; x07; x07; x08; x09]).
    assert (Henc : streamEncode (take 8 rnd) (externalIV diskFull) = (true, enc)) by by_eval.
    destruct (Hgood eq_refl Hnz Hrw true enc Henc) as [_ Hwrite].
    pose (w3 := snd (base_write (mkIORequest 0 8 enc) w2)).
    assert (Hw : base_write (mkIORequest 0 8 enc) w2 = (-28, w3)) by by_eval.
    destruct (Hwrite eq_refl (-28) w3 Hw ltac:(lia)) as [E _].
    rewrite E. split; by_eval.
Defined.

(** ** The translated size *)

(** A quotient grows no faster than its dividend. *)
Lemma div_step (d x y : Z) : 0 < d -> x <= y -> y / d - x / d <= y - x.
Proof.
  intros Hd Hxy.
  pose proof (Z.div_mod x d ltac:(lia)) as Ex.
  pose proof (Z.div_mod y d ltac:(lia)) as Ey.
  pose proof (Z.mod_pos_bound x d Hd) as Bx.
  pose proof (Z.mod_pos_bound y d Hd) as By.
  nia.
Qed.

Lemma spec_translate_bounds (rev hdr pad : bool) (E c raw : Z) :
  1 <= E -> (rev = true -> 2 <= E) -> 0 < c -> 0 <= raw ->
  below_minimum rev hdr pad c raw = false ->
  let v := spec_translate_size rev hdr pad E c raw in
  (rev = false -> 0 <= v <= raw)
  /\ (rev = true -> raw <= v)
  /\ (raw = 0 -> v = 0).
Proof.
  intros HE HE2 Hc Hraw Hmin v. subst v.
  unfold spec_translate_size, below_minimum, spec_plaintextToCiphertextSize,
    spec_ciphertextToPlaintextSize, HEADER_SIZE in *.
  destruct rev; cbn [negb andb] in *.
  - specialize (HE2 eq_refl).
    split; [discriminate | split].
    + intros _.
      destruct (Z.gtb_spec raw 0) as [Hpos | Hnpos]; [| lia].
      pose proof (quotient_bounds (B := E) (s := raw) ltac:(lia) ltac:(lia)) as Hq.
      destruct pad, hdr; lia.
    + intros ->. reflexivity.
  - split; [intros _ | split; [discriminate |]].
    + destruct (Z.gtb_spec raw 0) as [Hpos | Hnpos];
        rewrite ?andb_true_r, ?andb_false_r in *; cbn [andb orb] in *.
      * destruct hdr; cbn [andb orb] in *.
        -- destruct (Z.ltb_spec raw 8) as [Hlt | Hge]; cbn [orb] in Hmin; [discriminate |].
           destruct pad; cbn [andb] in *; [| lia].
           destruct (Z.gtb_spec (raw - 8) 0) as [Hp | Hnp]; cbn [andb] in *; [| lia].
           destruct (Z.ltb_spec (raw - 8) c) as [Hlt' | Hge']; [discriminate |].
           assert (Hq : 0 <= (raw - 8 - c) / (E + 1) <= raw - 8 - c).
           { split; [apply Z.div_pos; lia | apply Z.div_le_upper_bound; nia]. }
           lia.
        -- destruct pad; cbn [andb] in *; [| lia].
           destruct (Z.gtb_spec raw 0) as [Hp | Hnp]; cbn [andb] in *; [| lia].
           destruct (Z.ltb_spec raw c) as [Hlt' | Hge']; [discriminate |].
           assert (Hq : 0 <= (raw - c) / (E + 1) <= raw - c).
           { split; [apply Z.div_pos; lia | apply Z.div_le_upper_bound; nia]. }
           lia.
      * assert (raw = 0) by lia. subst raw.
        destruct hdr, pad; cbn; lia.
    + intros ->. destruct hdr, pad; reflexivity.
Qed.

Lemma spec_translate_monotone (rev hdr pad : bool) (E c raw1 raw2 : Z) :
  1 <= E -> (rev = true -> 2 <= E) -> 0 < c -> 0 <= raw1 <= raw2 ->
  below_minimum rev hdr pad c raw1 = false ->
  below_minimum rev hdr pad c raw2 = false ->
  spec_translate_size rev hdr pad E c raw1 <= spec_translate_size rev hdr pad E c raw2.
Proof.
  intros HE HE2 Hc Hraw Hmin1 Hmin2.
  destruct (Z.eq_dec raw1 0) as [-> | Hnz].
  { destruct (spec_translate_bounds hdr pad HE HE2 Hc (raw := 0) ltac:(lia) Hmin1) as (_ & _ & Hz).
    cbv zeta in Hz. rewrite (Hz eq_refl).
    destruct (spec_translate_bounds hdr pad HE HE2 Hc (raw := raw2) ltac:(lia) Hmin2) as (Hn & Hr & _).
    cbv zeta in Hn, Hr.
    destruct rev; [specialize (Hr eq_refl) | specialize (Hn eq_refl)]; lia. }
  unfold spec_translate_size, below_minimum, spec_plaintextToCiphertextSize,
    spec_ciphertextToPlaintextSize, HEADER_SIZE in *.
  destruct (Z.gtb_spec raw1 0) as [Hp1 | ?]; [| lia].
  destruct (Z.gtb_spec raw2 0) as [Hp2 | ?]; [| lia].
  destruct rev; cbn [negb andb] in *.
  - specialize (HE2 eq_refl).
    pose proof (Z.div_le_mono (raw1 - 1) (raw2 - 1) (E - 1) ltac:(lia) ltac:(lia)) as Hq.
    destruct pad, hdr; lia.
  - rewrite ?andb_true_r in *.
    destruct hdr; cbn [andb orb] in *.
    + destruct (Z.ltb_spec raw1 8) as [? | Hge1]; cbn [orb] in Hmin1; [discriminate |].
      destruct (Z.ltb_spec raw2 8) as [? | Hge2]; cbn [orb] in Hmin2; [discriminate |].
      destruct pad; cbn [andb] in *; [| lia].
      destruct (Z.gtb_spec (raw1 - 8) 0) as [Hq1 | Hq1]; cbn [andb] in *.
      * destruct (Z.gtb_spec (raw2 - 8) 0) as [Hq2 | Hq2]; cbn [andb] in *; [| lia].
        destruct (Z.ltb_spec (raw1 - 8) c) as [? | Hc1]; [discriminate |].
        destruct (Z.ltb_spec (raw2 - 8) c) as [? | Hc2]; [discriminate |].
        pose proof (div_step (d := E + 1) (x := raw1 - 8 - c) (y := raw2 - 8 - c)
                      ltac:(lia) ltac:(lia)).
        lia.
      * destruct (Z.gtb_spec (raw2 - 8) 0) as [Hq2 | Hq2]; cbn [andb] in *; [| lia].
        destruct (Z.ltb_spec (raw2 - 8) c) as [? | Hc2]; [discriminate |].
        assert (Hq : 0 <= (raw2 - 8 - c) / (E + 1) <= raw2 - 8 - c).
        { split; [apply Z.div_pos; lia | apply Z.div_le_upper_bound; nia]. }
        lia.
    + destruct pad; cbn [andb] in *; [| lia].
      destruct (Z.gtb_spec raw1 0) as [_ | ?]; [| lia].
      destruct (Z.gtb_spec raw2 0) as [_ | ?]; [| lia].
      cbn [andb] in *.
      destruct (Z.ltb_spec raw1 c) as [? | Hc1]; [discriminate |].
      destruct (Z.ltb_spec raw2 c) as [? | Hc2]; [discriminate |].
      pose proof (div_step (d := E + 1) (x := raw1 - c) (y := raw2 - c)
                    ltac:(lia) ltac:(lia)).
      lia.
Qed.

Section SizeProperties.
Context {W : Type} {F : FileIO W} {C : Cipher W}.

Abbreviation cbs := (@cipherBlockSize W C).

(** The adjustment returns the same size, or fails, whatever the texts of
    its two assertions are; it never changes the state. *)
Lemma adjusted_size_outcome (st : CipherFileIO W) (size : Z) :
  (exists v, forall t1 t2, adjusted_size t1 t2 st size st = (Ret v, st))
  \/ (forall t1 t2, exists t, adjusted_size t1 t2 st size st = (AssertFailed t, st)).
Proof.
  unfold adjusted_size. run_monad.
  destruct (reverseEncryption st); cbn [negb].
  - left. destruct (size >? 0); eexists; intros t1 t2; reflexivity.
  - destruct (haveHeader st && (size >? 0)).
    + destruct (size >=? HEADER_SIZE).
      * destruct (haveCBCPadding st && (s64 (size - HEADER_SIZE) >? 0)).
        -- destruct (s64 (size - HEADER_SIZE) >=? cbs).
           ++ left. eexists. intros t1 t2. reflexivity.
           ++ right. intros t1 t2. eexists. reflexivity.
        -- left. eexists. intros t1 t2. reflexivity.
      * right. intros t1 t2. eexists. reflexivity.
    + destruct (haveCBCPadding st && (size >? 0)).
      * destruct (size >=? cbs).
        -- left. eexists. intros t1 t2. reflexivity.
        -- right. intros t1 t2. eexists. reflexivity.
      * left. eexists. intros t1 t2. reflexivity.
Qed.

(** X6.  For a regular file whose [stat] succeeds and reports the size
    that [getSize] of the backing file reports, [getAttr] puts into
    [st_size] exactly the value [getSize] returns, and fails an assertion
    exactly when [getSize] does.  Neither changes the filter. *)
Theorem getAttr_agrees_with_getSize (st : CipherFileIO W) (sb : stat) :
  base_getAttr (base st) = (0, sb) ->
  S_ISREG (st_mode sb) = true ->
  st_size sb = base_getSize (base st) ->
  (forall v st', getSize st = (Ret v, st') ->
     st' = st /\ getAttr st = (Ret (0, set_st_size v sb), st))
  /\ (forall t st', getSize st = (AssertFailed t, st') ->
        st' = st /\ exists t', getAttr st = (AssertFailed t', st))
  /\ (forall st', getSize st <> (OutOfFuel, st')).
Proof.
  intros Hattr Hreg Hsize.
  rewrite getSize_adjusted, getAttr_adjusted.
  rewrite Hattr. cbn [fst snd]. rewrite Hreg. cbn [Z.eqb andb].
  rewrite Hsize.
  destruct (adjusted_size_outcome st (base_getSize (base st))) as [(v0 & Hv) | Hfail].
  - split; [| split].
    + intros v st' H. rewrite Hv in H. inversion H; subst.
      split; [reflexivity |].
      unfold bind. rewrite Hv. reflexivity.
    + intros t st' H. rewrite Hv in H. discriminate.
    + intros st' H. rewrite Hv in H. discriminate.
  - split; [| split].
    + intros v st' H.
      destruct (Hfail "size >= HEADER_SIZE"%string
                  "size >= fsConfig->cipher->cipherBlockSize()"%string) as (t & Ht).
      rewrite Ht in H. discriminate.
    + intros t st' H.
      destruct (Hfail "size >= HEADER_SIZE"%string
                  "size >= fsConfig->cipher->cipherBlockSize()"%string) as (t0 & Ht).
      rewrite Ht in H. inversion H; subst.
      split; [reflexivity |].
      destruct (Hfail "stbuf->st_size >= HEADER_SIZE"%string
                  "stbuf->st_size >= fsConfig->cipher->cipherBlockSize()"%string)
        as (t' & Ht').
      exists t'. unfold bind. rewrite Ht'. reflexivity.
    + intros st' H.
      destruct (Hfail "size >= HEADER_SIZE"%string
                  "size >= fsConfig->cipher->cipherBlockSize()"%string) as (t & Ht).
      rewrite Ht in H. discriminate.
Qed.

(** What [getSize] returns is the translation of the raw size. *)
Lemma getSize_returned (st st' : CipherFileIO W) (v : Z) :
  1 <= blockSize st < 2 ^ 31 ->
  (reverseEncryption st = true -> 2 <= blockSize st) ->
  0 < cbs < 2 ^ 31 ->
  0 <= base_getSize (base st) < 2 ^ 61 ->
  getSize st = (Ret v, st') ->
  below_minimum (reverseEncryption st) (haveHeader st) (haveCBCPadding st) cbs
    (base_getSize (base st)) = false
  /\ v = spec_translate_size (reverseEncryption st) (haveHeader st) (haveCBCPadding st)
           (blockSize st) cbs (base_getSize (base st)).
Proof.
  intros Hbs Hbs2 Hc Hraw H.
  rewrite getSize_adjusted in H.
  destruct (adjusted_size_spec "size >= HEADER_SIZE"
              "size >= fsConfig->cipher->cipherBlockSize()" st Hbs Hbs2 Hc Hraw)
    as [Hok Hbad].
  destruct (below_minimum (reverseEncryption st) (haveHeader st) (haveCBCPadding st) cbs
              (base_getSize (base st))).
  - destruct (Hbad eq_refl) as (t & Ht). rewrite Ht in H. discriminate.
  - rewrite (Hok eq_refl) in H. inversion H; subst. split; reflexivity.
Qed.

(** X7.  The size [getSize] returns lies between 0 and the size of the
    backing file when the filter decrypts, and is at least the size of the
    backing file when it encrypts (reverse mode); an empty backing file is
    an empty file either way. *)
Theorem getSize_bounds (st st' : CipherFileIO W) (v : Z) :
  1 <= blockSize st < 2 ^ 31 ->
  (reverseEncryption st = true -> 2 <= blockSize st) ->
  0 < cbs < 2 ^ 31 ->
  0 <= base_getSize (base st) < 2 ^ 61 ->
  getSize st = (Ret v, st') ->
  (reverseEncryption st = false -> 0 <= v <= base_getSize (base st))
  /\ (reverseEncryption st = true -> base_getSize (base st) <= v)
  /\ (base_getSize (base st) = 0 -> v = 0).
Proof.
  intros Hbs Hbs2 Hc Hraw H.
  destruct (getSize_returned st Hbs Hbs2 Hc Hraw H) as [Hmin ->].
  apply spec_translate_bounds; try assumption; lia.
Qed.

(** X8.  Of two backing files behind filters with the same settings, the
    longer one never appears shorter: [getSize] is monotone in the raw
    size. *)
Theorem getSize_monotone (st1 st2 st1' st2' : CipherFileIO W) (v1 v2 : Z) :
  same_settings st1 st2 ->
  1 <= blockSize st1 < 2 ^ 31 ->
  (reverseEncryption st1 = true -> 2 <= blockSize st1) ->
  0 < cbs < 2 ^ 31 ->
  0 <= base_getSize (base st1) <= base_getSize (base st2) ->
  base_getSize (base st2) < 2 ^ 61 ->
  getSize st1 = (Ret v1, st1') ->
  getSize st2 = (Ret v2, st2') ->
  v1 <= v2.
Proof.
  intros (Hh & Hp & Hr & Hb & _) Hbs Hbs2 Hc Hraw Hraw2 H1 H2.
  destruct (getSize_returned st1 Hbs Hbs2 Hc ltac:(lia) H1) as [Hmin1 ->].
  rewrite <- Hb in Hbs. rewrite <- Hr, <- Hb in Hbs2.
  destruct (getSize_returned st2 Hbs Hbs2 Hc ltac:(lia) H2) as [Hmin2 ->].
  rewrite Hh, Hp, Hr, Hb in *.
  apply spec_translate_monotone; try assumption; lia.
Qed.

End SizeProperties.

(** A regular file of 2071 raw bytes behind a header and padding. *)
Lemma getAttr_agrees_with_getSize_run :
  let st := Mock.filter (Mock.regular 2071 true) true true false false 1023 7 5 in
  getSize st = (Ret 2046, st)
  /\ getAttr st = (Ret (0, mkStat S_IFREG 2046 42), st).
Proof.
  intros st.
  pose (sb := mkStat S_IFREG 2071 42).
  assert (Hattr : base_getAttr (base st) = (0, sb)) by by_eval.
  assert (Hreg : S_ISREG (st_mode sb) = true) by by_eval.
  assert (Hsize : st_size sb = base_getSize (base st)) by by_eval.
  assert (Hget : getSize st = (Ret 2046, st)) by by_eval.
  destruct (getAttr_agrees_with_getSize st Hattr Hreg Hsize) as (Hret & _).
  destruct (Hret 2046 st Hget) as [_ E].
  split; [exact Hget | exact E].
Defined.

(** 2071 raw bytes appear as 2046 when decrypting, 2045 raw bytes as 2070
    when encrypting. *)
Lemma getSize_bounds_run :
  let normal := Mock.filter (Mock.regular 2071 true) true true false false 1023 7 5 in
  let reversed := Mock.filter (Mock.regular 2045 true) true true true false 1024 7 5 in
  (0 <= 2046 <= base_getSize (base normal))
  /\ base_getSize (base reversed) <= 2070.
Proof.
  intros normal reversed.
  split.
  - assert (Hget : getSize normal = (Ret 2046, normal)) by by_eval.
    assert (Hbs : 1 <= blockSize normal < 2 ^ 31) by by_run.
    assert (Hbs2 : reverseEncryption normal = true -> 2 <= blockSize normal)
      by (intros _; by_run).
    assert (Hc : 0 < @cipherBlockSize _ Mock.cipher < 2 ^ 31) by by_run.
    assert (Hraw : 0 <= base_getSize (base normal) < 2 ^ 61) by by_run.
    destruct (getSize_bounds normal Hbs Hbs2 Hc Hraw Hget) as (Hn & _).
    apply Hn. reflexivity.
  - assert (Hget : getSize reversed = (Ret 2070, reversed)) by by_eval.
    assert (Hbs : 1 <= blockSize reversed < 2 ^ 31) by by_run.
    assert (Hbs2 : reverseEncryption reversed = true -> 2 <= blockSize reversed)
      by (intros _; by_run).
    assert (Hc : 0 < @cipherBlockSize _ Mock.cipher < 2 ^ 31) by by_run.
    assert (Hraw : 0 <= base_getSize (base reversed) < 2 ^ 61) by by_run.
    destruct (getSize_bounds reversed Hbs Hbs2 Hc Hraw Hget) as (_ & Hr & _).
    apply Hr. reflexivity.
Defined.

(** 1047 raw bytes appear as 1023 bytes, 2071 raw bytes as 2046. *)
Lemma getSize_monotone_run :
  let short := Mock.filter (Mock.regular 1047 true) true true false false 1023 7 5 in
  let long := Mock.filter (Mock.regular 2071 true) true true false false 1023 7 5 in
  getSize short = (Ret 1023, short)
  /\ getSize long = (Ret 2046, long)
  /\ 1023 <= 2046.
Proof.
  intros short long.
  assert (H1 : getSize short = (Ret 1023, short)) by by_eval.
  assert (H2 : getSize long = (Ret 2046, long)) by by_eval.
  assert (Hs : same_settings short long) by (repeat split).
  assert (Hbs : 1 <= blockSize short < 2 ^ 31) by by_run.
  assert (Hbs2 : reverseEncryption short = true -> 2 <= blockSize short)
    by (intros _; by_run).
  assert (Hc : 0 < @cipherBlockSize _ Mock.cipher < 2 ^ 31) by by_run.
  assert (Hraw : 0 <= base_getSize (base short) <= base_getSize (base long)) by by_run.
  assert (Hraw2 : base_getSize (base long) < 2 ^ 61) by by_run.
  split; [exact H1 | split; [exact H2 |]].
  exact (getSize_monotone Hs Hbs Hbs2 Hc Hraw Hraw2 H1 H2).
Defined.

(** ** Blocks on the backing file *)

Lemma take_exact (n : Z) (l : list byte) :
  Z.of_nat (length l) = n -> take n l = l.
Proof.
  intros Hn. unfold take. apply firstn_all2. lia.
Qed.

Lemma drop_exact (n : Z) (l : list byte) :
  Z.of_nat (length l) = n -> drop n l = [].
Proof.
  intros Hn. unfold drop. apply skipn_all2. lia.
Qed.

Lemma drop_app_exact (n : Z) (l rest : list byte) :
  Z.of_nat (length l) = n -> drop n (l ++ rest) = rest.
Proof.
  intros Hn. unfold drop.
  replace (Z.to_nat n) with (length l) by lia.
  rewrite skipn_app, skipn_all, Nat.sub_diag. reflexivity.
Qed.

Section BlocksOnDisk.
Context {W : Type} {F : FileIO W} {C : Cipher W}.

(** X9.  Where a block lies in the backing file.  Without reverse, the
    request for the bytes from [k * len + j] on ([j < len]) goes to the
    backing offset [k * (len + 1) + j] when blocks are padded (every
    block before it is one byte longer on disk) and asks for one byte
    more; a header moves it 8 bytes further.  In reverse mode the request
    is passed on as it is. *)
Theorem backingRequest_layout (st : CipherFileIO W) (req : IORequest) (k j : Z) :
  0 < dataLen req < 2 ^ 62 ->
  0 <= k ->
  0 <= j < dataLen req ->
  offset req = k * dataLen req + j ->
  offset req < 2 ^ 61 ->
  (reverseEncryption st = true -> backingRequest st req = req)
  /\ (reverseEncryption st = false ->
      backingRequest st req =
        mkIORequest
          (k * (dataLen req + (if haveCBCPadding st then 1 else 0)) + j
           + (if haveHeader st then HEADER_SIZE else 0))
          (dataLen req + (if haveCBCPadding st then 1 else 0))
          (data req)).
Proof.
  intros Hlen Hk Hj Hoff Hmax.
  unfold backingRequest, HEADER_SIZE.
  split; intros Hrev; rewrite Hrev; cbn [negb].
  - rewrite !andb_false_r. reflexivity.
  - rewrite !andb_true_r.
    assert (Hq : offset req / dataLen req = k).
    { rewrite Hoff. rewrite Z.div_add_l by lia.
      rewrite Z.div_small by lia. lia. }
    assert (Hkle : k <= offset req) by nia.
    assert (Hnn : 0 <= offset req) by nia.
    destruct (haveCBCPadding st).
    + rewrite (u64_id (z := offset req)) by lia.
      rewrite Hq. clear Hq.
      rewrite (s64_id (z := offset req + k)) by lia.
      rewrite (u64_id (z := dataLen req + 1)) by lia.
      destruct (haveHeader st); cbn [offset dataLen data].
      * rewrite s64_id by lia. f_equal. lia.
      * f_equal. lia.
    + clear Hq. destruct (haveHeader st).
      * rewrite s64_id by lia. destruct req as [o l d]. cbn [offset dataLen data] in *.
        f_equal; lia.
      * destruct req as [o l d]. cbn [offset dataLen data] in *.
        f_equal; lia.
Qed.

(** X10.  When the backing file returns nothing ([0], the end of the
    file) or an error (a negative value), [readOneBlock] returns that
    value and the buffer as the backing file left it, in every
    configuration: no header is read or created and no cipher is applied. *)
Theorem readOneBlock_nothing_read (fuel : nat) (req : IORequest) (st : CipherFileIO W) :
  forall n buf w1,
    base_read (backingRequest st req) (base st) = ((n, buf), w1) ->
    n <= 0 ->
    readOneBlock fuel req st = (Ret (n, buf), set_base w1 st).
Proof.
  intros n buf w1 Hread Hn.
  unfold readOneBlock, fetchBlock. run_monad. rewrite Hread. cbn [fst snd].
  destruct (Z.gtb_spec n 0) as [Hpos | _]; [lia |].
  rewrite andb_false_r.
  f_equal. f_equal.
  unfold decodeBlock.
  cbn [fst snd haveCBCPadding reverseEncryption set_base].
  destruct (haveCBCPadding st); cbn [andb].
  - destruct (Z.geb_spec n 0) as [Hge | Hlt].
    + assert (n = 0) by lia. subst n.
      destruct (reverseEncryption st); reflexivity.
    + destruct (Z.gtb_spec n 0); [lia | reflexivity].
  - destruct (Z.gtb_spec n 0); [lia | reflexivity].
Qed.

(** X11.  On the first read of a file with a header the block is read
    before the header: if that read returned bytes, [initHeader] runs
    next; its error ends the call, and otherwise the block is decoded
    under the file IV it has established. *)
Theorem readOneBlock_loads_header (fuel : nat) (req : IORequest) (st : CipherFileIO W) :
  haveHeader st = true ->
  fileIV st = 0 ->
  forall n buf w1,
    base_read (backingRequest st req) (base st) = ((n, buf), w1) ->
    0 < n ->
    forall r st2,
      initHeader fuel (set_base w1 st) = (Ret r, st2) ->
      readOneBlock fuel req st
        = (Ret (if r <? 0 then (r, buf) else decodeBlock st2 req n buf), st2).
Proof.
  intros Hh Hiv n buf w1 Hread Hn r st2 Hinit.
  unfold readOneBlock, fetchBlock. run_monad. rewrite Hread. cbn [fst snd].
  rewrite Hh, Hiv. cbn [Z.eqb andb].
  destruct (Z.gtb_spec n 0) as [_ | Hnp]; [| lia].
  rewrite Hinit.
  destruct (r <? 0); reflexivity.
Qed.

(** X12.  In reverse mode with CBC padding [readOneBlock] applies no
    cipher at all: it returns what was read from the backing file,
    unchanged. *)
Theorem readOneBlock_reverse_padded_untransformed (fuel : nat) (req : IORequest)
    (st st2 : CipherFileIO W) (n : Z) (buf : list byte) :
  fetchBlock fuel req st = (Ret (inr (n, buf)), st2) ->
  haveCBCPadding st2 = true ->
  reverseEncryption st2 = true ->
  0 <= n ->
  readOneBlock fuel req st = (Ret (n, buf), st2).
Proof.
  intros Hfetch Hpad Hrev Hn.
  rewrite (readOneBlock_fetched fuel req st Hfetch).
  unfold decodeBlock. rewrite Hpad, Hrev. cbn [andb negb].
  destruct (Z.geb_spec n 0) as [_ | Hneg]; [reflexivity | lia].
Qed.



(** X15.  A block written is the block read back.  On an unpadded file
    whose file IV is established, [writeOneBlock] stores the encrypted
    block at the requested offset (plus 8 with a header), and
    [readOneBlock] at the same offset, given those bytes by the backing
    file, returns the data that was written; provided the cipher decodes
    what it encoded and, where holes are allowed, the ciphertext of a
    full block is not all zeros. *)
Theorem block_write_then_read (fuel : nat) (req : IORequest) (st : CipherFileIO W) :
  haveCBCPadding st = false ->
  reverseEncryption st = false ->
  haveHeader st && (fileIV st =? 0) = false ->
  0 <= offset req < 2 ^ 62 ->
  0 < blockSize st < 2 ^ 31 ->
  0 < dataLen req < 2 ^ 31 ->
  Z.of_nat (length (data req)) = dataLen req ->
  let iv := Z.lxor (offset req / blockSize st) (fileIV st) in
  let full := dataLen req =? blockSize st in
  let place := mkIORequest
                 (if haveHeader st then offset req + HEADER_SIZE else offset req) in
  forall stored,
    (if full then blockEncode else streamEncode) (data req) iv = (true, stored) ->
    (if full then blockDecode else streamDecode) stored iv = (true, data req) ->
    Z.of_nat (length stored) = dataLen req ->
    (allowHoles st = true -> full = true -> forallb is_zero stored = false) ->
    forall res w1,
      base_write (place (dataLen req) stored) (base st) = (res, w1) ->
      writeOneBlock fuel req st = (Ret (res, stored), set_base w1 st)
      /\ forall (rreq : IORequest) (rest : list byte) (w2 : W),
           offset rreq = offset req ->
           base_read (place (dataLen rreq) (data rreq)) w1
             = ((dataLen req, stored ++ rest), w2) ->
           readOneBlock fuel rreq (set_base w1 st)
             = (Ret (dataLen req, data req ++ rest), set_base w2 st).
Proof.
  intros Hpad Hrev Hguard Hoff Hbs Hlen Hdata iv full place stored
    Henc Hdec Hstored Hhole res w1 Hwrite.
  split.
  - unfold writeOneBlock. run_monad.
    rewrite Hrev, andb_false_r, Hguard.
    change (0 <? 0) with false. cbv beta iota.
    rewrite blockNum_plain_unsigned by lia.
    rewrite (u32_id (z := blockSize st)) by lia.
    rewrite (s32_id (z := dataLen req)) by lia.
    fold iv. fold full.
    unfold streamWrite, blockWrite, in_place. rewrite Hrev. cbn [negb].
    rewrite (take_exact _ Hdata), (drop_exact _ Hdata).
    assert (Hsel : (if negb full
                    then let (ok, out) := streamEncode (data req) iv in (ok, out ++ [])
                    else let (ok, out) := blockEncode (data req) iv in (ok, out ++ []))
                   = (true, stored)).
    { destruct full; cbn [negb]; rewrite Henc, app_nil_r; reflexivity. }
    rewrite Hsel. cbn [fst snd].
    unfold place, HEADER_SIZE in Hwrite. unfold HEADER_SIZE.
    destruct (haveHeader st).
    + rewrite s64_id by lia. rewrite Hwrite. reflexivity.
    + rewrite Hwrite. reflexivity.
  - intros rreq rest w2 Hsame Hread.
    unfold readOneBlock, fetchBlock. run_monad.
    cbn [base set_base haveHeader fileIV].
    assert (Hreq : backingRequest (set_base w1 st) rreq
                   = place (dataLen rreq) (data rreq)).
    { unfold backingRequest, place, HEADER_SIZE.
      cbn [haveCBCPadding reverseEncryption haveHeader set_base].
      rewrite Hpad, Hrev. cbn [andb negb]. rewrite andb_true_r.
      destruct (haveHeader st).
      - rewrite Hsame. rewrite s64_id by lia. reflexivity.
      - rewrite <- Hsame. destruct rreq; reflexivity. }
    rewrite Hreq, Hread. cbn [fst snd].
    rewrite Hguard. cbn [andb].
    f_equal. f_equal.
    unfold decodeBlock.
    cbn [fst snd haveCBCPadding reverseEncryption blockSize fileIV allowHoles set_base].
    rewrite Hpad. cbn [andb].
    destruct (Z.gtb_spec (dataLen req) 0) as [_ | Hnp]; [| lia].
    rewrite Hsame.
    rewrite blockNum_plain by lia. fold iv.
    rewrite (s32_id (z := blockSize st)) by lia.
    rewrite (s32_id (z := dataLen req)) by lia.
    fold full.
    unfold streamRead, blockRead, in_place.
    cbn [reverseEncryption allowHoles set_base]. rewrite Hrev.
    rewrite (take_app_exact _ _ Hstored), (drop_app_exact _ _ Hstored).
    destruct full eqn:Hfull; cbn [negb].
    + destruct (allowHoles st) eqn:Hholes.
      * rewrite (Hhole eq_refl eq_refl). rewrite Hdec. reflexivity.
      * rewrite Hdec. reflexivity.
    + rewrite Hdec. reflexivity.
Qed.

End BlocksOnDisk.

(** The third block of a padded file with a header and [blockSize() =
    1023] starts at [2 * 1024 + 8] and is 1024 bytes long on disk. *)
Lemma backingRequest_layout_run :
  let st := Mock.filter (Mock.regular 5000 true) true true false false 1023 7 5 in
  let req := mkIORequest 2046 1023 (repeat x00 1024) in
  backingRequest st req = mkIORequest 2056 1024 (repeat x00 1024).
Proof.
  intros st req.
  assert (Hlen : 0 < dataLen req < 2 ^ 62) by by_run.
  assert (Hk : 0 <= 2) by lia.
  assert (Hj : 0 <= 0 < dataLen req) by by_run.
  assert (Hoff : offset req = 2 * dataLen req + 0) by by_eval.
  assert (Hmax : offset req < 2 ^ 61) by by_run.
  destruct (backingRequest_layout st req Hlen Hk Hj Hoff Hmax) as [_ Hn].
  rewrite (Hn eq_refl). by_eval.
Defined.

(** The end of the file, and a failing read, on a file whose header has
    not been loaded: only the one read reaches the backing file. *)
Lemma readOneBlock_nothing_read_run :
  let file (script : list (Z * list byte)) :=
    Mock.filter (Mock.mkWorld 100 true (0, mkStat S_IFREG 100 42) []
                   script [] [] [] [] [] [] []) true false false false 32 7 0 in
  let req := mkIORequest 96 32 (repeat x00 32) in
  (fst (readOneBlock 0 req (file [(0, repeat x00 32)])) = Ret (0, repeat x00 32)
   /\ Mock.log (base (snd (readOneBlock 0 req (file [(0, repeat x00 32)]))))
      = [Mock.EvRead 104 32])
  /\ fst (readOneBlock 0 req (file [(-5, repeat x00 32)])) = Ret (-5, repeat x00 32).
Proof.
  intros file req.
  split.
  - pose (st := file [(0, repeat x00 32)]).
    pose (w1 := snd (base_read (backingRequest st req) (base st))).
    assert (Hread : base_read (backingRequest st req) (base st)
                    = ((0, repeat x00 32), w1)) by by_eval.
    pose proof (readOneBlock_nothing_read 0 req st Hread ltac:(lia)) as E.
    unfold st in E. rewrite E. split; by_eval.
  - pose (st := file [(-5, repeat x00 32)]).
    pose (w1 := snd (base_read (backingRequest st req) (base st))).
    assert (Hread : base_read (backingRequest st req) (base st)
                    = ((-5, repeat x00 32), w1)) by by_eval.
    pose proof (readOneBlock_nothing_read 0 req st Hread ltac:(lia)) as E.
    unfold st in E. rewrite E. by_eval.
Defined.

(** The first read of a file with the header [07 07 07 07 07 07 08 09]
    (file IV 258 under the external IV 7): the block is read at offset 8,
    then the header at offset 0, and the ten bytes are decoded under
    [0 XOR 258]. *)
Lemma readOneBlock_loads_header_run :
  let st :=
    Mock.filter (Mock.mkWorld 100 true (0, mkStat S_IFREG 100 42) []
                   [(10, repeat x03 10); (8, [x07; x07; x07; x07; x07; x07; x08; x09])]
                   [] [] [] [] [] [] []) true false false false 32 7 0 in
  let req := mkIORequest 0 32 (repeat x00 10) in
  fst (readOneBlock 0 req st) = Ret (10, repeat x01 10)
  /\ Mock.log (base (snd (readOneBlock 0 req st))) = [Mock.EvRead 8 32; Mock.EvRead 0 8]
  /\ fileIV (snd (readOneBlock 0 req st)) = 258.
Proof.
  intros st req.
  assert (Hh : haveHeader st = true) by by_eval.
  assert (Hiv : fileIV st = 0) by by_eval.
  pose (w1 := snd (base_read (backingRequest st req) (base st))).
  assert (Hread : base_read (backingRequest st req) (base st)
                  = ((10, repeat x03 10), w1)) by by_eval.
  pose (st2 := snd (initHeader 0 (set_base w1 st))).
  assert (Hinit : initHeader 0 (set_base w1 st) = (Ret 0, st2)) by by_eval.
  pose proof (readOneBlock_loads_header 0 req st Hh Hiv Hread ltac:(lia) Hinit) as E.
  rewrite E. repeat split; by_eval.
Defined.

(** Ten bytes of a padded file on a reverse mount are returned as they
    were read. *)
Lemma readOneBlock_reverse_padded_untransformed_run :
  let st :=
    Mock.filter (Mock.mkWorld 100 true (0, mkStat S_IFREG 100 42) []
                   [(10, repeat x03 10)] [] [] [] [] [] [] [])
      false true true false 1024 0 5 in
  let req := mkIORequest 0 1024 (repeat x00 10) in
  fst (readOneBlock 0 req st) = Ret (10, repeat x03 10).
Proof.
  intros st req.
  pose (st2 := snd (fetchBlock 0 req st)).
  assert (Hfetch : fetchBlock 0 req st = (Ret (inr (10, repeat x03 10)), st2)) by by_eval.
  assert (Hpad : haveCBCPadding st2 = true) by by_eval.
  assert (Hrev : reverseEncryption st2 = true) by by_eval.
  pose proof (readOneBlock_reverse_padded_untransformed 0 req st Hfetch Hpad Hrev ltac:(lia))
    as E.
  rewrite E. reflexivity.
Defined.



(** Ten bytes written at offset 64 of a file with a header, file IV 5 and
    [blockSize() = 32], and read back by a request for a whole block. *)
Lemma block_write_then_read_run :
  let stored := repeat x08 10 in
  let st :=
    Mock.filter (Mock.mkWorld 100 true (0, mkStat S_IFREG 100 42) []
                   [(10, stored ++ repeat x00 22)] [] [] [] [] [] [] [])
      true false false false 32 7 5 in
  let req := mkIORequest 64 10 (repeat x01 10) in
  let rreq := mkIORequest 64 32 (repeat x00 32) in
  fst (writeOneBlock 0 req st) = Ret (10, stored)
  /\ Mock.log (base (snd (writeOneBlock 0 req st))) = [Mock.EvWrite 72 10 stored]
  /\ fst (readOneBlock 0 rreq (snd (writeOneBlock 0 req st)))
     = Ret (10, repeat x01 10 ++ repeat x00 22).
Proof.
  intros stored st req rreq.
  assert (Hpad : haveCBCPadding st = false) by by_eval.
  assert (Hrev : reverseEncryption st = false) by by_eval.
  assert (Hguard : haveHeader st && (fileIV st =? 0) = false) by by_eval.
  assert (Hoff : 0 <= offset req < 2 ^ 62) by by_run.
  assert (Hbs : 0 < blockSize st < 2 ^ 31) by by_run.
  assert (Hlen : 0 < dataLen req < 2 ^ 31) by by_run.
  assert (Hdata : Z.of_nat (length (data req)) = dataLen req) by by_eval.
  pose proof (block_write_then_read 0 req st Hpad Hrev Hguard Hoff Hbs Hlen Hdata) as T.
  cbv zeta in T.
  assert (Henc : (if dataLen req =? blockSize st then blockEncode else streamEncode)
                   (data req) (Z.lxor (offset req / blockSize st) (fileIV st))
                 = (true, stored)) by by_eval.
  assert (Hdec : (if dataLen req =? blockSize st then blockDecode else streamDecode)
                   stored (Z.lxor (offset req / blockSize st) (fileIV st))
                 = (true, data req)) by by_eval.
  assert (Hstored : Z.of_nat (length stored) = dataLen req) by by_eval.
  assert (Hhole : allowHoles st = true -> (dataLen req =? blockSize st) = true ->
                  forallb is_zero stored = false) by (intros _ _; by_eval).
  pose (w1 := snd (base_write
                     (mkIORequest (if haveHeader st then offset req + HEADER_SIZE
                                   else offset req) (dataLen req) stored) (base st))).
  assert (Hwrite : base_write
                     (mkIORequest (if haveHeader st then offset req + HEADER_SIZE
                                   else offset req) (dataLen req) stored) (base st)
                   = (10, w1)) by by_eval.
  destruct (T stored Henc Hdec Hstored Hhole 10 w1 Hwrite) as [Ew Hr].
  pose (w2 := snd (base_read
                     (mkIORequest (if haveHeader st then offset req + HEADER_SIZE
                                   else offset req) (dataLen rreq) (data rreq)) w1)).
  assert (Hread : base_read
                    (mkIORequest (if haveHeader st then offset req + HEADER_SIZE
                                  else offset req) (dataLen rreq) (data rreq)) w1
                  = ((dataLen req, stored ++ repeat x00 22), w2)) by by_eval.
  pose proof (Hr rreq (repeat x00 22) w2 eq_refl Hread) as Er.
  rewrite Ew. cbn [fst snd]. rewrite Er.
  repeat split; by_eval.
Defined.

(** ** The steps of [truncate] *)

Section TruncateSteps.
Context {W : Type} {F : FileIO W} {C : Cipher W} {B : BlockFileIO W}.

(** X16.  [truncate] on a writable backing file.  Without a header the
    chunker truncates, backing file included.  With a header the chunker
    is told to leave the backing file alone, and the backing file is then
    truncated to the size plus 8; the first step that does not return 0
    ends the call with its value, and the later steps do not run.  A
    file IV that is still zero is established first, and a failure to do
    so ends the call before anything is truncated. *)
Theorem truncate_writable (fuel : nat) (size : Z) (st : CipherFileIO W) :
  base_isWritable (base st) = true ->
  0 <= size < 2 ^ 62 ->
  (haveHeader st = false ->
   forall e st2,
     truncateBase size true st = (Ret e, st2) ->
     truncate fuel size st = (Ret e, st2))
  /\ (haveHeader st = true ->
      forall st1,
        (fileIV st <> 0 /\ st1 = st)
        \/ (fileIV st = 0 /\ initHeader fuel st = (Ret 0, st1)) ->
        forall e st2,
          truncateBase size false st1 = (Ret e, st2) ->
          (e <> 0 -> truncate fuel size st = (Ret e, st2))
          /\ (e = 0 ->
              forall r w3,
                base_truncate (size + HEADER_SIZE) (base st2) = (r, w3) ->
                truncate fuel size st = (Ret r, set_base w3 st2)))
  /\ (haveHeader st = true ->
      fileIV st = 0 ->
      forall r st1,
        initHeader fuel st = (Ret r, st1) ->
        r <> 0 ->
        truncate fuel size st = (Ret r, st1)).
Proof.
  intros Hrw Hsize.
  split; [| split].
  - intros Hh e st2 Hchunk.
    unfold truncate. run_monad. rewrite Hrw, Hh. cbn [negb].
    rewrite Hchunk. reflexivity.
  - intros Hh st1 Hest e st2 Hchunk.
    assert (Hstart : truncate fuel size st =
      (res1 <- truncateBase size false ;;
       if res1 =? 0 then on_base (base_truncate (s64 (size + HEADER_SIZE)))
       else ret res1) st1).
    { unfold truncate. unfold bind at 1. unfold get at 1.
      rewrite Hrw, Hh. cbn [negb].
      destruct Hest as [[Hnz ->] | [Hz Hinit]].
      - destruct (Z.eqb_spec 0 (fileIV st)) as [E | _]; [congruence |].
        run_monad. cbn [Z.eqb].
        destruct (truncateBase size false st) as [[e' | t |] s']; try reflexivity.
        destruct (e' =? 0); [| reflexivity].
        destruct (base_truncate _ (base s')); reflexivity.
      - rewrite Hz. cbn [Z.eqb]. run_monad. rewrite Hinit. cbn [Z.eqb].
        destruct (truncateBase size false st1) as [[e' | t |] s']; try reflexivity.
        destruct (e' =? 0); [| reflexivity].
        destruct (base_truncate _ (base s')); reflexivity. }
    rewrite Hstart. run_monad. rewrite Hchunk.
    unfold HEADER_SIZE. rewrite s64_id by lia.
    split.
    + intros Hne. destruct (Z.eqb_spec e 0) as [E | _]; [contradiction | reflexivity].
    + intros -> r w3 Htrunc. cbn [Z.eqb]. rewrite Htrunc. reflexivity.
  - intros Hh Hz r st1 Hinit Hr.
    unfold truncate. run_monad. rewrite Hrw, Hh, Hz. cbn [negb Z.eqb].
    rewrite Hinit.
    destruct (Z.eqb_spec r 0) as [E | _]; [contradiction |].
    destruct (Z.eqb_spec r 0) as [E | _]; [contradiction | reflexivity].
Qed.

(** X17.  [truncate] on a backing file that is not writable re-opens it
    with [O_RDWR] added to the flags of the last [open].  If that fails,
    its error is returned, the file is opened again with the old flags
    and nothing is truncated.  Otherwise the truncation runs as on a
    writable file, with or without a header, and whichever of its steps
    ends it, the file is opened with the old flags afterwards; the
    result of the truncation is returned if it is not negative (a
    failure of the last re-opening is then not reported), and the result
    of the last re-opening in its place if it is. *)
Theorem truncate_reopens (fuel : nat) (size : Z) (st : CipherFileIO W) :
  base_isWritable (base st) = false ->
  0 <= size < 2 ^ 62 ->
  forall res w1,
    base_open (Z.lor (lastFlags st) O_RDWR) (base st) = (res, w1) ->
    (res < 0 ->
     forall r2 w2,
       base_open (lastFlags st) w1 = (r2, w2) ->
       truncate fuel size st = (Ret res, set_base w2 st))
    /\ (0 <= res ->
        haveHeader st = false ->
        forall e st2,
          truncateBase size true (set_base w1 st) = (Ret e, st2) ->
          forall r2 w3,
            base_open (lastFlags st2) (base st2) = (r2, w3) ->
            truncate fuel size st = (Ret (if e <? 0 then r2 else e), set_base w3 st2))
    /\ (0 <= res ->
        haveHeader st = true ->
        forall st1,
          (fileIV st <> 0 /\ st1 = set_base w1 st)
          \/ (fileIV st = 0 /\ initHeader fuel (set_base w1 st) = (Ret 0, st1)) ->
          forall e st2,
            truncateBase size false st1 = (Ret e, st2) ->
            (e <> 0 ->
             forall r2 w3,
               base_open (lastFlags st2) (base st2) = (r2, w3) ->
               truncate fuel size st
                 = (Ret (if e <? 0 then r2 else e), set_base w3 st2))
            /\ (e = 0 ->
                forall r w3,
                  base_truncate (size + HEADER_SIZE) (base st2) = (r, w3) ->
                  forall r2 w4,
                    base_open (lastFlags st2) w3 = (r2, w4) ->
                    truncate fuel size st
                      = (Ret (if r <? 0 then r2 else r), set_base w4 st2)))
    /\ (0 <= res ->
        haveHeader st = true ->
        fileIV st = 0 ->
        forall r st1,
          initHeader fuel (set_base w1 st) = (Ret r, st1) ->
          r <> 0 ->
          forall r2 w3,
            base_open (lastFlags st1) (base st1) = (r2, w3) ->
            truncate fuel size st = (Ret (if r <? 0 then r2 else r), set_base w3 st1)).
Proof.
  intros Hro Hsize res w1 Hopen.
  split; [| split; [| split]].
  - intros Hneg r2 w2 Hback.
    unfold truncate. run_monad. rewrite Hro. cbn [negb]. rewrite Hopen.
    destruct (Z.ltb_spec res 0) as [_ | Hge]; [| lia].
    cbn [base set_base]. rewrite Hback. reflexivity.
  - intros Hok Hh e st2 Hchunk r2 w3 Hback.
    unfold truncate. run_monad. rewrite Hro. cbn [negb]. rewrite Hopen.
    destruct (Z.ltb_spec res 0) as [Hneg | _]; [lia |].
    rewrite Hh. cbn [negb]. rewrite Hchunk. rewrite Hback.
    destruct (e <? 0); reflexivity.
  - intros Hok Hh st1 Hest e st2 Hchunk.
    assert (Hstart : truncate fuel size st =
      (r <- (res1 <- truncateBase size false ;;
             if res1 =? 0 then on_base (base_truncate (s64 (size + HEADER_SIZE)))
             else ret res1) ;;
       s1 <- get ;;
       reopened <- on_base (base_open (lastFlags s1)) ;;
       if r <? 0 then ret reopened else ret r) st1).
    { unfold truncate. unfold bind at 1. unfold get at 1.
      rewrite Hro, Hh. cbn [negb].
      unfold bind at 1. unfold on_base at 1. rewrite Hopen.
      destruct (Z.ltb_spec res 0) as [Hneg | _]; [lia |].
      destruct Hest as [[Hnz ->] | [Hz Hinit]].
      - destruct (Z.eqb_spec 0 (fileIV st)) as [E | _]; [congruence |].
        run_monad. cbn [Z.eqb]. reflexivity.
      - rewrite Hz. cbn [Z.eqb]. run_monad. rewrite Hinit. cbn [Z.eqb].
        reflexivity. }
    rewrite Hstart. run_monad. rewrite Hchunk.
    unfold HEADER_SIZE. rewrite s64_id by lia.
    split.
    + intros Hne r2 w3 Hback.
      destruct (Z.eqb_spec e 0) as [E | _]; [contradiction |].
      rewrite Hback. destruct (e <? 0); reflexivity.
    + intros -> r w3 Htrunc r2 w4 Hback. cbn [Z.eqb]. rewrite Htrunc.
      cbn [base lastFlags set_base]. rewrite Hback.
      destruct (r <? 0); reflexivity.
  - intros Hok Hh Hz r st1 Hinit Hr r2 w3 Hback.
    unfold truncate. run_monad. rewrite Hro. cbn [negb]. rewrite Hopen.
    destruct (Z.ltb_spec res 0) as [Hneg | _]; [lia |].
    rewrite Hh, Hz. cbn [negb Z.eqb].
    rewrite Hinit.
    destruct (Z.eqb_spec r 0) as [E | _]; [contradiction |].
    destruct (Z.eqb_spec r 0) as [E | _]; [contradiction |].
    rewrite Hback. destruct (r <? 0); reflexivity.
Qed.

End TruncateSteps.

(** A file with a header is cut to 50 bytes: the chunker first, without
    the backing file, then the backing file at 58.  If the chunker fails,
    the backing file is not truncated. *)
Lemma truncate_writable_run :
  let file (script : list Z) :=
    Mock.filter (Mock.mkWorld 100 true (0, mkStat S_IFREG 100 42) []
                   [] [] [] [] [] script [] []) true false false false 1024 7 5 in
  (fst (truncate 0 50 (file [])) = Ret 0
   /\ Mock.log (base (snd (truncate 0 50 (file []))))
      = [Mock.EvTruncateBase 50 false; Mock.EvTruncate 58])
  /\ (fst (truncate 0 50 (file [-5])) = Ret (-5)
      /\ Mock.log (base (snd (truncate 0 50 (file [-5]))))
         = [Mock.EvTruncateBase 50 false]).
Proof.
  intros file.
  split.
  - pose (st := file []).
    assert (Hrw : base_isWritable (base st) = true) by by_eval.
    assert (Hsize : 0 <= 50 < 2 ^ 62) by lia.
    destruct (truncate_writable 0 st Hrw Hsize) as (_ & Hhdr & _).
    assert (Hest : (fileIV st <> 0 /\ st = st)
                   \/ (fileIV st = 0 /\ initHeader 0 st = (Ret 0, st))).
    { left. split; [by_run | reflexivity]. }
    pose (st2 := snd (truncateBase 50 false st)).
    assert (Hchunk : truncateBase 50 false st = (Ret 0, st2)) by by_eval.
    destruct (Hhdr eq_refl st Hest 0 st2 Hchunk) as [_ Hgo].
    pose (w3 := snd (base_truncate (50 + HEADER_SIZE) (base st2))).
    assert (Htrunc : base_truncate (50 + HEADER_SIZE) (base st2) = (0, w3)) by by_eval.
    pose proof (Hgo eq_refl 0 w3 Htrunc) as E.
    unfold st in E. rewrite E. split; by_eval.
  - pose (st := file [-5]).
    assert (Hrw : base_isWritable (base st) = true) by by_eval.
    assert (Hsize : 0 <= 50 < 2 ^ 62) by lia.
    destruct (truncate_writable 0 st Hrw Hsize) as (_ & Hhdr & _).
    assert (Hest : (fileIV st <> 0 /\ st = st)
                   \/ (fileIV st = 0 /\ initHeader 0 st = (Ret 0, st))).
    { left. split; [by_run | reflexivity]. }
    pose (st2 := snd (truncateBase 50 false st)).
    assert (Hchunk : truncateBase 50 false st = (Ret (-5), st2)) by by_eval.
    destruct (Hhdr eq_refl st Hest (-5) st2 Hchunk) as [Hstop _].
    pose proof (Hstop ltac:(lia)) as E.
    unfold st in E. rewrite E. split; by_eval.
Defined.

(** A read-only file that cannot be re-opened for writing ([-13]); one
    without a header that can, whose last re-opening fails after a
    successful truncation: the 0 of the truncation is returned; and one
    with a header, which is truncated at 58 and opened with the old flags
    afterwards. *)
Lemma truncate_reopens_run :
  let file (header : bool) (script : list Z) :=
    Mock.filter (Mock.mkWorld 100 false (0, mkStat S_IFREG 100 42) script
                   [] [] [] [] [] [] [] []) header false false false 1024 7 5 in
  (fst (truncate 0 50 (file true [-13])) = Ret (-13)
   /\ Mock.log (base (snd (truncate 0 50 (file true [-13]))))
      = [Mock.EvOpen 2; Mock.EvOpen 0])
  /\ (fst (truncate 0 50 (file false [0; -13])) = Ret 0
      /\ Mock.log (base (snd (truncate 0 50 (file false [0; -13]))))
         = [Mock.EvOpen 2; Mock.EvTruncateBase 50 true; Mock.EvOpen 0])
  /\ (fst (truncate 0 50 (file true [0; 0])) = Ret 0
      /\ Mock.log (base (snd (truncate 0 50 (file true [0; 0]))))
         = [Mock.EvOpen 2; Mock.EvTruncateBase 50 false; Mock.EvTruncate 58;
            Mock.EvOpen 0]).
Proof.
  intros file.
  assert (Hsize : 0 <= 50 < 2 ^ 62) by lia.
  split; [| split].
  - pose (st := file true [-13]).
    assert (Hro : base_isWritable (base st) = false) by by_eval.
    pose (w1 := snd (base_open (Z.lor (lastFlags st) O_RDWR) (base st))).
    assert (Hopen : base_open (Z.lor (lastFlags st) O_RDWR) (base st) = (-13, w1)) by by_eval.
    destruct (truncate_reopens 0 st Hro Hsize Hopen) as (Hfail & _).
    pose (w2 := snd (base_open (lastFlags st) w1)).
    assert (Hback : base_open (lastFlags st) w1 = (0, w2)) by by_eval.
    pose proof (Hfail ltac:(lia) 0 w2 Hback) as E.
    unfold st in E. rewrite E. split; by_eval.
  - pose (st := file false [0; -13]).
    assert (Hro : base_isWritable (base st) = false) by by_eval.
    pose (w1 := snd (base_open (Z.lor (lastFlags st) O_RDWR) (base st))).
    assert (Hopen : base_open (Z.lor (lastFlags st) O_RDWR) (base st) = (0, w1)) by by_eval.
    destruct (truncate_reopens 0 st Hro Hsize Hopen) as (_ & Hgo & _).
    pose (st2 := snd (truncateBase 50 true (set_base w1 st))).
    assert (Hchunk : truncateBase 50 true (set_base w1 st) = (Ret 0, st2)) by by_eval.
    pose (w3 := snd (base_open (lastFlags st2) (base st2))).
    assert (Hback : base_open (lastFlags st2) (base st2) = (-13, w3)) by by_eval.
    pose proof (Hgo ltac:(lia) eq_refl 0 st2 Hchunk (-13) w3 Hback) as E.
    unfold st in E. rewrite E. split; by_eval.
  - pose (st := file true [0; 0]).
    assert (Hro : base_isWritable (base st) = false) by by_eval.
    pose (w1 := snd (base_open (Z.lor (lastFlags st) O_RDWR) (base st))).
    assert (Hopen : base_open (Z.lor (lastFlags st) O_RDWR) (base st) = (0, w1)) by by_eval.
    destruct (truncate_reopens 0 st Hro Hsize Hopen) as (_ & _ & Hhdr & _).
    assert (Hest : (fileIV st <> 0 /\ set_base w1 st = set_base w1 st)
                   \/ (fileIV st = 0
                       /\ initHeader 0 (set_base w1 st) = (Ret 0, set_base w1 st))).
    { left. split; [by_run | reflexivity]. }
    pose (st2 := snd (truncateBase 50 false (set_base w1 st))).
    assert (Hchunk : truncateBase 50 false (set_base w1 st) = (Ret 0, st2)) by by_eval.
    destruct (Hhdr ltac:(lia) eq_refl (set_base w1 st) Hest 0 st2 Hchunk) as [_ Hgo].
    pose (w3 := snd (base_truncate (50 + HEADER_SIZE) (base st2))).
    assert (Htrunc : base_truncate (50 + HEADER_SIZE) (base st2) = (0, w3)) by by_eval.
    pose (w4 := snd (base_open (lastFlags st2) w3)).
    assert (Hback : base_open (lastFlags st2) w3 = (0, w4)) by by_eval.
    pose proof (Hgo eq_refl 0 w3 Htrunc 0 w4 Hback) as E.
    unfold st in E. rewrite E. split; by_eval.
Defined.

(** ** The synthesized header of reverse mode *)

Section ReverseHeader.
Context {W : Type} {F : FileIO W} {C : Cipher W} {B : BlockFileIO W}.

(** In reverse mode [getAttr] asserts nothing and leaves the inode number
    alone. *)
Lemma getAttr_reverse (st : CipherFileIO W) (res : Z) (sb : stat) :
  reverseEncryption st = true ->
  base_getAttr (base st) = (res, sb) ->
  exists sb', getAttr st = (Ret (res, sb'), st) /\ st_ino sb' = st_ino sb.
Proof.
  intros Hrev Hattr.
  rewrite getAttr_adjusted, Hattr. cbn [fst snd].
  destruct ((res =? 0) && S_ISREG (st_mode sb)).
  - unfold adjusted_size. rewrite Hrev. cbn [negb]. run_monad.
    destruct (st_size sb >? 0); eexists; split; reflexivity.
  - exists sb. split; reflexivity.
Qed.

(** X18.  The header of a file on a reverse mount is derived from its
    inode number alone: the first 8 bytes of the SHA-1 digest of the
    little-endian inode number become the file IV (read big-endian), and
    their stream encryption under the external IV is the header handed
    out ([-EBADMSG] if the cipher fails; the file IV is set all the
    same).  A failing [stat] or the inode number 0 is a failed assertion.
    The backing file is only looked at. *)
Theorem generateReverseHeader_value (st : CipherFileIO W) (res : Z) (sb : stat) :
  reverseEncryption st = true ->
  base_getAttr (base st) = (res, sb) ->
  (res <> 0 -> generateReverseHeader st = (AssertFailed "res == 0", st))
  /\ (res = 0 -> st_ino sb = 0 ->
      generateReverseHeader st = (AssertFailed "ino != 0", st))
  /\ (res = 0 -> st_ino sb <> 0 ->
      let digest := take HEADER_SIZE (SHA1 (serialize_ino (st_ino sb))) in
      forall ok enc,
        streamEncode digest (externalIV st) = (ok, enc) ->
        generateReverseHeader st
          = (Ret (if ok then 0 else - EBADMSG, enc), set_fileIV (decodeIV digest) st)).
Proof.
  intros Hrev Hattr.
  destruct (getAttr_reverse st Hrev Hattr) as (sb' & Hget & Hino).
  split; [| split].
  - intros Hres.
    unfold generateReverseHeader. unfold bind at 1. rewrite Hget. cbn [fst snd].
    run_monad.
    destruct (Z.eqb_spec res 0) as [E | _]; [contradiction | reflexivity].
  - intros -> Hzero.
    unfold generateReverseHeader. unfold bind at 1. rewrite Hget. cbn [fst snd].
    rewrite Hino. run_monad. cbn [Z.eqb]. rewrite Hzero. reflexivity.
  - intros -> Hnz digest ok enc Henc.
    unfold generateReverseHeader. unfold bind at 1. rewrite Hget. cbn [fst snd].
    rewrite Hino. run_monad. cbn [Z.eqb].
    destruct (Z.eqb_spec (st_ino sb) 0) as [E | _]; [contradiction |].
    cbn [negb externalIV set_fileIV].
    assert (Hin : in_place streamEncode (take HEADER_SIZE (SHA1 (serialize_ino (st_ino sb))))
                    HEADER_SIZE (externalIV st) = (ok, enc)).
    { rewrite in_place_take. fold digest. rewrite Henc. reflexivity. }
    rewrite Hin. cbn [fst snd].
    destruct ok; reflexivity.
Qed.

(** X19.  When the header of a reverse mount cannot be generated, [read]
    returns the error of the generation; the buffer of the request is
    untouched and the chunker is not called.  On a filter that is not a
    reverse mount with headers, [read] is the chunker's read. *)
Theorem read_without_header_bytes (origReq : IORequest) (st : CipherFileIO W) :
  (reverseEncryption st && haveHeader st = false ->
   read origReq st = BlockFileIO_read origReq st)
  /\ (reverseEncryption st && haveHeader st = true ->
      forall r hdr st1,
        generateReverseHeader st = (Ret (r, hdr), st1) ->
        r < 0 ->
        read origReq st = (Ret (r, data origReq), st1)).
Proof.
  split.
  - intros Hoff. unfold read. unfold bind at 1. unfold get at 1.
    rewrite Hoff. reflexivity.
  - intros Hon r hdr st1 Hgen Hr.
    unfold read. unfold bind at 1. unfold get at 1. rewrite Hon. cbn [negb].
    unfold bind at 1. rewrite Hgen. cbn [fst snd].
    destruct (Z.ltb_spec r 0) as [_ | Hge]; [reflexivity | lia].
Qed.

End ReverseHeader.

(** X20.  The inode number is serialised as its eight bytes, least
    significant first; two different 64-bit inode numbers never give the
    same input to the digest. *)
Theorem serialize_ino_injective (a b : Z) :
  0 <= a < 2 ^ 64 ->
  0 <= b < 2 ^ 64 ->
  length (serialize_ino a) = 8%nat
  /\ spec_le64 (serialize_ino a) = a
  /\ (serialize_ino a = serialize_ino b -> a = b).
Proof.
  intros Ha Hb.
  split; [apply serialize_ino_length | split; [apply serialize_ino_decodes; exact Ha |]].
  intros E.
  rewrite <- (serialize_ino_decodes Ha), <- (serialize_ino_decodes Hb), E.
  reflexivity.
Qed.

(** Inode 42 on the toy digest: the header is [2a 00 ...] shifted by the
    external IV 7, and the file IV is [0x2a00000000000000]. *)
Lemma generateReverseHeader_value_run :
  let st :=
    Mock.filter (Mock.mkWorld 100 false (0, mkStat S_IFREG 100 42) []
                   [] [] [] [] [] [] [] []) true false true false 1024 7 0 in
  fst (generateReverseHeader st) = Ret (0, [x31; x07; x07; x07; x07; x07; x07; x07])
  /\ fileIV (snd (generateReverseHeader st)) = 42 * 2 ^ 56
  /\ base (snd (generateReverseHeader st)) = base st.
Proof.
  intros st.
  pose (sb := mkStat S_IFREG 100 42).
  assert (Hrev : reverseEncryption st = true) by by_eval.
  assert (Hattr : base_getAttr (base st) = (0, sb)) by by_eval.
  destruct (generateReverseHeader_value st Hrev Hattr) as (_ & _ & Hgo).
  assert (Hnz : st_ino sb <> 0) by by_run.
  pose (enc := [x31; x07; x07; x07; x07; x07; x07; x07]).
  assert (Henc : streamEncode (take HEADER_SIZE (SHA1 (serialize_ino (st_ino sb))))
                   (externalIV st) = (true, enc)) by by_eval.
  pose proof (Hgo eq_refl Hnz true enc Henc) as E.
  rewrite E. repeat split; by_eval.
Defined.

(** A filter without headers relays the read to the chunker.  On a
    reverse mount with headers whose cipher refuses, the read ends with
    [-EBADMSG]; the buffer is untouched and the chunker is not called. *)
Lemma read_without_header_bytes_run :
  let plain :=
    Mock.filter (Mock.mkWorld 100 false (0, mkStat S_IFREG 100 42) []
                   [] [] [] [] [] [] [(4, repeat x55 4)] [])
      false false true false 1024 7 0 in
  let reversed :=
    Mock.filter (Mock.mkWorld 100 false (0, mkStat S_IFREG 100 42) []
                   [] [] [] [] [] [] [(4, repeat x55 4)] [])
      true false true false 1024 7 0 in
  let req := mkIORequest 0 4 (repeat x00 4) in
  (fst (read req plain) = Ret (4, repeat x55 4)
   /\ Mock.log (base (snd (read req plain))) = [Mock.EvBlockRead 0 4])
  /\ (fst (@read _ Mock.fileIO refusing_cipher Mock.blockFileIO req reversed)
      = Ret (- EBADMSG, repeat x00 4)
      /\ Mock.log (base (snd (@read _ Mock.fileIO refusing_cipher Mock.blockFileIO
                                req reversed))) = []).
Proof.
  intros plain reversed req.
  split.
  - destruct (read_without_header_bytes req plain) as [Hrelay _].
    pose proof (Hrelay ltac:(by_eval)) as E.
    rewrite E. split; by_eval.
  - destruct (@read_without_header_bytes _ Mock.fileIO refusing_cipher Mock.blockFileIO
                req reversed) as [_ Hfail].
    pose (hdr := [x2a; x00; x00; x00; x00; x00; x00; x00]).
    pose (st1 := snd (@generateReverseHeader _ Mock.fileIO refusing_cipher reversed)).
    assert (Hgen : @generateReverseHeader _ Mock.fileIO refusing_cipher reversed
                   = (Ret (- EBADMSG, hdr), st1)) by by_eval.
    pose proof (Hfail ltac:(by_eval) (- EBADMSG) hdr st1 Hgen ltac:(by_run)) as E.
    rewrite E. split; by_eval.
Defined.

(** The inode numbers 42 and 298 differ in their second byte. *)
Lemma serialize_ino_injective_run :
  serialize_ino 42 = [x2a; x00; x00; x00; x00; x00; x00; x00]
  /\ serialize_ino 298 = [x2a; x01; x00; x00; x00; x00; x00; x00]
  /\ spec_le64 (serialize_ino 298) = 298.
Proof.
  assert (Ha : 0 <= 298 < 2 ^ 64) by lia.
  assert (Hb : 0 <= 42 < 2 ^ 64) by lia.
  destruct (serialize_ino_injective Ha Hb) as (_ & Hd & _).
  split; [by_eval | split; [by_eval | exact Hd]].
Defined.

(** ** [setIV] beside the header rewrite *)

Section SetIVPaths.
Context {W : Type} {F : FileIO W} {C : Cipher W}.

(** X21.  [setIV] without a header rewrite.  While the external IV is
    still 0 the new IV is stored and handed to the backing file; nothing
    is opened, read or written, and the new IV stays stored whatever the
    backing file answers.  On a filter without headers whose external IV
    is set already, the IV is handed to the backing file only: the
    external IV of the filter is not changed. *)
Theorem setIV_without_rewrite (fuel : nat) (iv : Z) (st : CipherFileIO W) :
  forall ok w1,
    base_setIV iv (base st) = (ok, w1) ->
    (externalIV st = 0 ->
     setIV fuel iv st = (Ret ok, set_base w1 (set_externalIV iv st)))
    /\ (externalIV st <> 0 -> haveHeader st = false ->
        setIV fuel iv st = (Ret ok, set_base w1 st)).
Proof.
  intros ok w1 Hset.
  split.
  - intros Hz. unfold setIV. run_monad. rewrite Hz. cbn [Z.eqb].
    cbn [base set_externalIV]. rewrite Hset. reflexivity.
  - intros Hnz Hh. unfold setIV. run_monad.
    destruct (Z.eqb_spec (externalIV st) 0) as [E | _]; [contradiction |].
    rewrite Hh. rewrite Hset. reflexivity.
Qed.

(** X22.  The header rewrite of [setIV].  With an external IV and a file
    IV established, [setIV] re-opens the file for writing, encrypts the
    file IV under the new external IV and writes it at offset 0.  If the
    write succeeds the new external IV is kept and handed to the backing
    file; if it fails the old external IV is restored and [false] is
    returned.  Either way the member [fileIV] is zero afterwards. *)
Theorem setIV_rewrites_header (fuel : nat) (iv : Z) (st : CipherFileIO W) :
  externalIV st <> 0 ->
  haveHeader st = true ->
  0 < fileIV st < 2 ^ 64 ->
  forall res w1,
    base_open (Z.lor (lastFlags st) O_RDWR) (base st) = (res, w1) ->
    0 <= res ->
    forall enc,
      streamEncode (serialized_fileIV (fileIV st)) iv = (true, enc) ->
      forall wr w2,
        base_write (mkIORequest 0 8 enc) w1 = (wr, w2) ->
        (wr < 0 ->
         setIV fuel iv st = (Ret false, set_base w2 (set_fileIV 0 st)))
        /\ (0 <= wr ->
            forall ok w3,
              base_setIV iv w2 = (ok, w3) ->
              setIV fuel iv st
                = (Ret ok, set_base w3 (set_externalIV iv (set_fileIV 0 st)))).
Proof.
  intros Hext Hh Hiv res w1 Hopen Hres enc Henc wr w2 Hwrite.
  pose (st1 := set_externalIV iv (set_base w1 st)).
  assert (Hr1 : 0 <= fileIV st1 < 2 ^ 64) by (cbn; lia).
  assert (Henc1 : streamEncode (serialized_fileIV (fileIV st1)) (externalIV st1)
                  = (true, enc)) by exact Henc.
  assert (Hwh : writeHeader st1
                = (Ret (wr >=? 0), set_base w2 (set_fileIV 0 st1))).
  { rewrite (writeHeader_unfolded st1 Hr1). cbv zeta. rewrite Henc1. cbn [fst snd negb].
    run_monad. change (base (set_fileIV 0 st1)) with w1. rewrite Hwrite. reflexivity. }
  assert (Hstart : setIV fuel iv st =
    (ok <- writeHeader ;;
     if negb ok then modify (set_externalIV (externalIV st)) ;;; ret false
     else on_base (base_setIV iv)) st1).
  { unfold setIV. unfold bind at 1. unfold get at 1.
    destruct (Z.eqb_spec (externalIV st) 0) as [E | _]; [contradiction |].
    rewrite Hh. unfold bind at 1. unfold on_base at 1. rewrite Hopen.
    destruct (Z.ltb_spec res 0) as [Hneg | _]; [lia |].
    destruct (Z.eqb_spec (fileIV st) 0) as [E | _]; [lia |].
    reflexivity. }
  assert (Hrun : setIV fuel iv st =
    (if negb (wr >=? 0) then modify (set_externalIV (externalIV st)) ;;; ret false
     else on_base (base_setIV iv)) (set_base w2 (set_fileIV 0 st1))).
  { rewrite Hstart. unfold bind at 1. rewrite Hwh. reflexivity. }
  rewrite Hrun. clear Hrun Hstart Hwh.
  split.
  - intros Hneg. destruct (Z.geb_spec wr 0) as [Hge | _]; [lia |].
    cbn [negb]. run_monad. destruct st; reflexivity.
  - intros Hge ok w3 Hset. destruct (Z.geb_spec wr 0) as [_ | Hlt]; [| lia].
    cbn [negb]. run_monad. cbn [base set_base].
    rewrite Hset. destruct st; reflexivity.
Qed.

End SetIVPaths.

(** The first external IV of a filter, and a second one on a filter
    without headers. *)
Lemma setIV_without_rewrite_run :
  let fresh := Mock.filter (Mock.regular 100 true) true false false false 1024 0 0 in
  let bare := Mock.filter (Mock.regular 100 true) false false false false 1024 7 0 in
  (fst (setIV 0 9 fresh) = Ret true
   /\ externalIV (snd (setIV 0 9 fresh)) = 9
   /\ Mock.log (base (snd (setIV 0 9 fresh))) = [Mock.EvSetIV 9])
  /\ (fst (setIV 0 9 bare) = Ret true
      /\ externalIV (snd (setIV 0 9 bare)) = 7
      /\ Mock.log (base (snd (setIV 0 9 bare))) = [Mock.EvSetIV 9]).
Proof.
  intros fresh bare.
  split.
  - pose (w1 := snd (base_setIV 9 (base fresh))).
    assert (Hset : base_setIV 9 (base fresh) = (true, w1)) by by_eval.
    destruct (setIV_without_rewrite 0 9 fresh Hset) as [Hfirst _].
    pose proof (Hfirst eq_refl) as E.
    rewrite E. repeat split; by_eval.
  - pose (w1 := snd (base_setIV 9 (base bare))).
    assert (Hset : base_setIV 9 (base bare) = (true, w1)) by by_eval.
    destruct (setIV_without_rewrite 0 9 bare Hset) as [_ Hnext].
    pose proof (Hnext ltac:(by_run) eq_refl) as E.
    rewrite E. repeat split; by_eval.
Defined.

(** The file IV 258 is moved from the external IV 7 to the external IV 9:
    the header [09 09 09 09 09 09 0a 0b] is written; when the write fails
    the external IV is 7 again. *)
Lemma setIV_rewrites_header_run :
  let file (script : list Z) :=
    Mock.filter (Mock.mkWorld 100 true (0, mkStat S_IFREG 100 42) []
                   [] script [] [] [] [] [] []) true false false false 1024 7 258 in
  (fst (setIV 0 9 (file [])) = Ret true
   /\ externalIV (snd (setIV 0 9 (file []))) = 9
   /\ fileIV (snd (setIV 0 9 (file []))) = 0
   /\ Mock.log (base (snd (setIV 0 9 (file []))))
      = [Mock.EvOpen 2; Mock.EvWrite 0 8 [x09; x09; x09; x09; x09; x09; x0a; x0b];
         Mock.EvSetIV 9])
  /\ (fst (setIV 0 9 (file [-5])) = Ret false
      /\ externalIV (snd (setIV 0 9 (file [-5]))) = 7
      /\ fileIV (snd (setIV 0 9 (file [-5]))) = 0).
Proof.
  intros file.
  pose (enc := [x09; x09; x09; x09; x09; x09; x0a; x0b]).
  split.
  - pose (st := file []).
    assert (Hext : externalIV st <> 0) by by_run.
    assert (Hh : haveHeader st = true) by by_eval.
    assert (Hiv : 0 < fileIV st < 2 ^ 64) by by_run.
    pose (w1 := snd (base_open (Z.lor (lastFlags st) O_RDWR) (base st))).
    assert (Hopen : base_open (Z.lor (lastFlags st) O_RDWR) (base st) = (0, w1)) by by_eval.
    assert (Henc : streamEncode (serialized_fileIV (fileIV st)) 9 = (true, enc)) by by_eval.
    pose (w2 := snd (base_write (mkIORequest 0 8 enc) w1)).
    assert (Hwrite : base_write (mkIORequest 0 8 enc) w1 = (8, w2)) by by_eval.
    destruct (setIV_rewrites_header 0 9 st Hext Hh Hiv Hopen ltac:(lia) Henc Hwrite)
      as [_ Hgo].
    pose (w3 := snd (base_setIV 9 w2)).
    assert (Hset : base_setIV 9 w2 = (true, w3)) by by_eval.
    pose proof (Hgo ltac:(lia) true w3 Hset) as E.
    unfold st in E. rewrite E. repeat split; by_eval.
  - pose (st := file [-5]).
    assert (Hext : externalIV st <> 0) by by_run.
    assert (Hh : haveHeader st = true) by by_eval.
    assert (Hiv : 0 < fileIV st < 2 ^ 64) by by_run.
    pose (w1 := snd (base_open (Z.lor (lastFlags st) O_RDWR) (base st))).
    assert (Hopen : base_open (Z.lor (lastFlags st) O_RDWR) (base st) = (0, w1)) by by_eval.
    assert (Henc : streamEncode (serialized_fileIV (fileIV st)) 9 = (true, enc)) by by_eval.
    pose (w2 := snd (base_write (mkIORequest 0 8 enc) w1)).
    assert (Hwrite : base_write (mkIORequest 0 8 enc) w1 = (-5, w2)) by by_eval.
    destruct (setIV_rewrites_header 0 9 st Hext Hh Hiv Hopen ltac:(lia) Henc Hwrite)
      as [Hfail _].
    pose proof (Hfail ltac:(lia)) as E.
    unfold st in E. rewrite E. repeat split; by_eval.
Defined.

(** ** Construction, and the size of what a read returns *)

Section Construction.
Context {W : Type} {F : FileIO W} {C : Cipher W}.

Abbreviation cbs := (@cipherBlockSize W C).

(** X23.  The block size of a new filter is the configured one, less one
    byte when blocks are padded and the filter decrypts: a full block and
    its padding byte then fill the configured block size on disk, which
    the constructor's check makes a whole number of cipher blocks.  A new
    filter has no external IV, no file IV and no flags. *)
Theorem new_filter_block_size (w : W) (cfg : FSConfig) (req : IORequest) :
  1 <= cfg_blockSize cfg < 2 ^ 32 ->
  let st := new_CipherFileIO w cfg in
  (blockSize st
   = cfg_blockSize cfg - (if haveCBCPadding st && negb (reverseEncryption st) then 1 else 0)
   /\ externalIV st = 0 /\ fileIV st = 0 /\ lastFlags st = 0)
  /\ (block_sizes_ok cfg ->
      haveCBCPadding st = true ->
      reverseEncryption st = false ->
      dataLen req = blockSize st ->
      dataLen (backingRequest st req) = cfg_blockSize cfg
      /\ Z.rem (dataLen (backingRequest st req)) cbs = 0).
Proof.
  intros Hbs st.
  assert (Hsize : blockSize st
    = cfg_blockSize cfg
      - (if haveCBCPadding st && negb (reverseEncryption st) then 1 else 0)).
  { subst st. unfold new_CipherFileIO, checkCBCPadding.
    cbn [blockSize haveCBCPadding reverseEncryption].
    destruct (((cipherIface_current cfg =? 3) && (cipherIface_revision cfg >=? 1))
              || (cipherIface_current cfg >? 3)).
    - destruct (cfg_reverseEncryption cfg); cbn; rewrite u32_id by lia; lia.
    - cbn. rewrite u32_id by lia. lia. }
  split.
  - split; [exact Hsize | repeat split].
  - intros Hok Hpad Hrev Hlen.
    rewrite Hpad, Hrev in Hsize. cbn [andb negb] in Hsize.
    assert (Hreq : dataLen (backingRequest st req) = cfg_blockSize cfg).
    { unfold backingRequest. rewrite Hpad, Hrev. cbn [andb negb].
      destruct (haveHeader st); cbn [andb negb dataLen]; rewrite Hlen, Hsize;
        rewrite (u64_id (z := cfg_blockSize cfg - 1 + 1)) by lia; lia. }
    split; [exact Hreq |].
    rewrite Hreq. exact Hok.
Qed.

End Construction.

Section ReadSizes.
Context {W : Type} {F : FileIO W} {C : Cipher W}.

Abbreviation cbs := (@cipherBlockSize W C).



End ReadSizes.

(** Cipher interface 3.1 with the configured block size 1024: blocks of
    1023 bytes, stored in 1024 bytes, which are 64 cipher blocks of the
    toy cipher. *)
Lemma new_filter_block_size_run :
  let cfg := mkFSConfig 1024 3 1 false true false in
  let st := new_CipherFileIO (Mock.regular 0 true) cfg in
  blockSize st = 1023
  /\ dataLen (backingRequest st (mkIORequest 0 1023 [])) = 1024
  /\ Z.rem (dataLen (backingRequest st (mkIORequest 0 1023 []))) 16 = 0.
Proof.
  intros cfg st.
  assert (Hbs : 1 <= cfg_blockSize cfg < 2 ^ 32) by by_run.
  destruct (new_filter_block_size (Mock.regular 0 true) cfg (mkIORequest 0 1023 []) Hbs)
    as [(Hsize & _) Hwhole].
  assert (Hok : @block_sizes_ok Mock.world Mock.cipher cfg) by by_eval.
  destruct (Hwhole Hok eq_refl eq_refl eq_refl) as [Hlen Hrem].
  split; [by_eval | split; [exact Hlen | exact Hrem]].
Defined.


(** ** Blocks on a reverse mount *)

Section ReverseBlocks.
Context {W : Type} {F : FileIO W} {C : Cipher W}.

(** X25.  On a reverse mount without headers and padding the roles of
    the cipher are exchanged: [writeOneBlock] decrypts the block it is
    given and stores the plaintext at the requested offset, and
    [readOneBlock] at that offset, given those bytes by the backing file,
    encrypts them again and returns the block that was written; provided
    the cipher encodes what it decoded.  Blocks of zeros are not treated
    as holes here. *)
Theorem reverse_block_write_then_read (fuel : nat) (req : IORequest)
    (st : CipherFileIO W) :
  haveCBCPadding st = false ->
  reverseEncryption st = true ->
  haveHeader st = false ->
  0 <= offset req < 2 ^ 62 ->
  0 < blockSize st < 2 ^ 31 ->
  0 < dataLen req < 2 ^ 31 ->
  Z.of_nat (length (data req)) = dataLen req ->
  let iv := Z.lxor (offset req / blockSize st) (fileIV st) in
  let full := dataLen req =? blockSize st in
  forall plain,
    (if full then blockDecode else streamDecode) (data req) iv = (true, plain) ->
    (if full then blockEncode else streamEncode) plain iv = (true, data req) ->
    Z.of_nat (length plain) = dataLen req ->
    forall res w1,
      base_write (mkIORequest (offset req) (dataLen req) plain) (base st) = (res, w1) ->
      writeOneBlock fuel req st = (Ret (res, plain), set_base w1 st)
      /\ forall (rreq : IORequest) (rest : list byte) (w2 : W),
           offset rreq = offset req ->
           base_read rreq w1 = ((dataLen req, plain ++ rest), w2) ->
           readOneBlock fuel rreq (set_base w1 st)
             = (Ret (dataLen req, data req ++ rest), set_base w2 st).
Proof.
  intros Hpad Hrev Hh Hoff Hbs Hlen Hdata iv full plain Hdec Henc Hplain res w1 Hwrite.
  split.
  - unfold writeOneBlock. run_monad.
    rewrite Hh. cbn [andb].
    change (0 <? 0) with false. cbv beta iota.
    rewrite blockNum_plain_unsigned by lia.
    rewrite (u32_id (z := blockSize st)) by lia.
    rewrite (s32_id (z := dataLen req)) by lia.
    fold iv. fold full.
    unfold streamWrite, blockWrite, in_place. rewrite Hrev. cbn [negb].
    rewrite (take_exact _ Hdata), (drop_exact _ Hdata).
    assert (Hsel : (if negb full
                    then let (ok, out) := streamDecode (data req) iv in (ok, out ++ [])
                    else let (ok, out) := blockDecode (data req) iv in (ok, out ++ []))
                   = (true, plain)).
    { destruct full; cbn [negb]; rewrite Hdec, app_nil_r; reflexivity. }
    rewrite Hsel. cbn [fst snd]. rewrite Hh.
    rewrite Hwrite. reflexivity.
  - intros rreq rest w2 Hsame Hread.
    unfold readOneBlock, fetchBlock. run_monad.
    cbn [base set_base haveHeader fileIV].
    assert (Hreq : backingRequest (set_base w1 st) rreq = rreq).
    { unfold backingRequest.
      cbn [haveCBCPadding reverseEncryption haveHeader set_base].
      rewrite Hpad, Hh. reflexivity. }
    rewrite Hreq, Hread. cbn [fst snd].
    rewrite Hh. cbn [andb].
    f_equal. f_equal.
    unfold decodeBlock.
    cbn [fst snd haveCBCPadding reverseEncryption blockSize fileIV allowHoles set_base].
    rewrite Hpad. cbn [andb].
    destruct (Z.gtb_spec (dataLen req) 0) as [_ | Hnp]; [| lia].
    rewrite Hsame.
    rewrite blockNum_plain by lia. fold iv.
    rewrite (s32_id (z := blockSize st)) by lia.
    rewrite (s32_id (z := dataLen req)) by lia.
    fold full.
    unfold streamRead, blockRead, in_place.
    cbn [reverseEncryption allowHoles set_base]. rewrite Hrev.
    rewrite (take_app_exact _ _ Hplain), (drop_app_exact _ _ Hplain).
    destruct full; cbn [negb]; rewrite Henc; reflexivity.
Qed.

End ReverseBlocks.

(** Ten bytes written at offset 64 of a file on a reverse mount with
    [blockSize() = 32], and read back by a request for a whole block. *)
Lemma reverse_block_write_then_read_run :
  let plain := repeat x01 10 in
  let st :=
    Mock.filter (Mock.mkWorld 100 true (0, mkStat S_IFREG 100 42) []
                   [(10, plain ++ repeat x00 22)] [] [] [] [] [] [] [])
      false false true false 32 7 0 in
  let req := mkIORequest 64 10 (repeat x03 10) in
  let rreq := mkIORequest 64 32 (repeat x00 32) in
  fst (writeOneBlock 0 req st) = Ret (10, plain)
  /\ Mock.log (base (snd (writeOneBlock 0 req st))) = [Mock.EvWrite 64 10 plain]
  /\ fst (readOneBlock 0 rreq (snd (writeOneBlock 0 req st)))
     = Ret (10, repeat x03 10 ++ repeat x00 22).
Proof.
  intros plain st req rreq.
  assert (Hpad : haveCBCPadding st = false) by by_eval.
  assert (Hrev : reverseEncryption st = true) by by_eval.
  assert (Hh : haveHeader st = false) by by_eval.
  assert (Hoff : 0 <= offset req < 2 ^ 62) by by_run.
  assert (Hbs : 0 < blockSize st < 2 ^ 31) by by_run.
  assert (Hlen : 0 < dataLen req < 2 ^ 31) by by_run.
  assert (Hdata : Z.of_nat (length (data req)) = dataLen req) by by_eval.
  pose proof (reverse_block_write_then_read 0 req st Hpad Hrev Hh Hoff Hbs Hlen Hdata) as T.
  cbv zeta in T.
  assert (Hdec : (if dataLen req =? blockSize st then blockDecode else streamDecode)
                   (data req) (Z.lxor (offset req / blockSize st) (fileIV st))
                 = (true, plain)) by by_eval.
  assert (Henc : (if dataLen req =? blockSize st then blockEncode else streamEncode)
                   plain (Z.lxor (offset req / blockSize st) (fileIV st))
                 = (true, data req)) by by_eval.
  assert (Hplain : Z.of_nat (length plain) = dataLen req) by by_eval.
  pose (w1 := snd (base_write (mkIORequest (offset req) (dataLen req) plain) (base st))).
  assert (Hwrite : base_write (mkIORequest (offset req) (dataLen req) plain) (base st)
                   = (10, w1)) by by_eval.
  destruct (T plain Hdec Henc Hplain 10 w1 Hwrite) as [Ew Hr].
  pose (w2 := snd (base_read rreq w1)).
  assert (Hread : base_read rreq w1 = ((dataLen req, plain ++ repeat x00 22), w2)) by by_eval.
  pose proof (Hr rreq (repeat x00 22) w2 eq_refl Hread) as Er.
  rewrite Ew. cbn [fst snd]. rewrite Er.
  repeat split; by_eval.
Defined.

(** ** What block I/O keeps, and the file IV across [setIV] *)

Section Kept.
Context {W : Type} {F : FileIO W} {C : Cipher W}.

(** X26.  [readOneBlock] and [writeOneBlock] never change the
    configuration of the filter, its external IV or its flags.  Once the
    file IV is established (or on a filter without headers) they do not
    change the file IV either. *)
Theorem block_io_keeps_the_filter (fuel : nat) (req : IORequest) (st : CipherFileIO W) :
  (same_settings st (snd (readOneBlock fuel req st))
   /\ same_settings st (snd (writeOneBlock fuel req st)))
  /\ (haveHeader st && (fileIV st =? 0) = false ->
      fileIV (snd (readOneBlock fuel req st)) = fileIV st
      /\ fileIV (snd (writeOneBlock fuel req st)) = fileIV st).
Proof.
  split; [split |].
  - unfold readOneBlock, fetchBlock. run_monad.
    destruct (base_read _ (base st)) as [[n buf] w1]. cbn [fst snd].
    destruct (haveHeader st && (fileIV st =? 0) && (n >? 0)).
    + pose proof (initHeader_settings fuel (set_base w1 st)) as Hinit.
      destruct (initHeader fuel (set_base w1 st)) as [[r | t |] st2]; cbn [snd] in *.
      * eapply same_settings_trans; [apply (same_settings_base w1 st) |].
        destruct (r <? 0); exact Hinit.
      * eapply same_settings_trans; [apply (same_settings_base w1 st) | exact Hinit].
      * eapply same_settings_trans; [apply (same_settings_base w1 st) | exact Hinit].
    + apply same_settings_base.
  - unfold writeOneBlock. run_monad.
    destruct (haveHeader st && reverseEncryption st); [apply same_settings_refl |].
    destruct (haveHeader st && (fileIV st =? 0)).
    + pose proof (initHeader_settings fuel st) as Hinit.
      destruct (initHeader fuel st) as [[r | t |] st1]; cbn [snd] in *; try exact Hinit.
      destruct (r <? 0); [exact Hinit |].
      destruct (fst (if negb (dataLen req =? u32 (blockSize st)) then _ else _));
        [| exact Hinit].
      destruct (haveHeader st1).
      * destruct (base_write _ (base st1)) as [res w2].
        eapply same_settings_trans; [exact Hinit | apply same_settings_base].
      * destruct (base_write _ (base st1)) as [res w2].
        eapply same_settings_trans; [exact Hinit | apply same_settings_base].
    + change (0 <? 0) with false. cbv beta iota.
      destruct (fst (if negb (dataLen req =? u32 (blockSize st)) then _ else _));
        [| apply same_settings_refl].
      destruct (haveHeader st).
      * destruct (base_write _ (base st)) as [res w2]. apply same_settings_base.
      * destruct (base_write _ (base st)) as [res w2]. apply same_settings_base.
  - intros Hguard. split.
    + unfold readOneBlock, fetchBlock. run_monad.
      destruct (base_read _ (base st)) as [[n buf] w1]. cbn [fst snd].
      rewrite Hguard. reflexivity.
    + unfold writeOneBlock. run_monad.
      destruct (haveHeader st && reverseEncryption st); [reflexivity |].
      rewrite Hguard. change (0 <? 0) with false. cbv beta iota.
      destruct (fst (if negb (dataLen req =? u32 (blockSize st)) then _ else _));
        [| reflexivity].
      destruct (haveHeader st).
      * destruct (base_write _ (base st)) as [res w2]. reflexivity.
      * destruct (base_write _ (base st)) as [res w2]. reflexivity.
Qed.

(** The header read of [initHeader], for a header that decodes to the
    bytes of a non-zero IV. *)
Lemma initHeader_reads_header (fuel : nat) (st1 : CipherFileIO W) (v n : Z)
    (enc : list byte) (w2 : W) :
  0 < v < 2 ^ 64 ->
  HEADER_SIZE <= base_getSize (base st1) ->
  base_read (mkIORequest 0 8 (repeat x00 8)) (base st1) = ((n, enc), w2) ->
  0 <= n ->
  streamDecode (take 8 enc) (externalIV st1) = (true, serialized_fileIV v) ->
  initHeader fuel st1 = (Ret 0, set_fileIV v (set_base w2 st1)).
Proof.
  intros Hv Hsize Hread Hn Hdec.
  unfold initHeader. run_monad.
  destruct (Z.geb_spec (base_getSize (base st1)) HEADER_SIZE) as [_ | Hlt]; [| lia].
  rewrite Hread. cbn [fst snd].
  destruct (Z.ltb_spec n 0) as [Hneg | _]; [lia |].
  rewrite in_place_take, Hdec. cbn [fst snd negb].
  rewrite (serialized_fileIV_decodes (v := v)) by lia.
  destruct (Z.eqb_spec v 0) as [E | _]; [lia |].
  reflexivity.
Qed.

(** X27.  The file IV survives a change of the external IV.  [setIV]
    leaves the member [fileIV] at 0, and the next [initHeader] reads the
    header that [setIV] wrote and establishes the old file IV again,
    under the new external IV; provided the cipher decodes what it
    encoded and the backing file returns the header it was given. *)
Theorem fileIV_survives_setIV (fuel : nat) (iv : Z) (st : CipherFileIO W) :
  externalIV st <> 0 ->
  haveHeader st = true ->
  0 < fileIV st < 2 ^ 64 ->
  forall res w1,
    base_open (Z.lor (lastFlags st) O_RDWR) (base st) = (res, w1) ->
    0 <= res ->
    forall enc wr w2 ok w3,
      streamEncode (serialized_fileIV (fileIV st)) iv = (true, enc) ->
      base_write (mkIORequest 0 8 enc) w1 = (wr, w2) ->
      0 <= wr ->
      base_setIV iv w2 = (ok, w3) ->
      streamDecode (take 8 enc) iv = (true, serialized_fileIV (fileIV st)) ->
      HEADER_SIZE <= base_getSize w3 ->
      forall n w4,
        base_read (mkIORequest 0 8 (repeat x00 8)) w3 = ((n, enc), w4) ->
        0 <= n ->
        exists st1,
          setIV fuel iv st = (Ret ok, st1)
          /\ fileIV st1 = 0
          /\ initHeader fuel st1 = (Ret 0, set_base w4 (set_externalIV iv st)).
Proof.
  intros Hext Hh Hiv res w1 Hopen Hres enc wr w2 ok w3 Henc Hwrite Hwr Hset
    Hdec Hsize n w4 Hread Hn.
  pose (st0 := set_externalIV iv (set_base w1 st)).
  assert (Hr0 : 0 <= fileIV st0 < 2 ^ 64) by (cbn; lia).
  assert (Hwh : writeHeader st0 = (Ret true, set_base w2 (set_fileIV 0 st0))).
  { rewrite (writeHeader_unfolded st0 Hr0). cbv zeta.
    change (fileIV st0) with (fileIV st). change (externalIV st0) with iv.
    rewrite Henc. cbn [fst snd negb].
    run_monad. change (base (set_fileIV 0 st0)) with w1. rewrite Hwrite.
    destruct (Z.geb_spec wr 0) as [_ | Hlt]; [reflexivity | lia]. }
  pose (st1 := set_base w3 (set_externalIV iv (set_fileIV 0 st))).
  assert (Hrun : setIV fuel iv st = (Ret ok, st1)).
  { unfold setIV. unfold bind at 1. unfold get at 1.
    destruct (Z.eqb_spec (externalIV st) 0) as [E | _]; [contradiction |].
    rewrite Hh. unfold bind at 1. unfold on_base at 1. rewrite Hopen.
    destruct (Z.ltb_spec res 0) as [Hneg | _]; [lia |].
    destruct (Z.eqb_spec (fileIV st) 0) as [E | _]; [lia |].
    unfold bind at 1. unfold ret at 1. change (0 <? 0) with false. cbv beta iota.
    unfold bind at 1. unfold get at 1.
    unfold bind at 1. unfold modify at 1.
    fold st0. unfold bind at 1. rewrite Hwh. cbn [negb].
    unfold on_base. change (base (set_base w2 (set_fileIV 0 st0))) with w2.
    rewrite Hset. subst st1 st0. destruct st; reflexivity. }
  exists st1. split; [exact Hrun | split; [reflexivity |]].
  rewrite (initHeader_reads_header fuel st1 (v := fileIV st) (n := n) (enc := enc) (w2 := w4));
    try assumption.
  subst st1. destruct st; reflexivity.
Qed.

End Kept.

(** A read and a write on a file whose IV 5 is established. *)
Lemma block_io_keeps_the_filter_run :
  let st :=
    Mock.filter (Mock.mkWorld 100 true (0, mkStat S_IFREG 100 42) []
                   [(10, repeat x08 10)] [] [] [] [] [] [] [])
      true false false false 32 7 5 in
  let req := mkIORequest 64 10 (repeat x01 10) in
  fileIV (snd (readOneBlock 0 req st)) = 5
  /\ fileIV (snd (writeOneBlock 0 req st)) = 5
  /\ externalIV (snd (writeOneBlock 0 req st)) = 7.
Proof.
  intros st req.
  destruct (block_io_keeps_the_filter 0 req st) as [[_ Hw] Hiv].
  destruct (Hiv ltac:(by_eval)) as [Er Ew].
  destruct Hw as (_ & _ & _ & _ & _ & Hext & _).
  split; [exact Er | split; [exact Ew | exact Hext]].
Defined.

(** The file IV 258 moves from the external IV 7 to the external IV 9 and
    is read back from the header [09 09 09 09 09 09 0a 0b]. *)
Lemma fileIV_survives_setIV_run :
  let enc := [x09; x09; x09; x09; x09; x09; x0a; x0b] in
  let st :=
    Mock.filter (Mock.mkWorld 100 true (0, mkStat S_IFREG 100 42) []
                   [(8, enc)] [] [] [] [] [] [] []) true false false false 1024 7 258 in
  exists st1,
    setIV 0 9 st = (Ret true, st1)
    /\ fileIV st1 = 0
    /\ fileIV (snd (initHeader 0 st1)) = 258
    /\ externalIV (snd (initHeader 0 st1)) = 9.
Proof.
  intros enc st.
  assert (Hext : externalIV st <> 0) by by_run.
  assert (Hh : haveHeader st = true) by by_eval.
  assert (Hiv : 0 < fileIV st < 2 ^ 64) by by_run.
  pose (w1 := snd (base_open (Z.lor (lastFlags st) O_RDWR) (base st))).
  assert (Hopen : base_open (Z.lor (lastFlags st) O_RDWR) (base st) = (0, w1)) by by_eval.
  assert (Henc : streamEncode (serialized_fileIV (fileIV st)) 9 = (true, enc)) by by_eval.
  pose (w2 := snd (base_write (mkIORequest 0 8 enc) w1)).
  assert (Hwrite : base_write (mkIORequest 0 8 enc) w1 = (8, w2)) by by_eval.
  pose (w3 := snd (base_setIV 9 w2)).
  assert (Hset : base_setIV 9 w2 = (true, w3)) by by_eval.
  assert (Hdec : streamDecode (take 8 enc) 9 = (true, serialized_fileIV (fileIV st)))
    by by_eval.
  assert (Hsize : HEADER_SIZE <= base_getSize w3) by by_run.
  pose (w4 := snd (base_read (mkIORequest 0 8 (repeat x00 8)) w3)).
  assert (Hread : base_read (mkIORequest 0 8 (repeat x00 8)) w3 = ((8, enc), w4)) by by_eval.
  destruct (fileIV_survives_setIV 0 9 st Hext Hh Hiv Hopen ltac:(lia)
              Henc Hwrite ltac:(lia) Hset Hdec Hsize Hread ltac:(lia))
    as (st1 & Hrun & Hz & Hinit).
  exists st1. split; [exact Hrun | split; [exact Hz |]].
  rewrite Hinit. split; reflexivity.
Defined.

(** ** What the padded decode takes off *)

Section PaddingRemoved.
Context {W : Type} {F : FileIO W} {C : Cipher W}.

Abbreviation cbs := (@cipherBlockSize W C).

Lemma scanPadding_counts (n : nat) :
  forall (buf : list byte) (rs p : Z),
    0 <= p <= rs -> rs < 2 ^ 31 ->
    (Z.to_nat (rs - p) <= n)%nat ->
    (forall i, rs - p <= i < rs -> at_index buf i = x00) ->
    let k := scanPadding n buf rs p in
    p <= k <= rs
    /\ (forall i, rs - k <= i < rs -> at_index buf i = x00)
    /\ (k < rs -> at_index buf (rs - k - 1) <> x00).
Proof.
  induction n as [| n IH]; intros buf rs p Hp Hrs Hfuel Hzeros; cbn [scanPadding].
  - assert (p = rs) by lia. subst p.
    split; [lia | split; [exact Hzeros | lia]].
  - destruct (Z.ltb_spec p rs) as [Hlt | Hge]; cbn [andb].
    + destruct (is_zero (at_index buf (rs - p - 1))) eqn:Hz.
      * rewrite s32_id by lia.
        apply is_zero_true in Hz.
        destruct (IH buf rs (p + 1) ltac:(lia) Hrs ltac:(lia)) as (Hk & Hall & Hstop).
        { intros i Hi. destruct (Z.eq_dec i (rs - p - 1)) as [-> | Hne];
            [exact Hz | apply Hzeros; lia]. }
        split; [lia | split; [exact Hall | exact Hstop]].
      * apply is_zero_false in Hz.
        split; [lia | split; [exact Hzeros | intros _; exact Hz]].
    + assert (p = rs) by lia. subst p.
      split; [lia | split; [exact Hzeros | lia]].
Qed.

(** X28.  The padding scan of [readOneBlock] counts exactly the zero
    bytes at the end of the decoded block: the bytes it counts are all
    zero, and the byte in front of them, if there is one, is not. *)
Theorem scanPadding_counts_trailing_zeros (buf : list byte) (rs : Z) :
  0 <= rs < 2 ^ 31 ->
  let k := scanPadding (Z.to_nat rs) buf rs 0 in
  0 <= k <= rs
  /\ (forall i, rs - k <= i < rs -> at_index buf i = x00)
  /\ (k < rs -> at_index buf (rs - k - 1) <> x00).
Proof.
  intros Hrs.
  apply scanPadding_counts; lia.
Qed.

(** X29.  The padded decode takes off nothing but padding.  When
    [readOneBlock] on a padded file (without reverse) returns a
    non-negative size [r] for a block the cipher has decoded, then either
    the decoded block is [r] bytes of data with at least one byte, the
    marker [0x80] at index [r] and zeros from there to the end of the
    stripped bytes; or it is a hole: holes are allowed, the stripped
    bytes are a full block of [blockSize() + 1] zeros, and [r] is
    [blockSize()]. *)
Theorem padded_read_strips_only_padding (fuel : nat) (req : IORequest)
    (st st2 : CipherFileIO W) (n : Z) (buf : list byte) :
  haveCBCPadding st2 = true ->
  reverseEncryption st2 = false ->
  0 < cbs ->
  0 <= offset req < 2 ^ 63 ->
  0 < blockSize st2 < 2 ^ 31 - 1 ->
  fetchBlock fuel req st = (Ret (inr (n, buf)), st2) ->
  0 <= n < 2 ^ 31 ->
  let stripped := cbs * (n / cbs) in
  let iv := Z.lxor (offset req / blockSize st2) (fileIV st2) in
  0 < stripped ->
  forall decoded,
    blockRead st2 buf stripped iv = (true, decoded) ->
    forall r out,
      readOneBlock fuel req st = (Ret (r, out), st2) ->
      0 <= r ->
      out = decoded
      /\ ((1 <= r < stripped
           /\ at_index decoded r = x80
           /\ (forall i, r < i < stripped -> at_index decoded i = x00))
          \/ (allowHoles st2 = true
              /\ stripped = blockSize st2 + 1
              /\ r = blockSize st2
              /\ (forall i, 0 <= i < stripped -> at_index decoded i = x00))).
Proof.
  intros Hpad Hrev Hc Hoff Hbs Hfetch Hn stripped iv Hpos decoded Hdec r out Hrun Hr.
  destruct (stripped_size (n := n) (c := cbs) Hn Hc) as [_ Hle].
  fold stripped in Hle.
  rewrite (readOneBlock_fetched fuel req st Hfetch) in Hrun.
  rewrite (decodeBlock_padded st2 req buf Hpad Hrev Hc Hoff Hbs Hn Hpos Hdec) in Hrun.
  fold stripped in Hrun. cbv zeta in Hrun.
  destruct (scanPadding_counts (n := Z.to_nat stripped) decoded (rs := stripped) (p := 0)
              ltac:(lia) ltac:(lia) ltac:(lia) ltac:(intros; lia))
    as (Hk & Hzeros & Hstop).
  set (pad := scanPadding (Z.to_nat stripped) decoded stripped 0) in *.
  destruct (allowHoles st2 && (pad =? stripped) && (stripped =? blockSize st2 + 1)) eqn:Hhole.
  - inversion Hrun; subst r out. split; [reflexivity |]. right.
    apply andb_prop in Hhole. destruct Hhole as [Hhole Hfull].
    apply andb_prop in Hhole. destruct Hhole as [Hholes Hall].
    apply Z.eqb_eq in Hall. apply Z.eqb_eq in Hfull.
    split; [exact Hholes | split; [exact Hfull | split; [lia |]]].
    intros i Hi. apply Hzeros. lia.
  - destruct ((s64 (stripped - pad) >? 1)
              && (byte_to_Z (at_index decoded (stripped - pad - 1)) =? 128)) eqn:Hm.
    + apply andb_prop in Hm. destruct Hm as [Hdata Hmark].
      rewrite s64_id in Hdata by lia. apply Z.gtb_lt in Hdata.
      apply Z.eqb_eq in Hmark.
      rewrite (s32_id (z := pad + 1)) in Hrun by lia.
      rewrite s64_id in Hrun by lia.
      inversion Hrun; subst r out. split; [reflexivity |]. left.
      split; [lia | split].
      * apply byte_to_Z_inj.
        replace (stripped - (pad + 1)) with (stripped - pad - 1) by lia.
        rewrite Hmark. reflexivity.
      * intros i Hi. apply Hzeros. lia.
    + inversion Hrun; subst r out. unfold EBADMSG in Hr. lia.
Qed.

End PaddingRemoved.

(** Five bytes of data, the marker and two zeros. *)
Lemma scanPadding_counts_trailing_zeros_run :
  let buf := [x01; x02; x03; x04; x05; x80; x00; x00] in
  scanPadding 8 buf 8 0 = 2
  /\ at_index buf 5 <> x00.
Proof.
  intros buf.
  assert (Hrs : 0 <= 8 < 2 ^ 31) by lia.
  destruct (scanPadding_counts_trailing_zeros buf Hrs) as (_ & _ & Hstop).
  assert (E : scanPadding (Z.to_nat 8) buf 8 0 = 2) by by_eval.
  rewrite E in Hstop.
  split; [by_eval | apply Hstop; lia].
Defined.

(** The 35 bytes read of a padded block: 15 bytes of data in front of the
    marker at index 15 and zeros up to index 31. *)
Lemma padded_read_strips_only_padding_run :
  let payload := [x01; x02; x03; x04; x05; x06; x07; x08; x09; x0a; x0b; x0c; x0d; x0e; x0f] in
  let stored :=
    snd (blockEncode (payload ++ [x80] ++ repeat x00 16) 5) ++ [xaa; xbb; xcc] in
  let decoded := payload ++ [x80] ++ repeat x00 16 ++ [xaa; xbb; xcc] in
  let st :=
    Mock.filter (Mock.mkWorld 100 true (0, mkStat S_IFREG 100 42) []
                   [(35, stored)] [] [] [] [] [] [] []) false true false true 31 0 5 in
  let req := mkIORequest 0 31 (repeat x00 35) in
  fst (readOneBlock 0 req st) = Ret (15, decoded)
  /\ at_index decoded 15 = x80.
Proof.
  intros payload stored decoded st req.
  pose (st2 := snd (fetchBlock 0 req st)).
  assert (Hfetch : fetchBlock 0 req st = (Ret (inr (35, stored)), st2)) by by_eval.
  assert (Hpad : haveCBCPadding st2 = true) by by_eval.
  assert (Hrev : reverseEncryption st2 = false) by by_eval.
  assert (Hc : 0 < @cipherBlockSize _ Mock.cipher) by by_run.
  assert (Hoff : 0 <= offset req < 2 ^ 63) by by_run.
  assert (Hbs : 0 < blockSize st2 < 2 ^ 31 - 1) by by_run.
  assert (Hn : 0 <= 35 < 2 ^ 31) by lia.
  assert (Hpos : 0 < @cipherBlockSize _ Mock.cipher * (35 / @cipherBlockSize _ Mock.cipher))
    by by_run.
  assert (Hdec : blockRead st2 stored
                   (@cipherBlockSize _ Mock.cipher * (35 / @cipherBlockSize _ Mock.cipher))
                   (Z.lxor (offset req / blockSize st2) (fileIV st2))
                 = (true, decoded)) by by_eval.
  assert (Hrun : readOneBlock 0 req st = (Ret (15, decoded), st2)) by by_eval.
  destruct (padded_read_strips_only_padding 0 req st Hpad Hrev Hc Hoff Hbs Hfetch Hn
              Hpos Hdec Hrun ltac:(lia)) as [_ [(_ & Hmark & _) | (_ & _ & Hsize & _)]].
  - split; [rewrite Hrun; reflexivity | exact Hmark].
  - exfalso. revert Hsize. vm_compute. discriminate.
Defined.
